(** * Toolkit-Samples: the stateful-signature samples, embedded and verified

    The development follows the C sources of the samples:

    - [xmss/sign/main.c], [hss/sign/main.c]: load key and state, sign,
      save the state, save the signature;
    - [xmss/detach/main.c], [xmssmt/detach/main.c]: load key and state,
      detach, save the parent state, save the detached state, and the
      command-line parser with its [--num-sigs] option;
    - [xmssmt/verify/main.c], [rainbow/verify/main.c]: load public key and
      signature, verify.

    Each [showcase_*] function of the sources is a function of the same name
    here, written in a small state-and-error monad over a [World]: the file
    system, the local buffers of the running function, a script of
    environment faults (which [fopen], [calloc], [fread] and [fwrite] calls
    fail, and which flushes of [fclose]) and a chronological trace of the
    events the properties speak about.  The toolkit ([iqr_*] functions) is an interface the samples are
    linked against; it is a type class here, and the theorems about the
    samples' own control flow hold for every implementation of it.

    Left out: the messages to [stdout] and [stderr], the context [ctx], and
    the [iqr_*Destroy*] calls of the [end:] blocks, which touch neither the
    files nor the buffers. *)

From Stdlib Require Import ZArith Lia List Ascii String.
From Stdlib.Strings Require Import Byte.
From stdpp Require Import base option list gmap strings.

Local Open Scope string_scope.
Local Open Scope list_scope.

(** ** Return codes *)

(** Modelled from the spec: [iqr_retval.h] is not among the sources.  The
    codes the samples name ([IQR_OK], [IQR_EBADVALUE], [IQR_ENOMEM],
    [IQR_EINVBUFSIZE], [IQR_ESTATEDEPLETED]) keep their names; the other
    failures the toolkit reports are the error taxonomy of the specification
    (section 7).  An [iqr_retval] is [IQR_OK] or an error. *)
Inductive iqr_error : Type :=
| EBADVALUE
| ENOMEM
| EINVBUFSIZE
| ESTATEDEPLETED
| EINVALIDPARAMETER
| EIMPORT
| EINSUFFICIENTCAPACITY
| ECRYPTOENGINE.

Inductive iqr_retval : Type :=
| IQR_OK
| IQR_E (e : iqr_error).

Abbreviation IQR_EBADVALUE := (IQR_E EBADVALUE).
Abbreviation IQR_ENOMEM := (IQR_E ENOMEM).
Abbreviation IQR_EINVBUFSIZE := (IQR_E EINVBUFSIZE).
Abbreviation IQR_ESTATEDEPLETED := (IQR_E ESTATEDEPLETED).

(** What a call that reports through [ret] and out-parameters yields: the
    out-parameters on [IQR_OK], the error otherwise. *)
Inductive res (A : Type) : Type :=
| Ok (a : A)
| Fail (e : iqr_error).
Arguments Ok {A} a.
Arguments Fail {A} e.

Definition retval_of {A} (r : res A) : iqr_retval :=
  match r with
  | Ok _ => IQR_OK
  | Fail e => IQR_E e
  end.

(** ** The world *)

Abbreviation bytes := (list byte).

(** The [uint8_t *] locals of the showcase functions ([sig] is [sig_buf]
    here, the name being taken), and [tmp] of [load_data]. *)
Inductive Var : Type :=
| priv_raw
| state_raw
| sig_buf
| detached_state_raw
| pub_raw
| message
| tmp.

Definition Var_eqb (a b : Var) : bool :=
  match a, b with
  | priv_raw, priv_raw | state_raw, state_raw | sig_buf, sig_buf
  | detached_state_raw, detached_state_raw | pub_raw, pub_raw
  | message, message | tmp, tmp => true
  | _, _ => false
  end.

(** What the environment does at a call that can fail.  [Fails k] at an
    [fwrite], an [fread] or the flush of an [fclose] lets [k] bytes through
    before the error. *)
Inductive Outcome : Type :=
| Succeeds
| Fails (k : nat).

Inductive Event : Type :=
| EvCall (prim : string)                                (* a toolkit primitive is invoked *)
| EvOpenW (path : string) (ok : bool)                   (* fopen(path, "wb") *)
| EvWrite (path : string) (written : bytes) (ok : bool) (* fwrite, then ferror: what reached the file *)
| EvFlush (path : string) (written : bytes) (ok : bool) (* fclose of a written stream: what reached the file *)
| EvMemzero (v : Var)                                   (* secure_memzero over the whole buffer *)
| EvFree (v : Var) (content : option bytes).            (* free; the content at that moment, None for NULL *)

Record World : Type := mkWorld {
  fs : gmap string bytes;        (* the files, by path *)
  mem : Var -> option bytes;     (* the buffers the locals point to, None for NULL *)
  script : list Outcome;         (* the outcomes of the coming fallible calls; all succeed once it is empty *)
  trace : list Event             (* chronological *)
}.

Definition set_fs (f : gmap string bytes) (w : World) : World :=
  mkWorld f (mem w) (script w) (trace w).
Definition set_mem (m : Var -> option bytes) (w : World) : World :=
  mkWorld (fs w) m (script w) (trace w).
Definition set_script (s : list Outcome) (w : World) : World :=
  mkWorld (fs w) (mem w) s (trace w).
Definition log_event (e : Event) (w : World) : World :=
  mkWorld (fs w) (mem w) (script w) (trace w ++ [e]).

Definition upd (v : Var) (b : option bytes) (m : Var -> option bytes) : Var -> option bytes :=
  fun v' => if Var_eqb v v' then b else m v'.

(** ** The monad: state, and [ret = e; goto end] (or [return e]) as failure *)

Definition M (A : Type) : Type := World -> res A * World.

#[global] Instance M_ret : MRet M := fun A a w => (Ok a, w).
#[global] Instance M_bind : MBind M := fun A B f m w =>
  match m w with
  | (Ok a, w') => f a w'
  | (Fail e, w') => (Fail e, w')
  end.

Definition fail {A} (e : iqr_error) : M A := fun w => (Fail e, w).
Definition gets {A} (f : World -> A) : M A := fun w => (Ok (f w), w).
Definition modify (f : World -> World) : M unit := fun w => (Ok tt, f w).

Definition log (e : Event) : M unit := modify (log_event e).
Definition assign (v : Var) (b : option bytes) : M unit :=
  modify (fun w => set_mem (upd v b (mem w)) w).
Definition deref (v : Var) : M (option bytes) := gets (fun w => mem w v).

(** The bytes behind a pointer and a size, as a toolkit call receives them
    (NULL comes with size 0). *)
Definition buf (o : option bytes) : bytes := default [] o.

(** The next outcome of the script. *)
Definition pop : M Outcome := fun w =>
  (Ok (hd Succeeds (script w)), set_script (tl (script w)) w).

(** A toolkit primitive is invoked: [ret = iqr_...(...); if (ret != IQR_OK) goto end;]. *)
Definition call {A} (prim : string) (r : res A) : M A :=
  fun w => (r, log_event (EvCall prim) w).

(** ** stdio and the allocator *)

Inductive Mode : Type := rb | wb.

(** A stream: its path, its mode, its error indicator, and the bytes
    [fwrite] has taken that have not reached the file.  The samples never
    call [setvbuf] or [fflush]: a stream on a file is fully buffered, and
    what is written to it waits in the buffer. *)
Record FILE : Type := mkFILE {
  f_path : string;
  f_mode : Mode;
  f_err : bool;
  f_pending : bytes
}.

(** [fopen(fname, "rb")] fails on a missing file or when the environment says
    so; [fopen(fname, "wb")] truncates the file or creates it. *)
Definition fopen (fname : string) (mode : Mode) : M (option FILE) :=
  o ← pop;
  match mode, o with
  | rb, Succeeds =>
      f ← gets (fun w => fs w !! fname);
      mret (match f with Some _ => Some (mkFILE fname rb false []) | None => None end)
  | rb, Fails _ => mret None
  | wb, Succeeds =>
      modify (fun w => set_fs (<[fname := []]> (fs w)) w);;
      log (EvOpenW fname true);;
      mret (Some (mkFILE fname wb false []))
  | wb, Fails _ =>
      log (EvOpenW fname false);;
      mret None
  end.

(** [fseek(fp, 0, SEEK_END); ftell(fp); rewind(fp)]: the size of the file. *)
Definition ftell_end (fp : FILE) : M nat :=
  gets (fun w => length (default [] (fs w !! f_path fp))).

(** Bytes reach the end of a file. *)
Definition append_to (path : string) (written : bytes) (w : World) : World :=
  set_fs (<[path := default [] (fs w !! path) ++ written]> (fs w)) w.

(** [fwrite(data, data_size, 1, fp)] on a stream opened with "wb".  When
    the call goes well the bytes are in the stream's buffer and the error
    indicator stays clear: nothing has reached the file.  (A stream may
    write part of a large block through at once; whether it did cannot be
    told before the stream is closed, and the model leaves all of it
    pending.)  When the stream has to write and the write fails, [k] bytes
    have reached the file and the error indicator is set; [k] counts every
    byte of the stream that arrives, those a later flush adds among them,
    so that nothing is pending afterwards. *)
Definition fwrite (data : bytes) (fp : FILE) : M FILE :=
  o ← pop;
  match o with
  | Succeeds =>
      log (EvWrite (f_path fp) [] true);;
      mret (mkFILE (f_path fp) (f_mode fp) (f_err fp) (f_pending fp ++ data))
  | Fails k =>
      let written := take k (f_pending fp ++ data) in
      modify (append_to (f_path fp) written);;
      log (EvWrite (f_path fp) written false);;
      mret (mkFILE (f_path fp) (f_mode fp) true [])
  end.

Definition ferror (fp : FILE) : bool := f_err fp.

(** [fclose(fp)].  A stream that was written is flushed: the pending bytes
    go to the file, all of them or, when the environment fails the write
    (a full disk, a size limit, an I/O error), the [k] that got through.
    [fclose] reports such a failure in its result, which no caller in the
    samples looks at, so that the result is left out here.  A stream that
    was read, or whose error indicator is set (see [fwrite]), has nothing
    pending. *)
Definition fclose (fp : FILE) : M unit :=
  match f_mode fp, f_err fp with
  | wb, false =>
      o ← pop;
      let written :=
        match o with Succeeds => f_pending fp | Fails k => take k (f_pending fp) end in
      let ok := match o with Succeeds => true | Fails _ => false end in
      modify (append_to (f_path fp) written);;
      log (EvFlush (f_path fp) written ok)
  | _, _ => mret tt
  end.

(** [fread(tmp, 1, tmp_size, fp)] into a zeroed buffer of [tmp_size] bytes,
    from the start of the file: the count read and the buffer.  A failing
    read is short. *)
Definition fread (tmp_size : nat) (fp : FILE) : M (nat * bytes) :=
  o ← pop;
  content ← gets (fun w => default [] (fs w !! f_path fp));
  match o with
  | Succeeds => mret (tmp_size, take tmp_size content)
  | Fails k =>
      let n := Nat.min k (tmp_size - 1) in
      mret (n, take n content ++ repeat x00 (tmp_size - n))
  end.

(** [calloc(1, n)]. *)
Definition calloc (n : nat) : M (option bytes) :=
  o ← pop;
  match o with
  | Succeeds => mret (Some (repeat x00 n))
  | Fails _ => mret None
  end.

(** [free(p)] for the local [v]; [free(NULL)] does nothing, and is not an
    event. *)
Definition free (v : Var) : M unit :=
  p ← deref v;
  match p with
  | Some c => log (EvFree v (Some c))
  | None => mret tt
  end.

(** [secure_memzero(b, len)] with [len] the size of the whole buffer, as at
    every call in the samples. *)
Definition secure_memzero (v : Var) : M unit :=
  p ← deref v;
  match p with
  | Some c => assign v (Some (repeat x00 (length c)));; log (EvMemzero v)
  | None => mret tt
  end.

(** ** [save_data] and [load_data] ([xmss/sign/main.c]; the text of
    [save_data] in [hss/sign/main.c] is the same) *)

Definition save_data (fname : string) (data : bytes) : M unit :=
  fp ← fopen fname wb;
  match fp with
  | None => fail EBADVALUE
  | Some fp =>
      fp ← fwrite data fp;
      if ferror fp then
        fclose fp;; fail EBADVALUE
      else
        fclose fp;; mret tt
  end.

Definition load_data (fname : string) (data : Var) : M unit :=
  fp ← fopen fname rb;
  match fp with
  | None => fail EBADVALUE
  | Some fp =>
      tmp_size ← ftell_end fp;
      if Nat.eqb tmp_size 0 then
        assign data None;; fclose fp;; mret tt
      else
        t ← calloc tmp_size;
        match t with
        | None => fclose fp;; fail EBADVALUE
        | Some _ =>
            r ← fread tmp_size fp;
            assign tmp (Some (snd r));;
            if negb (Nat.eqb (fst r) tmp_size) then
              free tmp;; assign tmp None;; fclose fp;; fail EBADVALUE
            else
              assign tmp None;; assign data (Some (snd r));; fclose fp;; mret tt
        end
  end.

(** [load_data] of [hss/sign/main.c]: [*data] and [*data_size] are assigned
    inside [if (tmp_size > 0)], otherwise as above. *)
Definition hss_load_data (fname : string) (data : Var) : M unit :=
  fp ← fopen fname rb;
  match fp with
  | None => fail EBADVALUE
  | Some fp =>
      tmp_size ← ftell_end fp;
      if Nat.ltb 0 tmp_size then
        t ← calloc tmp_size;
        match t with
        | None => fclose fp;; fail EBADVALUE
        | Some _ =>
            r ← fread tmp_size fp;
            assign tmp (Some (snd r));;
            if negb (Nat.eqb (fst r) tmp_size) then
              free tmp;; assign tmp None;; fclose fp;; fail EBADVALUE
            else
              assign tmp None;; assign data (Some (snd r));; fclose fp;; mret tt
        end
      else
        fclose fp;; mret tt
  end.

(** A toolkit call fills a caller's buffer with the bytes it produces: they
    start at the front, and the buffer keeps its size (nothing is written
    past its end, what the bytes do not reach stays).  Nothing reaches a
    NULL buffer, which comes with size 0. *)
Definition overwrite (old new : bytes) : bytes :=
  take (length old) (new ++ drop (length new) old).

Definition fill (v : Var) (content : bytes) : M unit :=
  p ← deref v;
  match p with
  | Some old => assign v (Some (overwrite old content))
  | None => mret tt
  end.

(** A function with an [end:] label: the locals start as NULL, the body runs
    until it is through or jumps, the block after the label runs, and [ret]
    is returned. *)
Definition with_end (body end_block : M unit) (w : World) : iqr_retval * World :=
  let (r, w1) := body (set_mem (fun _ => None) w) in
  (retval_of r, snd (end_block w1)).

(** ** The toolkit *)

(** Modelled from the spec: the headers of the stateful signature schemes
    ([iqr_xmss.h], [iqr_hss.h], [iqr_xmssmt.h]) are not among the sources.
    The operations are the ones the samples call, with what the samples
    pass them; the three schemes have the same ones, so there is one
    interface.  [Variant] stands for what selects the parameters (strategy
    and height, Winternitz parameter, variant).  Out-parameters are
    results; an object a call updates in place ([state]) is returned anew; a
    call that fills a buffer of [n] bytes returns the bytes.
    [next_leaf_index] is the logical field of section 3 of the
    specification; no call of the samples reads it. *)
Class Toolkit : Type := {
  Variant : Type;
  Params : Type;
  PrivateKey : Type;
  State : Type;
  RNG : Type;
  CreateParams : Variant -> res Params;
  ImportPrivateKey : Params -> bytes -> res PrivateKey;
  ImportState : Params -> bytes -> res State;
  GetSignatureCount : State -> res (Z * Z);          (* max_sigs, remaining_sigs *)
  GetSignatureSize : Params -> res nat;
  GetStateSize : Params -> res nat;
  Sign : PrivateKey -> RNG -> bytes -> State -> nat -> res (State * bytes);
  ExportState : State -> nat -> res bytes;
  DetachState : PrivateKey -> State -> Z -> res (State * State);  (* the parent, the detached state *)
  next_leaf_index : State -> Z
}.

(** Modelled from the spec: the verifying side of the toolkit
    ([iqr_xmssmt.h], [iqr_rainbow.h]) is not among the sources.  The
    operations are the ones the verify samples call.  Section 4.1 has
    [verify] pure, with no mutation, so [iqr_XMSSMTVerify] and
    [iqr_RainbowVerify] are a function of the key, the digest or message and
    the signature. *)
Class Verifier : Type := {
  VVariant : Type;
  VParams : Type;
  PublicKey : Type;
  VCreateParams : VVariant -> res VParams;
  ImportPublicKey : VParams -> bytes -> res PublicKey;
  Verify : PublicKey -> bytes -> bytes -> res unit
}.

(** ** [xmss/sign/main.c] *)

(** The block after [end:]; [hss/sign/main.c] has the same. *)
Definition sign_end : M unit :=
  p ← deref priv_raw;
  (if p is Some _ then secure_memzero priv_raw else mret tt);;
  free sig_buf;;
  free priv_raw;;
  free state_raw.

Section XMSS_sign.
Context {XMSS : Toolkit}.

Definition xmss_sign_body (rng : RNG) (variant : Variant) (digest : bytes)
    (priv_file state_file sig_file : string) : M unit :=
  params ← call "iqr_XMSSCreateParams" (CreateParams variant);
  (* Load the raw private key. *)
  load_data priv_file priv_raw;;
  (* Load the private key state. *)
  load_data state_file state_raw;;
  p ← deref priv_raw;
  priv ← call "iqr_XMSSImportPrivateKey" (ImportPrivateKey params (buf p));
  s ← deref state_raw;
  state ← call "iqr_XMSSImportState" (ImportState params (buf s));
  c ← call "iqr_XMSSGetSignatureCount" (GetSignatureCount state);
  if (snd c =? 0)%Z then fail ESTATEDEPLETED else
  (* Determine the size of the resulting signature and allocate memory. *)
  sig_size ← call "iqr_XMSSGetSignatureSize" (GetSignatureSize params);
  b ← calloc sig_size;
  assign sig_buf b;;
  match b with
  | None => fail ENOMEM
  | Some _ =>
      r ← call "iqr_XMSSSign" (Sign priv rng digest state sig_size);
      fill sig_buf (snd r);;
      (* IMPORTANT: Save the state to disk prior to saving the signature. *)
      e ← call "iqr_XMSSExportState" (ExportState (fst r) (length (buf s)));
      fill state_raw e;;
      (* Save the updated state. *)
      s' ← deref state_raw;
      save_data state_file (buf s');;
      (* And finally, write the signature to disk. *)
      g ← deref sig_buf;
      save_data sig_file (buf g);;
      _ ← call "iqr_XMSSGetSignatureCount" (GetSignatureCount (fst r));
      mret tt
  end.

Definition showcase_xmss_sign (rng : RNG) (variant : Variant) (digest : bytes)
    (priv_file state_file sig_file : string) : World -> iqr_retval * World :=
  with_end (xmss_sign_body rng variant digest priv_file state_file sig_file) sign_end.
End XMSS_sign.

(** ** [hss/sign/main.c] *)

Section HSS_sign.
Context {HSS : Toolkit}.

Definition hss_sign_body (rng : RNG) (variant : Variant) (digest : bytes)
    (priv_file state_file sig_file : string) : M unit :=
  params ← call "iqr_HSSCreateParams" (CreateParams variant);
  hss_load_data priv_file priv_raw;;
  hss_load_data state_file state_raw;;
  p ← deref priv_raw;
  priv ← call "iqr_HSSImportPrivateKey" (ImportPrivateKey params (buf p));
  s ← deref state_raw;
  state ← call "iqr_HSSImportState" (ImportState params (buf s));
  (* Determine the size of the resulting signature and allocate memory. *)
  sig_size ← call "iqr_HSSGetSignatureSize" (GetSignatureSize params);
  b ← calloc sig_size;
  assign sig_buf b;;
  match b with
  | None => fail ENOMEM
  | Some _ =>
      r ← call "iqr_HSSSign" (Sign priv rng digest state sig_size);
      fill sig_buf (snd r);;
      (* IMPORTANT: Save the state to disk prior to saving the signature. *)
      e ← call "iqr_HSSExportState" (ExportState (fst r) (length (buf s)));
      fill state_raw e;;
      s' ← deref state_raw;
      save_data state_file (buf s');;
      g ← deref sig_buf;
      save_data sig_file (buf g);;
      _ ← call "iqr_HSSGetSignatureCount" (GetSignatureCount (fst r));
      mret tt
  end.

Definition showcase_hss_sign (rng : RNG) (variant : Variant) (digest : bytes)
    (priv_file state_file sig_file : string) : World -> iqr_retval * World :=
  with_end (hss_sign_body rng variant digest priv_file state_file sig_file) sign_end.
End HSS_sign.

(** ** [xmss/detach/main.c] and [xmssmt/detach/main.c]

    [isara_samples.h], which gives these two files [load_data], [save_data],
    [secure_memzero] and [paramcmp], is not among the sources; the functions
    are taken to be the ones [xmss/sign/main.c] defines under these names. *)

(** [uint32_t]: a value is kept modulo 2^32. *)
Definition uint32 (z : Z) : Z := (z mod 2 ^ 32)%Z.

Definition detach_end : M unit :=
  p ← deref priv_raw;
  (if p is Some _ then secure_memzero priv_raw else mret tt);;
  free priv_raw;;
  free state_raw;;
  free detached_state_raw.

Section XMSS_detach.
Context {XMSS : Toolkit}.

Definition xmss_detach_body (variant : Variant) (priv_file state_file : string)
    (num_signatures : Z) (detached_state_file : string) : M unit :=
  params ← call "iqr_XMSSCreateParams" (CreateParams variant);
  load_data priv_file priv_raw;;
  load_data state_file state_raw;;
  p ← deref priv_raw;
  priv ← call "iqr_XMSSImportPrivateKey" (ImportPrivateKey params (buf p));
  s ← deref state_raw;
  state ← call "iqr_XMSSImportState" (ImportState params (buf s));
  r ← call "iqr_XMSSDetachState" (DetachState priv state num_signatures);
  _ ← call "iqr_XMSSGetSignatureCount" (GetSignatureCount (fst r));
  _ ← call "iqr_XMSSGetSignatureCount" (GetSignatureCount (snd r));
  (* Export the updated original state. *)
  e ← call "iqr_XMSSExportState" (ExportState (fst r) (length (buf s)));
  fill state_raw e;;
  s' ← deref state_raw;
  save_data state_file (buf s');;
  (* Export the newly detached state. *)
  n ← call "iqr_XMSSGetStateSize" (GetStateSize params);
  b ← calloc n;
  assign detached_state_raw b;;
  match b with
  | None => fail ENOMEM
  | Some _ =>
      e ← call "iqr_XMSSExportState" (ExportState (snd r) (length (buf s)));
      fill state_raw e;;
      s'' ← deref state_raw;
      save_data detached_state_file (buf s'')
  end.

Definition showcase_xmss_detach (variant : Variant) (priv_file state_file : string)
    (num_signatures : Z) (detached_state_file : string) : World -> iqr_retval * World :=
  with_end (xmss_detach_body variant priv_file state_file num_signatures detached_state_file)
           detach_end.
End XMSS_detach.

Section XMSSMT_detach.
Context {XMSSMT : Toolkit}.

(** [iqr_XMSSMTGetSignatureCount(state, &remaining_sigs)] has no
    [max_sigs]. *)
Definition XMSSMTGetSignatureCount (state : State) : res Z :=
  match GetSignatureCount state with
  | Ok c => Ok (snd c)
  | Fail e => Fail e
  end.

Definition xmssmt_detach_body (variant : Variant) (priv_file state_file : string)
    (num_signatures : Z) (detached_state_file : string) : M unit :=
  params ← call "iqr_XMSSMTCreateParams" (CreateParams variant);
  load_data priv_file priv_raw;;
  load_data state_file state_raw;;
  p ← deref priv_raw;
  priv ← call "iqr_XMSSMTImportPrivateKey" (ImportPrivateKey params (buf p));
  s ← deref state_raw;
  state ← call "iqr_XMSSMTImportState" (ImportState params (buf s));
  r ← call "iqr_XMSSMTDetachState" (DetachState priv state num_signatures);
  _ ← call "iqr_XMSSMTGetSignatureCount" (XMSSMTGetSignatureCount (fst r));
  _ ← call "iqr_XMSSMTGetSignatureCount" (XMSSMTGetSignatureCount (snd r));
  (* Export the updated original state. *)
  e ← call "iqr_XMSSMTExportState" (ExportState (fst r) (length (buf s)));
  fill state_raw e;;
  s' ← deref state_raw;
  save_data state_file (buf s');;
  (* Export the newly detached state. *)
  n ← call "iqr_XMSSMTGetStateSize" (GetStateSize params);
  b ← calloc n;
  assign detached_state_raw b;;
  match b with
  | None => fail ENOMEM
  | Some _ =>
      e ← call "iqr_XMSSMTExportState" (ExportState (snd r) (length (buf s)));
      fill state_raw e;;
      s'' ← deref state_raw;
      save_data detached_state_file (buf s'')
  end.

Definition showcase_xmssmt_detach (variant : Variant) (priv_file state_file : string)
    (num_signatures : Z) (detached_state_file : string) : World -> iqr_retval * World :=
  with_end (xmssmt_detach_body variant priv_file state_file num_signatures detached_state_file)
           detach_end.
End XMSSMT_detach.

(** ** [xmssmt/verify/main.c] and [rainbow/verify/main.c] *)

Section XMSSMT_verify.
Context {XMSSMT : Verifier}.

Definition xmssmt_verify_body (variant : VVariant) (digest : bytes)
    (pub_file sig_file : string) : M unit :=
  (* The tree strategy chosen will have no effect on verification. *)
  params ← call "iqr_XMSSMTCreateParams" (VCreateParams variant);
  (* Load the public key and signature from disk. *)
  load_data pub_file pub_raw;;
  load_data sig_file sig_buf;;
  (* Import the public key data and create a public key object. *)
  p ← deref pub_raw;
  pub ← call "iqr_XMSSMTImportPublicKey" (ImportPublicKey params (buf p));
  g ← deref sig_buf;
  call "iqr_XMSSMTVerify" (Verify pub digest (buf g)).

Definition xmssmt_verify_end : M unit :=
  free pub_raw;;
  free sig_buf.

Definition showcase_xmssmt_verify (variant : VVariant) (digest : bytes)
    (pub_file sig_file : string) : World -> iqr_retval * World :=
  with_end (xmssmt_verify_body variant digest pub_file sig_file) xmssmt_verify_end.
End XMSSMT_verify.

Section Rainbow_verify.
Context {Rainbow : Verifier}.

Definition rainbow_verify_body (variant : VVariant)
    (pub_file message_file sig_file : string) : M unit :=
  params ← call "iqr_RainbowCreateParams" (VCreateParams variant);
  (* Load the public key and signature from disk. *)
  load_data pub_file pub_raw;;
  load_data sig_file sig_buf;;
  (* Import the public key data and create a public key object. *)
  p ← deref pub_raw;
  pub ← call "iqr_RainbowImportPublicKey" (ImportPublicKey params (buf p));
  (* Load the message. *)
  load_data message_file message;;
  m ← deref message;
  g ← deref sig_buf;
  call "iqr_RainbowVerify" (Verify pub (buf m) (buf g)).

Definition rainbow_verify_end : M unit :=
  free message;;
  free pub_raw;;
  free sig_buf.

Definition showcase_rainbow_verify (variant : VVariant)
    (pub_file message_file sig_file : string) : World -> iqr_retval * World :=
  with_end (rainbow_verify_body variant pub_file message_file sig_file) rainbow_verify_end.
End Rainbow_verify.

(** ** The command line of the detach samples *)

(** *** The C library: [strnlen], [strncmp], [strtoull] *)

Definition strnlen (s : string) (maxlen : nat) : nat := Nat.min (String.length s) maxlen.

(** The sign of the difference at the first position where the strings
    differ within [n] characters. *)
Fixpoint strncmp (s1 s2 : string) (n : nat) : Z :=
  match n with
  | O => 0
  | S n' =>
      match s1, s2 with
      | EmptyString, EmptyString => 0
      | EmptyString, String _ _ => -1
      | String _ _, EmptyString => 1
      | String a s1', String b s2' =>
          if Nat.eqb (nat_of_ascii a) (nat_of_ascii b) then strncmp s1' s2' n'
          else if Nat.ltb (nat_of_ascii a) (nat_of_ascii b) then -1 else 1
      end
  end%Z.

Definition ULLONG_MAX : Z := 2 ^ 64 - 1.
Definition ERANGE : Z := 34.

Definition isspace (c : ascii) : bool :=
  let n := nat_of_ascii c in Nat.eqb n 32 || (Nat.leb 9 n && Nat.leb n 13).

Definition isdigit (c : ascii) : bool :=
  let n := nat_of_ascii c in Nat.leb 48 n && Nat.leb n 57.

Fixpoint skip_spaces (s : string) : string :=
  match s with
  | String c s' => if isspace c then skip_spaces s' else s
  | EmptyString => s
  end.

(** The longest prefix of decimal digits: how many there are, their value
    on top of [acc], and what follows them. *)
Fixpoint scan_digits (s : string) (count : nat) (acc : Z) : nat * Z * string :=
  match s with
  | String c s' =>
      if isdigit c then
        scan_digits s' (S count) (acc * 10 + Z.of_nat (nat_of_ascii c - 48))
      else (count, acc, s)
  | EmptyString => (count, acc, s)
  end.

(** What [strtoull(nptr, &end, 10)] leaves: the value, the text at [end],
    whether [end == nptr], and [errno]. *)
Record strtoull_result : Type := mkStrtoull {
  val : Z;
  at_end : string;
  end_is_nptr : bool;
  errno_after : Z
}.

(** White space, an optional sign, decimal digits.  Without digits nothing
    is converted and [end] is [nptr]; a value out of range is [ULLONG_MAX]
    with [errno] set to [ERANGE]; a minus sign negates in the unsigned
    type. *)
Definition strtoull (nptr : string) (errno : Z) : strtoull_result :=
  let s := skip_spaces nptr in
  let '(neg, s) :=
    match s with
    | String "-" s' => (true, s')
    | String "+" s' => (false, s')
    | _ => (false, s)
    end in
  let '(count, v, rest) := scan_digits s 0 0 in
  if Nat.eqb count 0 then mkStrtoull 0 nptr true errno
  else if (ULLONG_MAX <? v)%Z then mkStrtoull ULLONG_MAX rest false ERANGE
  else mkStrtoull (if neg then (- v) mod 2 ^ 64 else v)%Z rest false errno.

(** *** [paramcmp] ([xmss/sign/main.c]) *)

Definition paramcmp (p1 p2 : string) : Z :=
  let max_param_size := 32 in
  if negb (Nat.eqb (strnlen p1 max_param_size) (strnlen p2 max_param_size)) then 1%Z
  else strncmp p1 p2 max_param_size.

(** *** [parse_commandline] of [xmss/detach/main.c] *)

Inductive iqr_XMSSHeight : Type :=
| IQR_XMSS_HEIGHT_10 | IQR_XMSS_HEIGHT_16 | IQR_XMSS_HEIGHT_20.

Inductive iqr_XMSSTreeStrategy : Type :=
| IQR_XMSS_CPU_CONSTRAINED_STRATEGY
| IQR_XMSS_MEMORY_CONSTRAINED_STRATEGY
| IQR_XMSS_FULL_TREE_STRATEGY.

(** What the out-parameters of [parse_commandline] point to. *)
Record xmss_detach_args : Type := mkXmssDetachArgs {
  xd_priv : string;
  xd_state : string;
  xd_height : iqr_XMSSHeight;
  xd_strategy : iqr_XMSSTreeStrategy;
  xd_num_signatures : Z;
  xd_detached_state : string
}.

(** The defaults of [main]. *)
Definition xmss_detach_defaults : xmss_detach_args :=
  mkXmssDetachArgs "priv.key" "priv.state" IQR_XMSS_HEIGHT_10 IQR_XMSS_FULL_TREE_STRATEGY 1
                   "detached.state".

(** The [[--num-sigs <number>]] branch, the same in both parsers: the
    value for [*num_signatures], or the failure. *)
Definition num_sigs_option (arg : string) (errno : Z) : res Z * Z :=
  let r := strtoull arg errno in
  if end_is_nptr r || negb (String.eqb (at_end r) "")
     || ((val r =? ULLONG_MAX)%Z && (errno_after r =? ERANGE)%Z)
  then (Fail EBADVALUE, errno_after r)
  else (Ok (uint32 (val r)), errno_after r).

(** The loop [while (i != argc)], on [argv] from [argv[i]] on.  An
    argument that is no known option is stepped over alone. *)
Fixpoint xmss_detach_parse_loop (argv : list string) (errno : Z) (a : xmss_detach_args)
    : res xmss_detach_args :=
  match argv with
  | [] => Ok a
  | opt :: argv1 =>
      match argv1 with
      | [] => Fail EBADVALUE                        (* i + 2 > argc *)
      | arg :: argv2 =>
          if (paramcmp opt "--priv" =? 0)%Z then
            xmss_detach_parse_loop argv2 errno
              (mkXmssDetachArgs arg (xd_state a) (xd_height a) (xd_strategy a)
                 (xd_num_signatures a) (xd_detached_state a))
          else if (paramcmp opt "--state" =? 0)%Z then
            xmss_detach_parse_loop argv2 errno
              (mkXmssDetachArgs (xd_priv a) arg (xd_height a) (xd_strategy a)
                 (xd_num_signatures a) (xd_detached_state a))
          else if (paramcmp opt "--detached-state" =? 0)%Z then
            xmss_detach_parse_loop argv2 errno
              (mkXmssDetachArgs (xd_priv a) (xd_state a) (xd_height a) (xd_strategy a)
                 (xd_num_signatures a) arg)
          else if (paramcmp opt "--height" =? 0)%Z then
            let continue h :=
              xmss_detach_parse_loop argv2 errno
                (mkXmssDetachArgs (xd_priv a) (xd_state a) h (xd_strategy a)
                   (xd_num_signatures a) (xd_detached_state a)) in
            if (paramcmp arg "10" =? 0)%Z then continue IQR_XMSS_HEIGHT_10
            else if (paramcmp arg "16" =? 0)%Z then continue IQR_XMSS_HEIGHT_16
            else if (paramcmp arg "20" =? 0)%Z then continue IQR_XMSS_HEIGHT_20
            else Fail EBADVALUE
          else if (paramcmp opt "--strategy" =? 0)%Z then
            let continue s :=
              xmss_detach_parse_loop argv2 errno
                (mkXmssDetachArgs (xd_priv a) (xd_state a) (xd_height a) s
                   (xd_num_signatures a) (xd_detached_state a)) in
            if (paramcmp arg "cpu" =? 0)%Z then continue IQR_XMSS_CPU_CONSTRAINED_STRATEGY
            else if (paramcmp arg "memory" =? 0)%Z then continue IQR_XMSS_MEMORY_CONSTRAINED_STRATEGY
            else if (paramcmp arg "full" =? 0)%Z then continue IQR_XMSS_FULL_TREE_STRATEGY
            else Fail EBADVALUE
          else if (paramcmp opt "--num-sigs" =? 0)%Z then
            match num_sigs_option arg errno with
            | (Ok n, errno') =>
                xmss_detach_parse_loop argv2 errno'
                  (mkXmssDetachArgs (xd_priv a) (xd_state a) (xd_height a) (xd_strategy a)
                     n (xd_detached_state a))
            | (Fail e, _) => Fail e
            end
          else
            xmss_detach_parse_loop argv1 errno a
      end
  end.

(** [parse_commandline(argc, argv, ...)]: [i] starts at 1, behind the
    program's name. *)
Definition xmss_detach_parse_commandline (argv : list string) (errno : Z)
    (a : xmss_detach_args) : res xmss_detach_args :=
  xmss_detach_parse_loop (tail argv) errno a.

(** *** [parse_commandline] of [xmssmt/detach/main.c] *)

Inductive iqr_XMSSMTVariant : Type :=
| IQR_XMSSMT_20_2 | IQR_XMSSMT_20_4 | IQR_XMSSMT_40_2 | IQR_XMSSMT_40_4
| IQR_XMSSMT_40_8 | IQR_XMSSMT_60_3 | IQR_XMSSMT_60_6 | IQR_XMSSMT_60_12.

Inductive iqr_XMSSMTTreeStrategy : Type :=
| IQR_XMSSMT_CPU_CONSTRAINED_STRATEGY
| IQR_XMSSMT_MEMORY_CONSTRAINED_STRATEGY
| IQR_XMSSMT_FULL_TREE_STRATEGY.

Record xmssmt_detach_args : Type := mkXmssmtDetachArgs {
  xmd_priv : string;
  xmd_state : string;
  xmd_variant : iqr_XMSSMTVariant;
  xmd_strategy : iqr_XMSSMTTreeStrategy;
  xmd_num_signatures : Z;
  xmd_detached_state : string
}.

Definition xmssmt_detach_defaults : xmssmt_detach_args :=
  mkXmssmtDetachArgs "priv.key" "priv.state" IQR_XMSSMT_20_4 IQR_XMSSMT_FULL_TREE_STRATEGY 1
                     "detached.state".

Fixpoint xmssmt_detach_parse_loop (argv : list string) (errno : Z) (a : xmssmt_detach_args)
    : res xmssmt_detach_args :=
  match argv with
  | [] => Ok a
  | opt :: argv1 =>
      match argv1 with
      | [] => Fail EBADVALUE                        (* i + 2 > argc *)
      | arg :: argv2 =>
          if (paramcmp opt "--priv" =? 0)%Z then
            xmssmt_detach_parse_loop argv2 errno
              (mkXmssmtDetachArgs arg (xmd_state a) (xmd_variant a) (xmd_strategy a)
                 (xmd_num_signatures a) (xmd_detached_state a))
          else if (paramcmp opt "--state" =? 0)%Z then
            xmssmt_detach_parse_loop argv2 errno
              (mkXmssmtDetachArgs (xmd_priv a) arg (xmd_variant a) (xmd_strategy a)
                 (xmd_num_signatures a) (xmd_detached_state a))
          else if (paramcmp opt "--detached-state" =? 0)%Z then
            xmssmt_detach_parse_loop argv2 errno
              (mkXmssmtDetachArgs (xmd_priv a) (xmd_state a) (xmd_variant a) (xmd_strategy a)
                 (xmd_num_signatures a) arg)
          else if (paramcmp opt "--variant" =? 0)%Z then
            let continue v :=
              xmssmt_detach_parse_loop argv2 errno
                (mkXmssmtDetachArgs (xmd_priv a) (xmd_state a) v (xmd_strategy a)
                   (xmd_num_signatures a) (xmd_detached_state a)) in
            if (paramcmp arg "20_2" =? 0)%Z then continue IQR_XMSSMT_20_2
            else if (paramcmp arg "20_4" =? 0)%Z then continue IQR_XMSSMT_20_4
            else if (paramcmp arg "40_2" =? 0)%Z then continue IQR_XMSSMT_40_2
            else if (paramcmp arg "40_4" =? 0)%Z then continue IQR_XMSSMT_40_4
            else if (paramcmp arg "40_8" =? 0)%Z then continue IQR_XMSSMT_40_8
            else if (paramcmp arg "60_3" =? 0)%Z then continue IQR_XMSSMT_60_3
            else if (paramcmp arg "60_6" =? 0)%Z then continue IQR_XMSSMT_60_6
            else if (paramcmp arg "60_12" =? 0)%Z then continue IQR_XMSSMT_60_12
            else Fail EBADVALUE
          else if (paramcmp opt "--strategy" =? 0)%Z then
            let continue s :=
              xmssmt_detach_parse_loop argv2 errno
                (mkXmssmtDetachArgs (xmd_priv a) (xmd_state a) (xmd_variant a) s
                   (xmd_num_signatures a) (xmd_detached_state a)) in
            if (paramcmp arg "cpu" =? 0)%Z then continue IQR_XMSSMT_CPU_CONSTRAINED_STRATEGY
            else if (paramcmp arg "memory" =? 0)%Z then continue IQR_XMSSMT_MEMORY_CONSTRAINED_STRATEGY
            else if (paramcmp arg "full" =? 0)%Z then continue IQR_XMSSMT_FULL_TREE_STRATEGY
            else Fail EBADVALUE
          else if (paramcmp opt "--num-sigs" =? 0)%Z then
            match num_sigs_option arg errno with
            | (Ok n, errno') =>
                xmssmt_detach_parse_loop argv2 errno'
                  (mkXmssmtDetachArgs (xmd_priv a) (xmd_state a) (xmd_variant a) (xmd_strategy a)
                     n (xmd_detached_state a))
            | (Fail e, _) => Fail e
            end
          else
            xmssmt_detach_parse_loop argv1 errno a
      end
  end.

Definition xmssmt_detach_parse_commandline (argv : list string) (errno : Z)
    (a : xmssmt_detach_args) : res xmssmt_detach_args :=
  xmssmt_detach_parse_loop (tail argv) errno a.

(** *** [main] of the two detach samples

    The command line is parsed; the toolkit is set up ([init_toolkit]:
    [iqr_CreateContext] and [iqr_HashRegisterCallbacks], whose result is all
    that matters here); the showcase function is called with what the
    parser left in the variables of [main]. *)

Definition EXIT_SUCCESS : Z := 0.
Definition EXIT_FAILURE : Z := 1.

Definition exit_status (x : iqr_retval * World) : Z * World :=
  (match fst x with IQR_OK => EXIT_SUCCESS | IQR_E _ => EXIT_FAILURE end, snd x).

Section Detach_main.
Context {T : Toolkit}.
Variable init_toolkit : res unit.

Definition xmss_detach_main
    (variant_of : iqr_XMSSTreeStrategy -> iqr_XMSSHeight -> Variant)
    (argv : list string) (errno : Z) (w : World) : Z * World :=
  match xmss_detach_parse_commandline argv errno xmss_detach_defaults with
  | Fail _ => (EXIT_FAILURE, w)
  | Ok a =>
      match init_toolkit with
      | Fail _ => (EXIT_FAILURE, w)
      | Ok _ =>
          exit_status
            (showcase_xmss_detach (variant_of (xd_strategy a) (xd_height a))
               (xd_priv a) (xd_state a) (xd_num_signatures a) (xd_detached_state a) w)
      end
  end.

Definition xmssmt_detach_main
    (variant_of : iqr_XMSSMTTreeStrategy -> iqr_XMSSMTVariant -> Variant)
    (argv : list string) (errno : Z) (w : World) : Z * World :=
  match xmssmt_detach_parse_commandline argv errno xmssmt_detach_defaults with
  | Fail _ => (EXIT_FAILURE, w)
  | Ok a =>
      match init_toolkit with
      | Fail _ => (EXIT_FAILURE, w)
      | Ok _ =>
          exit_status
            (showcase_xmssmt_detach (variant_of (xmd_strategy a) (xmd_variant a))
               (xmd_priv a) (xmd_state a) (xmd_num_signatures a) (xmd_detached_state a) w)
      end
  end.
End Detach_main.

(** The value a string of decimal digits denotes. *)
Fixpoint decimal_value (s : string) (acc : Z) : Z :=
  match s with
  | String c s' => decimal_value s' (acc * 10 + Z.of_nat (nat_of_ascii c - 48))
  | EmptyString => acc
  end.

Fixpoint all_digits (s : string) : bool :=
  match s with
  | String c s' => isdigit c && all_digits s'
  | EmptyString => true
  end.

(** ** What the traces are read for *)

(** The events of [save_data]. *)
Definition is_write (e : Event) : bool :=
  match e with
  | EvOpenW _ _ | EvWrite _ _ _ | EvFlush _ _ _ => true
  | _ => false
  end.

Definition writes (evs : list Event) : list Event := List.filter is_write evs.

(** A file after a save: [None] when it is as it was. *)
Definition put (fname : string) (left : option bytes) (f : gmap string bytes)
    : gmap string bytes :=
  match left with
  | Some c => <[fname := c]> f
  | None => f
  end.

(** The write events of one [save_data fname data], whether it returned
    [IQR_OK], and what it left in the file.  [fopen] fails, and the file is
    as it was; [fwrite] reports an error, and the file holds what got
    through; or [save_data] returns [IQR_OK], and the file holds what the
    flush of [fclose] delivered: the data, or what got through of it. *)
Inductive saved (fname : string) (data : bytes)
    : list Event -> bool -> option bytes -> Prop :=
| saved_open_fails :
    saved fname data [EvOpenW fname false] false None
| saved_write_fails k :
    saved fname data [EvOpenW fname true; EvWrite fname (take k data) false]
      false (Some (take k data))
| saved_flush_fails k :
    saved fname data
      [EvOpenW fname true; EvWrite fname [] true; EvFlush fname (take k data) false]
      true (Some (take k data))
| saved_complete :
    saved fname data
      [EvOpenW fname true; EvWrite fname [] true; EvFlush fname data true]
      true (Some data).

(** The write events of a function that saves [data1] to [file1] and then
    [data2] to [file2], leaving at the first failure it is told of: the
    second file is opened only after the stream of the first was closed and
    [save_data] had returned [IQR_OK] for it.  The flag tells whether the
    second [save_data] returned [IQR_OK] too; the last two arguments are
    what the saves left in the two files. *)
Inductive ordered_saves (file1 : string) (data1 : bytes) (file2 : string) (data2 : bytes)
    : list Event -> bool -> option bytes -> option bytes -> Prop :=
| saves_none :
    ordered_saves file1 data1 file2 data2 [] false None None
| saves_first evs1 ok1 left1 :
    saved file1 data1 evs1 ok1 left1 ->
    ordered_saves file1 data1 file2 data2 evs1 false left1 None
| saves_both evs1 left1 evs2 ok2 left2 :
    saved file1 data1 evs1 true left1 ->
    saved file2 data2 evs2 ok2 left2 ->
    ordered_saves file1 data1 file2 data2 (evs1 ++ evs2) ok2 left1 left2.

(** A buffer that holds zeros only. *)
Definition wiped (c : bytes) : Prop := c = repeat x00 (length c).

(** ** The contract of the toolkit *)

(** Modelled from the spec: the stateful primitives of the toolkit
    ([iqr_XMSSSign], [iqr_HSSSign], [iqr_XMSSDetachState],
    [iqr_XMSSMTDetachState]) are not among the sources.  Section 4.1 has
    [sign] fail with [StateDepletedError] if [remaining == 0] prior to the
    call, and [detach_state] fail with [InsufficientCapacityError] if
    [n > remaining]; section 4.4 has a detachment of [n >= 1],
    [n <= remaining] reserve the range from the parent's [next_leaf_index]
    on into a state of its own whose [next_leaf_index] starts at the range's
    lower bound, and advance the parent's [next_leaf_index] by [n]. *)
Record Contract (T : Toolkit) : Prop := mkContract {
  sign_depleted : forall priv rng digest state sig_size max_sigs,
    GetSignatureCount state = Ok (max_sigs, 0%Z) ->
    Sign priv rng digest state sig_size = Fail ESTATEDEPLETED;
  detach_insufficient : forall priv state n max_sigs remaining,
    GetSignatureCount state = Ok (max_sigs, remaining) ->
    (remaining < n)%Z ->
    DetachState priv state n = Fail EINSUFFICIENTCAPACITY;
  detach_reserves : forall priv state n max_sigs remaining,
    GetSignatureCount state = Ok (max_sigs, remaining) ->
    (1 <= n <= remaining)%Z ->
    exists parent detached max_parent max_detached,
      DetachState priv state n = Ok (parent, detached)
      /\ GetSignatureCount parent = Ok (max_parent, (remaining - n)%Z)
      /\ GetSignatureCount detached = Ok (max_detached, n)
      /\ next_leaf_index detached = next_leaf_index state
      /\ next_leaf_index parent = (next_leaf_index state + n)%Z
}.

(** ** A reference toolkit *)

(** Modelled from the spec: an implementation of the interface that keeps
    to the data model of section 3 and to the contract of section 4.1, to
    run the samples on and to show that the contract can be met.  A state is
    a cursor over a range of leaves; its blob is three 64-bit big-endian
    numbers. *)
Module Reference.

Record leaf_state : Type := mkLeafState {
  first_leaf : Z;
  next_leaf : Z;
  total_leaves : Z
}.

Definition remaining (s : leaf_state) : Z :=
  (first_leaf s + total_leaves s - next_leaf s)%Z.

(** Modelled from the spec: a valid state (section 3): the cursor is
    within its range of leaves; and the numbers fit the 64 bits they have
    in the blob. *)
Definition valid (s : leaf_state) : Prop :=
  (0 <= first_leaf s <= next_leaf s)%Z
  /\ (next_leaf s <= first_leaf s + total_leaves s < 2 ^ 64)%Z.

Definition byte_of_Z (z : Z) : byte :=
  default x00 (Byte.of_N (Z.to_N (z mod 256))).

Definition be64 (z : Z) : bytes :=
  map (fun i => byte_of_Z (z / 256 ^ Z.of_nat i)) [7; 6; 5; 4; 3; 2; 1; 0].

Definition Z_of_be (b : bytes) : Z :=
  fold_left (fun acc x => (acc * 256 + Z.of_N (Byte.to_N x))%Z) b 0%Z.

Definition state_size : nat := 24.
Definition signature_size : nat := 8.
Definition private_key_size : nat := 4.

Definition export (s : leaf_state) : bytes :=
  be64 (first_leaf s) ++ be64 (next_leaf s) ++ be64 (total_leaves s).

Definition import (b : bytes) : res leaf_state :=
  if negb (Nat.eqb (length b) state_size) then Fail EIMPORT
  else
    let s := mkLeafState (Z_of_be (take 8 b)) (Z_of_be (take 8 (drop 8 b)))
                         (Z_of_be (drop 16 b)) in
    if (first_leaf s <=? next_leaf s)%Z && (0 <=? remaining s)%Z then Ok s
    else Fail EIMPORT.

(** The tree heights [IQR_XMSS_HEIGHT_10], [_16] and [_20]. *)
Definition create_params (height : nat) : res nat :=
  if Nat.eqb height 10 || Nat.eqb height 16 || Nat.eqb height 20 then Ok height
  else Fail EINVALIDPARAMETER.

Definition import_private_key (params : nat) (b : bytes) : res bytes :=
  if Nat.eqb (length b) private_key_size then Ok b else Fail EIMPORT.

(** Modelled from the spec: [sign] fails with [StateDepletedError] if
    nothing remains, and advances [next_leaf_index] (section 4.1).  The
    signature names the leaf it consumed. *)
Definition sign (priv : bytes) (rng : unit) (digest : bytes) (s : leaf_state)
    (sig_size : nat) : res (leaf_state * bytes) :=
  if (remaining s <=? 0)%Z then Fail ESTATEDEPLETED
  else if negb (Nat.eqb sig_size signature_size) then Fail EINVBUFSIZE
  else Ok (mkLeafState (first_leaf s) (next_leaf s + 1) (total_leaves s),
           be64 (next_leaf s)).

Definition export_state (s : leaf_state) (size : nat) : res bytes :=
  if Nat.eqb size state_size then Ok (export s) else Fail EINVBUFSIZE.

(** Modelled from the spec: [detach(state, n)] needs [n >= 1] and
    [n <= remaining] and fails with [InsufficientCapacityError] otherwise;
    it reserves [n] leaves from [next_leaf_index] on for the detached
    state and advances the parent by [n] (section 4.4). *)
Definition detach_state (priv : bytes) (s : leaf_state) (n : Z)
    : res (leaf_state * leaf_state) :=
  if (1 <=? n)%Z && (n <=? remaining s)%Z then
    Ok (mkLeafState (first_leaf s) (next_leaf s + n) (total_leaves s),
        mkLeafState (next_leaf s) (next_leaf s) n)
  else Fail EINSUFFICIENTCAPACITY.

#[local] Instance toolkit : Toolkit := {|
  Variant := nat;
  Params := nat;
  PrivateKey := bytes;
  State := leaf_state;
  RNG := unit;
  CreateParams := create_params;
  ImportPrivateKey := import_private_key;
  ImportState := fun _ => import;
  GetSignatureCount := fun s => Ok (total_leaves s, remaining s);
  GetSignatureSize := fun _ => Ok signature_size;
  GetStateSize := fun _ => Ok state_size;
  Sign := sign;
  ExportState := export_state;
  DetachState := detach_state;
  next_leaf_index := next_leaf
|}.

(** A verifier to run the verify samples on: it accepts the signature
    that is the key followed by the digest. *)
Definition bytes_eqb (a b : bytes) : bool :=
  Nat.eqb (length a) (length b)
  && forallb (fun xy => Byte.eqb (fst xy) (snd xy)) (combine a b).

Definition verify (pub digest sg : bytes) : res unit :=
  if bytes_eqb sg (pub ++ digest) then Ok tt else Fail ECRYPTOENGINE.

#[local] Instance verifier : Verifier := {|
  VVariant := unit;
  VParams := unit;
  PublicKey := bytes;
  VCreateParams := fun _ => Ok tt;
  ImportPublicKey := fun _ b => if Nat.eqb (length b) 0 then Fail EIMPORT else Ok b;
  Verify := verify
|}.

(** Worlds to run on. *)
Definition key : bytes := repeat x2a private_key_size.

Definition world (state : leaf_state) (faults : list Outcome) : World :=
  mkWorld (<["priv.state" := export state]> (<["priv.key" := key]> ∅))
          (fun _ => None) faults [].

Definition fresh_state : leaf_state := mkLeafState 0 3 8.

(** Scenario B of the specification: 500 signatures remain. *)
Definition scenario_b_state : leaf_state := mkLeafState 0 0 500.
Definition depleted_state : leaf_state := mkLeafState 0 8 8.

(** The environment lets the seven fallible calls before it succeed and
    then fails: the [fopen] of the state file for writing. *)
Definition state_open_fails : list Outcome := repeat Succeeds 7 ++ [Fails 0].

(** ... and the [fwrite] behind it, after three bytes. *)
Definition state_write_fails : list Outcome := repeat Succeeds 8 ++ [Fails 3].

(** ... and the flush of the [fclose] behind that. *)
Definition state_flush_fails : list Outcome := repeat Succeeds 9 ++ [Fails 3].

(** In a detach sample the state file is opened after six fallible
    calls. *)
Definition parent_flush_fails : list Outcome := repeat Succeeds 8 ++ [Fails 3].

Definition verify_world : World :=
  mkWorld (<["sig.dat" := [x01; x02; x03]]> (<["pub.key" := [x01; x02]]> ∅))
          (fun _ => None) [] [].

End Reference.

(** ** Properties of runs *)

Section Run_properties.
Context {T : Toolkit}.

(** A signing run from [w] that ended in [x].  Its write events are
    the save of [blob] to the state file and then the save of [sg] to the
    signature file, in this order, leaving at the first failure
    [save_data] reports; the files are as they were but for what the two
    saves left.  A run that returns [IQR_OK] went through both saves.
    Then [blob] is the state buffer after the export of the state as
    [Sign] advanced it, from the state the state file held and with the
    key the key file held, and [sg] the signature buffer after [Sign]. *)
Definition sign_order (rng : RNG) (variant : Variant) (digest : bytes)
    (priv_file state_file sig_file : string)
    (w : World) (x : iqr_retval * World) : Prop :=
  exists evs blob sg reported left1 left2,
    trace (snd x) = trace w ++ evs
    /\ ordered_saves state_file blob sig_file sg (writes evs) reported left1 left2
    /\ fs (snd x) = put sig_file left2 (put state_file left1 (fs w))
    /\ (fst x = IQR_OK -> reported = true)
    /\ (reported = true ->
        exists params priv state sig_size state' sgn e,
          CreateParams variant = Ok params
          /\ ImportPrivateKey params (buf (fs w !! priv_file)) = Ok priv
          /\ ImportState params (buf (fs w !! state_file)) = Ok state
          /\ GetSignatureSize params = Ok sig_size
          /\ Sign priv rng digest state sig_size = Ok (state', sgn)
          /\ ExportState state' (length (buf (fs w !! state_file))) = Ok e
          /\ blob = overwrite (buf (fs w !! state_file)) e
          /\ sg = overwrite (repeat x00 sig_size) sgn).

(** A detaching run: its write events are the save of [blob] to the
    parent's state file and then the save of [dblob] to the
    detached-state file, in this order; a run that returns [IQR_OK] went
    through both.  Then [blob] is the state buffer after the export of
    the parent as [DetachState] left it, detached from the state the
    state file held, and [dblob] that buffer after the export of the
    detached state on top. *)
Definition detach_order (variant : Variant) (num_signatures : Z)
    (priv_file state_file detached_state_file : string)
    (w : World) (x : iqr_retval * World) : Prop :=
  exists evs blob dblob reported left1 left2,
    trace (snd x) = trace w ++ evs
    /\ ordered_saves state_file blob detached_state_file dblob (writes evs)
         reported left1 left2
    /\ fs (snd x) = put detached_state_file left2 (put state_file left1 (fs w))
    /\ (fst x = IQR_OK -> reported = true)
    /\ (reported = true ->
        exists params priv state parent detached e1 e2,
          CreateParams variant = Ok params
          /\ ImportPrivateKey params (buf (fs w !! priv_file)) = Ok priv
          /\ ImportState params (buf (fs w !! state_file)) = Ok state
          /\ DetachState priv state num_signatures = Ok (parent, detached)
          /\ ExportState parent (length (buf (fs w !! state_file))) = Ok e1
          /\ ExportState detached (length (buf (fs w !! state_file))) = Ok e2
          /\ blob = overwrite (buf (fs w !! state_file)) e1
          /\ dblob = overwrite blob e2).

(** What the claims of persistence ask: a run that returns [IQR_OK] has
    left the advanced state in the state file. *)
Definition state_persisted (state_file : string) (advanced : bytes)
    (x : iqr_retval * World) : Prop :=
  fst x = IQR_OK -> fs (snd x) !! state_file = Some advanced.

(** A signing run whose state write failed in a way [save_data] looks
    for, and what it left.  The first write event of a run is the
    opening of the state file.  When that [fopen] failed: nothing else
    was written, the run returned [IQR_EBADVALUE] and no file changed.
    When the [fwrite] behind it set the error indicator: nothing else was
    written (the signature file was not opened), the run returned
    [IQR_EBADVALUE], and the state file, truncated on opening, holds the
    bytes that got through. *)
Definition failed_state_write (state_file : string) (w : World)
    (x : iqr_retval * World) : Prop :=
  forall evs, trace (snd x) = trace w ++ evs ->
    (forall rest, writes evs = EvOpenW state_file false :: rest ->
     rest = [] /\ fst x = IQR_EBADVALUE /\ fs (snd x) = fs w)
    /\ (forall d rest,
          writes evs = EvOpenW state_file true :: EvWrite state_file d false :: rest ->
          rest = [] /\ fst x = IQR_EBADVALUE
          /\ fs (snd x) = <[state_file := d]> (fs w)).

(** What the claim of an unchanged state blob asks. *)
Definition state_blob_unchanged (state_file : string) (w : World)
    (x : iqr_retval * World) : Prop :=
  fs (snd x) !! state_file = fs w !! state_file.

(** The private key buffer is wiped when it is freed, and the state
    buffer is never wiped. *)
Definition key_wiped (w : World) (x : iqr_retval * World) : Prop :=
  exists evs,
    trace (snd x) = trace w ++ evs
    /\ (forall c, In (EvFree priv_raw (Some c)) evs ->
        wiped c /\ In (EvMemzero priv_raw) evs)
    /\ ~ In (EvMemzero state_raw) evs.

(** The same, event by event. *)
Definition free_of_key_wiped (e : Event) : Prop :=
  match e with
  | EvFree priv_raw (Some c) => wiped c
  | _ => True
  end.

Definition is_free_of_key (e : Event) : bool :=
  match e with
  | EvFree priv_raw (Some _) => true
  | _ => false
  end.

Definition is_memzero_of (v : Var) (e : Event) : bool :=
  match e with
  | EvMemzero v' => Var_eqb v v'
  | _ => false
  end.

(** What the claim of wiping asks of the buffer [v]. *)
Definition wiped_before_free (v : Var) (evs : list Event) : Prop :=
  forall c, In (EvFree v (Some c)) evs -> wiped c.

(** A run that does not touch the files. *)
Definition storage_untouched (w : World) (x : iqr_retval * World) : Prop :=
  fs (snd x) = fs w
  /\ exists evs, trace (snd x) = trace w ++ evs /\ writes evs = [].

(** A run that fails and leaves the files as they were. *)
Definition refused (w : World) (x : iqr_retval * World) : Prop :=
  fst x <> IQR_OK /\ storage_untouched w x.

(** Whether the run invoked a toolkit primitive. *)
Definition called (prim : string) (w : World) (x : iqr_retval * World) : Prop :=
  exists evs, trace (snd x) = trace w ++ evs /\ In (EvCall prim) evs.

Definition never_called (prim : string) (w : World) (x : iqr_retval * World) : Prop :=
  exists evs, trace (snd x) = trace w ++ evs /\ ~ In (EvCall prim) evs.

(** The capacity is queried and the signing primitive is not invoked. *)
Definition refused_before_signing (count_prim sign_prim : string)
    (evs : list Event) : Prop :=
  In (EvCall count_prim) evs /\ ~ In (EvCall sign_prim) evs.
End Run_properties.

(** What a detaching run [x] on the reference toolkit has done, of [n]
    signatures from the state [s] the state file held: it returned
    [IQR_OK]; the state file holds the parent, which continues [n] leaves
    further, and the detached-state file the detached state, [n] leaves
    from the parent's previous [next_leaf_index] on; the signature a
    signing run makes next with the detached state consumes that leaf, and
    the one it makes next with the parent's state file, when the parent has
    signatures left, the first leaf behind the detached range. *)
Definition detach_result (height : nat) (digest : bytes)
    (priv_file state_file detached_state_file sig_file : string)
    (s : Reference.leaf_state) (n : Z) (x : iqr_retval * World) : Prop :=
  let sign_with state_file :=
    showcase_xmss_sign (XMSS := Reference.toolkit) tt height digest
      priv_file state_file sig_file (snd x) in
  fst x = IQR_OK
  /\ fs (snd x) !! state_file
     = Some (Reference.export
               (Reference.mkLeafState (Reference.first_leaf s) (Reference.next_leaf s + n)
                  (Reference.total_leaves s)))
  /\ fs (snd x) !! detached_state_file
     = Some (Reference.export
               (Reference.mkLeafState (Reference.next_leaf s) (Reference.next_leaf s) n))
  /\ (fst (sign_with detached_state_file) = IQR_OK
      /\ fs (snd (sign_with detached_state_file)) !! sig_file
         = Some (Reference.be64 (Reference.next_leaf s)))
  /\ ((n < Reference.remaining s)%Z ->
      fst (sign_with state_file) = IQR_OK
      /\ fs (snd (sign_with state_file)) !! sig_file
         = Some (Reference.be64 (Reference.next_leaf s + n))).

(** A write to a file is atomic for a reader when the file holds the blob
    it held before or the new one. *)
Definition atomic_write (fname : string) (data : bytes) (w w' : World) : Prop :=
  fs w' !! fname = fs w !! fname \/ fs w' !! fname = Some data.

(** What the verify samples return when the environment does not fail: a
    function of the variant, the digest or message, and the files as they
    are. *)
Section Verify_result.
Context {V : Verifier}.

Definition verify_result (variant : VVariant) (msg : option bytes)
    (pub sg : option bytes) : iqr_retval :=
  match VCreateParams variant with
  | Fail e => IQR_E e
  | Ok params =>
      match pub, sg with
      | Some p, Some s =>
          match ImportPublicKey params p with
          | Fail e => IQR_E e
          | Ok key =>
              match msg with
              | Some m => retval_of (Verify key m s)
              | None => IQR_EBADVALUE
              end
          end
      | _, _ => IQR_EBADVALUE
      end
  end.
End Verify_result.


(** ** The command line, [init_toolkit] and [main] of the sign and verify samples *)

(** *** [parse_commandline] of [xmss/sign/main.c] *)

(** The strategies this sample names. *)
Inductive xmss_sign_strategy : Type :=
| IQR_XMSS_FULL_STRATEGY
| IQR_XMSS_BDS_STRATEGY.

Record xmss_sign_args : Type := mkXmssSignArgs {
  xs_sig : string;
  xs_priv : string;
  xs_state : string;
  xs_height : iqr_XMSSHeight;
  xs_strategy : xmss_sign_strategy;
  xs_message : string
}.

(** The defaults of [main]. *)
Definition xmss_sign_defaults : xmss_sign_args :=
  mkXmssSignArgs "sig.dat" "priv.key" "priv.state" IQR_XMSS_HEIGHT_10 IQR_XMSS_FULL_STRATEGY
                 "message.dat".

Fixpoint xmss_sign_parse_loop (argv : list string) (a : xmss_sign_args) : res xmss_sign_args :=
  match argv with
  | [] => Ok a
  | opt :: argv1 =>
      match argv1 with
      | [] => Fail EBADVALUE                        (* i + 2 > argc *)
      | arg :: argv2 =>
          if (paramcmp opt "--sig" =? 0)%Z then
            xmss_sign_parse_loop argv2
              (mkXmssSignArgs arg (xs_priv a) (xs_state a) (xs_height a) (xs_strategy a)
                 (xs_message a))
          else if (paramcmp opt "--priv" =? 0)%Z then
            xmss_sign_parse_loop argv2
              (mkXmssSignArgs (xs_sig a) arg (xs_state a) (xs_height a) (xs_strategy a)
                 (xs_message a))
          else if (paramcmp opt "--state" =? 0)%Z then
            xmss_sign_parse_loop argv2
              (mkXmssSignArgs (xs_sig a) (xs_priv a) arg (xs_height a) (xs_strategy a)
                 (xs_message a))
          else if (paramcmp opt "--height" =? 0)%Z then
            let continue h :=
              xmss_sign_parse_loop argv2
                (mkXmssSignArgs (xs_sig a) (xs_priv a) (xs_state a) h (xs_strategy a)
                   (xs_message a)) in
            if (paramcmp arg "10" =? 0)%Z then continue IQR_XMSS_HEIGHT_10
            else if (paramcmp arg "16" =? 0)%Z then continue IQR_XMSS_HEIGHT_16
            else if (paramcmp arg "20" =? 0)%Z then continue IQR_XMSS_HEIGHT_20
            else Fail EBADVALUE
          else if (paramcmp opt "--message" =? 0)%Z then
            xmss_sign_parse_loop argv2
              (mkXmssSignArgs (xs_sig a) (xs_priv a) (xs_state a) (xs_height a) (xs_strategy a)
                 arg)
          else if (paramcmp opt "--strategy" =? 0)%Z then
            let continue s :=
              xmss_sign_parse_loop argv2
                (mkXmssSignArgs (xs_sig a) (xs_priv a) (xs_state a) (xs_height a) s
                   (xs_message a)) in
            if (paramcmp arg "bds" =? 0)%Z then continue IQR_XMSS_BDS_STRATEGY
            else if (paramcmp arg "full" =? 0)%Z then continue IQR_XMSS_FULL_STRATEGY
            else Fail EBADVALUE
          else
            xmss_sign_parse_loop argv1 a
      end
  end.

Definition xmss_sign_parse_commandline (argv : list string) (a : xmss_sign_args)
    : res xmss_sign_args :=
  xmss_sign_parse_loop (tail argv) a.

(** *** [parse_commandline] of [hss/sign/main.c] *)

Inductive iqr_HSSWinternitz : Type :=
| IQR_HSS_WINTERNITZ_1 | IQR_HSS_WINTERNITZ_2 | IQR_HSS_WINTERNITZ_4 | IQR_HSS_WINTERNITZ_8.

Inductive iqr_HSSHeight : Type :=
| IQR_HSS_HEIGHT_5 | IQR_HSS_HEIGHT_10 | IQR_HSS_HEIGHT_15 | IQR_HSS_HEIGHT_20
| IQR_HSS_HEIGHT_25.

Inductive iqr_HSSTreeStrategy : Type :=
| IQR_HSS_FULL_STRATEGY
| IQR_HSS_BDS_STRATEGY.

Record hss_sign_args : Type := mkHssSignArgs {
  hs_sig : string;
  hs_priv : string;
  hs_state : string;
  hs_w : iqr_HSSWinternitz;
  hs_height : iqr_HSSHeight;
  hs_strategy : iqr_HSSTreeStrategy;
  hs_message : string
}.

Definition hss_sign_defaults : hss_sign_args :=
  mkHssSignArgs "sig.dat" "priv.key" "priv.state" IQR_HSS_WINTERNITZ_4 IQR_HSS_HEIGHT_5
                IQR_HSS_FULL_STRATEGY "message.dat".

Fixpoint hss_sign_parse_loop (argv : list string) (a : hss_sign_args) : res hss_sign_args :=
  match argv with
  | [] => Ok a
  | opt :: argv1 =>
      match argv1 with
      | [] => Fail EBADVALUE                        (* i + 2 > argc *)
      | arg :: argv2 =>
          if (paramcmp opt "--sig" =? 0)%Z then
            hss_sign_parse_loop argv2
              (mkHssSignArgs arg (hs_priv a) (hs_state a) (hs_w a) (hs_height a)
                 (hs_strategy a) (hs_message a))
          else if (paramcmp opt "--priv" =? 0)%Z then
            hss_sign_parse_loop argv2
              (mkHssSignArgs (hs_sig a) arg (hs_state a) (hs_w a) (hs_height a)
                 (hs_strategy a) (hs_message a))
          else if (paramcmp opt "--state" =? 0)%Z then
            hss_sign_parse_loop argv2
              (mkHssSignArgs (hs_sig a) (hs_priv a) arg (hs_w a) (hs_height a)
                 (hs_strategy a) (hs_message a))
          else if (paramcmp opt "--winternitz" =? 0)%Z then
            let continue v :=
              hss_sign_parse_loop argv2
                (mkHssSignArgs (hs_sig a) (hs_priv a) (hs_state a) v (hs_height a)
                   (hs_strategy a) (hs_message a)) in
            if (paramcmp arg "1" =? 0)%Z then continue IQR_HSS_WINTERNITZ_1
            else if (paramcmp arg "2" =? 0)%Z then continue IQR_HSS_WINTERNITZ_2
            else if (paramcmp arg "4" =? 0)%Z then continue IQR_HSS_WINTERNITZ_4
            else if (paramcmp arg "8" =? 0)%Z then continue IQR_HSS_WINTERNITZ_8
            else Fail EBADVALUE
          else if (paramcmp opt "--height" =? 0)%Z then
            let continue h :=
              hss_sign_parse_loop argv2
                (mkHssSignArgs (hs_sig a) (hs_priv a) (hs_state a) (hs_w a) h
                   (hs_strategy a) (hs_message a)) in
            if (paramcmp arg "5" =? 0)%Z then continue IQR_HSS_HEIGHT_5
            else if (paramcmp arg "10" =? 0)%Z then continue IQR_HSS_HEIGHT_10
            else if (paramcmp arg "15" =? 0)%Z then continue IQR_HSS_HEIGHT_15
            else if (paramcmp arg "20" =? 0)%Z then continue IQR_HSS_HEIGHT_20
            else if (paramcmp arg "25" =? 0)%Z then continue IQR_HSS_HEIGHT_25
            else Fail EBADVALUE
          else if (paramcmp opt "--message" =? 0)%Z then
            hss_sign_parse_loop argv2
              (mkHssSignArgs (hs_sig a) (hs_priv a) (hs_state a) (hs_w a) (hs_height a)
                 (hs_strategy a) arg)
          else if (paramcmp opt "--strategy" =? 0)%Z then
            let continue s :=
              hss_sign_parse_loop argv2
                (mkHssSignArgs (hs_sig a) (hs_priv a) (hs_state a) (hs_w a) (hs_height a)
                   s (hs_message a)) in
            if (paramcmp arg "bds" =? 0)%Z then continue IQR_HSS_BDS_STRATEGY
            else if (paramcmp arg "full" =? 0)%Z then continue IQR_HSS_FULL_STRATEGY
            else Fail EBADVALUE
          else
            hss_sign_parse_loop argv1 a
      end
  end.

Definition hss_sign_parse_commandline (argv : list string) (a : hss_sign_args)
    : res hss_sign_args :=
  hss_sign_parse_loop (tail argv) a.

(** *** [parse_commandline] of [xmssmt/verify/main.c] *)

Record xmssmt_verify_args : Type := mkXmssmtVerifyArgs {
  xv_sig : string;
  xv_pub : string;
  xv_variant : iqr_XMSSMTVariant;
  xv_message : string
}.

Definition xmssmt_verify_defaults : xmssmt_verify_args :=
  mkXmssmtVerifyArgs "sig.dat" "pub.key" IQR_XMSSMT_20_4 "message.dat".

Fixpoint xmssmt_verify_parse_loop (argv : list string) (a : xmssmt_verify_args)
    : res xmssmt_verify_args :=
  match argv with
  | [] => Ok a
  | opt :: argv1 =>
      match argv1 with
      | [] => Fail EBADVALUE                        (* i + 2 > argc *)
      | arg :: argv2 =>
          if (paramcmp opt "--sig" =? 0)%Z then
            xmssmt_verify_parse_loop argv2
              (mkXmssmtVerifyArgs arg (xv_pub a) (xv_variant a) (xv_message a))
          else if (paramcmp opt "--pub" =? 0)%Z then
            xmssmt_verify_parse_loop argv2
              (mkXmssmtVerifyArgs (xv_sig a) arg (xv_variant a) (xv_message a))
          else if (paramcmp opt "--variant" =? 0)%Z then
            let continue v :=
              xmssmt_verify_parse_loop argv2
                (mkXmssmtVerifyArgs (xv_sig a) (xv_pub a) v (xv_message a)) in
            if (paramcmp arg "20_2" =? 0)%Z then continue IQR_XMSSMT_20_2
            else if (paramcmp arg "20_4" =? 0)%Z then continue IQR_XMSSMT_20_4
            else if (paramcmp arg "40_2" =? 0)%Z then continue IQR_XMSSMT_40_2
            else if (paramcmp arg "40_4" =? 0)%Z then continue IQR_XMSSMT_40_4
            else if (paramcmp arg "40_8" =? 0)%Z then continue IQR_XMSSMT_40_8
            else if (paramcmp arg "60_3" =? 0)%Z then continue IQR_XMSSMT_60_3
            else if (paramcmp arg "60_6" =? 0)%Z then continue IQR_XMSSMT_60_6
            else if (paramcmp arg "60_12" =? 0)%Z then continue IQR_XMSSMT_60_12
            else Fail EBADVALUE
          else if (paramcmp opt "--message" =? 0)%Z then
            xmssmt_verify_parse_loop argv2
              (mkXmssmtVerifyArgs (xv_sig a) (xv_pub a) (xv_variant a) arg)
          else
            xmssmt_verify_parse_loop argv1 a
      end
  end.

Definition xmssmt_verify_parse_commandline (argv : list string) (a : xmssmt_verify_args)
    : res xmssmt_verify_args :=
  xmssmt_verify_parse_loop (tail argv) a.

(** *** [parse_commandline] of [rainbow/verify/main.c] *)

Inductive iqr_RainbowVariant : Type :=
| IQR_RAINBOW_GF256_68_36_36
| IQR_RAINBOW_GF256_92_48_48.

Record rainbow_verify_args : Type := mkRainbowVerifyArgs {
  rv_variant : iqr_RainbowVariant;
  rv_sig : string;
  rv_pub : string;
  rv_message : string
}.

Definition rainbow_verify_defaults : rainbow_verify_args :=
  mkRainbowVerifyArgs IQR_RAINBOW_GF256_68_36_36 "sig.dat" "pub.key" "message.dat".

Fixpoint rainbow_verify_parse_loop (argv : list string) (a : rainbow_verify_args)
    : res rainbow_verify_args :=
  match argv with
  | [] => Ok a
  | opt :: argv1 =>
      match argv1 with
      | [] => Fail EBADVALUE                        (* i + 2 > argc *)
      | arg :: argv2 =>
          if (paramcmp opt "--security" =? 0)%Z then
            let continue v :=
              rainbow_verify_parse_loop argv2
                (mkRainbowVerifyArgs v (rv_sig a) (rv_pub a) (rv_message a)) in
            if (paramcmp arg "IIIc" =? 0)%Z then continue IQR_RAINBOW_GF256_68_36_36
            else if (paramcmp arg "Vc" =? 0)%Z then continue IQR_RAINBOW_GF256_92_48_48
            else Fail EBADVALUE
          else if (paramcmp opt "--sig" =? 0)%Z then
            rainbow_verify_parse_loop argv2
              (mkRainbowVerifyArgs (rv_variant a) arg (rv_pub a) (rv_message a))
          else if (paramcmp opt "--pub" =? 0)%Z then
            rainbow_verify_parse_loop argv2
              (mkRainbowVerifyArgs (rv_variant a) (rv_sig a) arg (rv_message a))
          else if (paramcmp opt "--message" =? 0)%Z then
            rainbow_verify_parse_loop argv2
              (mkRainbowVerifyArgs (rv_variant a) (rv_sig a) (rv_pub a) arg)
          else
            rainbow_verify_parse_loop argv1 a
      end
  end.

Definition rainbow_verify_parse_commandline (argv : list string) (a : rainbow_verify_args)
    : res rainbow_verify_args :=
  rainbow_verify_parse_loop (tail argv) a.

(** *** The toolkit's context, hashing and random numbers *)

(** [iqr_context.h], [iqr_hash.h] and [iqr_rng.h] are not among the
    sources, and the specification leaves the bootstrap of the toolkit to
    its environment (section 6).  The operations are the ones
    [init_toolkit] and [create_digest] call, with what they pass them; the
    context is left out as everywhere.  [iqr_RNGInitialize] seeds the
    generator in place: it is returned anew. *)
Inductive iqr_HashAlgorithmType : Type :=
| IQR_HASHALGO_SHA2_256
| IQR_HASHALGO_SHA2_384
| IQR_HASHALGO_SHA2_512.

Class Hashing : Type := {
  Hash : Type;
  CreateContext : res unit;
  HashRegisterCallbacks : iqr_HashAlgorithmType -> res unit;
  HashCreate : iqr_HashAlgorithmType -> res Hash;
  HashMessage : Hash -> bytes -> nat -> res bytes
}.

Class RandomSource (RNG : Type) : Type := {
  RNGCreateHMACDRBG : iqr_HashAlgorithmType -> res RNG;
  RNGInitialize : RNG -> bytes -> res RNG
}.

Definition IQR_SHA2_512_DIGEST_SIZE : nat := 64.

(** [ret = f(...); if (ret != IQR_OK) { ...; return ret; }]: the caller
    looks at the failure of [f] and cleans up before it returns. *)
Definition attempt {A} (m : M A) : M (res A) :=
  fun w => (Ok (fst (m w)), snd (m w)).

Section Init_toolkit.
Context {H : Hashing}.

(** [create_digest(ctx, data, data_size, out_digest)]: the digest goes to
  the front of the caller's buffer, which is returned. *)
Definition create_digest (data : bytes) (out_digest : bytes) : M bytes :=
hash ← call "iqr_HashCreate" (HashCreate IQR_HASHALGO_SHA2_512);
d ← call "iqr_HashMessage" (HashMessage hash data IQR_SHA2_512_DIGEST_SIZE);
mret (overwrite out_digest d).

(** The end of the three [init_toolkit] that hash the message: the digest
  buffer is allocated and filled, and [message_raw] is freed on every
  way out.  The buffer [*digest] is the result; it is [main] that frees
  it (after a failure of [create_digest], [init_toolkit] itself, leaving
  NULL behind). *)
Definition digest_of_message : M bytes :=
m ← deref message;
d ← calloc IQR_SHA2_512_DIGEST_SIZE;
match d with
| None => free message;; fail ENOMEM
| Some d =>
    r ← attempt (create_digest (buf m) d);
    match r with
    | Fail e => free message;; fail e
    | Ok digest => free message;; mret digest
    end
end.

(** [init_toolkit] of [xmssmt/verify/main.c]; the local [message_raw] is
  the buffer [message] here. *)
Definition xmssmt_verify_init_toolkit (message_file : string) : M bytes :=
assign message None;;
_ ← call "iqr_CreateContext" CreateContext;
_ ← call "iqr_HashRegisterCallbacks" (HashRegisterCallbacks IQR_HASHALGO_SHA2_256);
_ ← call "iqr_HashRegisterCallbacks" (HashRegisterCallbacks IQR_HASHALGO_SHA2_512);
(* Before we do any work, lets make sure we can load the message file. *)
load_data message_file message;;
digest_of_message.

(** [init_toolkit] of [rainbow/verify/main.c]. *)
Definition rainbow_verify_init_toolkit : M unit :=
_ ← call "iqr_CreateContext" CreateContext;
_ ← call "iqr_HashRegisterCallbacks" (HashRegisterCallbacks IQR_HASHALGO_SHA2_384);
_ ← call "iqr_HashRegisterCallbacks" (HashRegisterCallbacks IQR_HASHALGO_SHA2_512);
mret tt.

Section With_RNG.
Context {RNG : Type} {R : RandomSource RNG}.

(** [init_toolkit] of [xmss/sign/main.c].  [seed] is the bytes of
[time(NULL)]. *)
Definition xmss_sign_init_toolkit (message_file : string) (seed : bytes) : M (RNG * bytes) :=
assign message None;;
_ ← call "iqr_CreateContext" CreateContext;
_ ← call "iqr_HashRegisterCallbacks" (HashRegisterCallbacks IQR_HASHALGO_SHA2_256);
_ ← call "iqr_HashRegisterCallbacks" (HashRegisterCallbacks IQR_HASHALGO_SHA2_512);
rng ← call "iqr_RNGCreateHMACDRBG" (RNGCreateHMACDRBG IQR_HASHALGO_SHA2_256);
rng ← call "iqr_RNGInitialize" (RNGInitialize rng seed);
(* Before we do any more work, lets make sure we can load the message file. *)
load_data message_file message;;
m ← deref message;
if Nat.ltb (length (buf m)) 1 then fail EINVBUFSIZE else
digest ← digest_of_message;
mret (rng, digest).

(** [init_toolkit] of [hss/sign/main.c], with the [load_data] of that
file. *)
Definition hss_sign_init_toolkit (message_file : string) (seed : bytes) : M (RNG * bytes) :=
assign message None;;
_ ← call "iqr_CreateContext" CreateContext;
_ ← call "iqr_HashRegisterCallbacks" (HashRegisterCallbacks IQR_HASHALGO_SHA2_256);
_ ← call "iqr_HashRegisterCallbacks" (HashRegisterCallbacks IQR_HASHALGO_SHA2_512);
rng ← call "iqr_RNGCreateHMACDRBG" (RNGCreateHMACDRBG IQR_HASHALGO_SHA2_256);
rng ← call "iqr_RNGInitialize" (RNGInitialize rng seed);
hss_load_data message_file message;;
m ← deref message;
if Nat.ltb (length (buf m)) 1 then fail EINVBUFSIZE else
digest ← digest_of_message;
mret (rng, digest).
End With_RNG.
End Init_toolkit.

(** *** [main] of the sign and verify samples

    The command line is parsed; [init_toolkit] runs; the showcase function
    is called with what the two left in the variables of [main]; the exit
    status tells whether [ret] is [IQR_OK].  A command line that does not
    parse ends [main] at once. *)

Definition main_from {A} (init : M A) (showcase : A -> World -> iqr_retval * World)
    (w : World) : Z * World :=
  match init w with
  | (Fail _, w1) => (EXIT_FAILURE, w1)
  | (Ok a, w1) => exit_status (showcase a w1)
  end.

Section Sign_main.
Context {T : Toolkit} {H : Hashing} {R : RandomSource RNG}.

Definition xmss_sign_main (variant_of : xmss_sign_strategy -> iqr_XMSSHeight -> Variant)
  (argv : list string) (seed : bytes) (w : World) : Z * World :=
match xmss_sign_parse_commandline argv xmss_sign_defaults with
| Fail _ => (EXIT_FAILURE, w)
| Ok a =>
    main_from (xmss_sign_init_toolkit (xs_message a) seed)
      (fun '(rng, digest) =>
         showcase_xmss_sign rng (variant_of (xs_strategy a) (xs_height a)) digest
           (xs_priv a) (xs_state a) (xs_sig a))
      w
end.

Definition hss_sign_main
  (variant_of : iqr_HSSTreeStrategy -> iqr_HSSWinternitz -> iqr_HSSHeight -> Variant)
  (argv : list string) (seed : bytes) (w : World) : Z * World :=
match hss_sign_parse_commandline argv hss_sign_defaults with
| Fail _ => (EXIT_FAILURE, w)
| Ok a =>
    main_from (hss_sign_init_toolkit (hs_message a) seed)
      (fun '(rng, digest) =>
         showcase_hss_sign rng (variant_of (hs_strategy a) (hs_w a) (hs_height a)) digest
           (hs_priv a) (hs_state a) (hs_sig a))
      w
end.
End Sign_main.

Section Verify_main.
Context {V : Verifier} {H : Hashing}.

Definition xmssmt_verify_main (variant_of : iqr_XMSSMTVariant -> VVariant)
  (argv : list string) (w : World) : Z * World :=
match xmssmt_verify_parse_commandline argv xmssmt_verify_defaults with
| Fail _ => (EXIT_FAILURE, w)
| Ok a =>
    main_from (xmssmt_verify_init_toolkit (xv_message a))
      (fun digest =>
         showcase_xmssmt_verify (variant_of (xv_variant a)) digest (xv_pub a) (xv_sig a))
      w
end.

Definition rainbow_verify_main (variant_of : iqr_RainbowVariant -> VVariant)
  (argv : list string) (w : World) : Z * World :=
match rainbow_verify_parse_commandline argv rainbow_verify_defaults with
| Fail _ => (EXIT_FAILURE, w)
| Ok a =>
    main_from rainbow_verify_init_toolkit
      (fun _ =>
         showcase_rainbow_verify (variant_of (rv_variant a)) (rv_pub a) (rv_message a)
           (rv_sig a))
      w
end.
End Verify_main.

(** ** What the freed buffers are read for *)

(** How often the trace frees the buffer of [v]. *)
Definition is_free_of (v : Var) (e : Event) : bool :=
  match e with
  | EvFree v' _ => Var_eqb v v'
  | _ => false
  end.

Definition free_count (v : Var) (evs : list Event) : nat :=
  length (List.filter (is_free_of v) evs).

(** ** The first characters of a string *)

(** What [strnlen] and [strncmp] look at with the bound [n]. *)
Fixpoint first_chars (n : nat) (s : string) : string :=
  match n, s with
  | S n', String c s' => String c (first_chars n' s')
  | _, _ => EmptyString
  end.

(** ** An environment without faults *)

(** No call of the script fails (and none does once it is through). *)
Definition fault_free (sc : list Outcome) : Prop :=
  Forall (fun o => o = Succeeds) sc.

(** ** Buffers on the way out *)

(** Of a run from [w] that ended in [x]: no buffer is freed twice, and a
    local that is not NULL when the function returns has been freed, with
    the contents it has then. *)
Definition buffers_released (w : World) (x : iqr_retval * World) : Prop :=
  exists evs,
    trace (snd x) = trace w ++ evs
    /\ (forall v, free_count v evs <= 1)
    /\ (forall v c, mem (snd x) v = Some c -> In (EvFree v (Some c)) evs).

(** ** An engine to run [main] on *)

(** The digest is the message, cut or padded with zeros to the size asked
    for; the generator is trivial, as the reference toolkit has it. *)
Module ReferenceEngine.

#[local] Instance hashing : Hashing := {|
Hash := unit;
CreateContext := Ok tt;
HashRegisterCallbacks := fun _ => Ok tt;
HashCreate := fun _ => Ok tt;
HashMessage := fun _ data n => Ok (take n (data ++ repeat x00 n))
|}.

#[local] Instance random : RandomSource unit := {|
RNGCreateHMACDRBG := fun _ => Ok tt;
RNGInitialize := fun _ _ => Ok tt
|}.

(** The files of a signer, with a message of one byte. *)
Definition sign_world (state : Reference.leaf_state) (msg : bytes) : World :=
mkWorld (<["message.dat" := msg]>
           (<["priv.state" := Reference.export state]> (<["priv.key" := Reference.key]> ∅)))
        (fun _ => None) [] [].

(** The files of a verifier: the signature the reference verifier accepts
  for the key [[x01; x02]] and the message [[x07]]. *)
Definition verify_world : World :=
mkWorld (<["message.dat" := [x07]]>
           (<["sig.dat" := [x01; x02; x07] ++ repeat x00 63]>
              (<["pub.key" := [x01; x02]]> ∅)))
        (fun _ => None) [] [].

End ReferenceEngine.

(** ** What [init_toolkit] leaves *)

Section Init_post.
Context {H : Hashing}.

(** The primitives the [init_toolkit] functions call. *)
Definition bootstrap_primitives : list string :=
["iqr_CreateContext"; "iqr_HashRegisterCallbacks"; "iqr_RNGCreateHMACDRBG";
 "iqr_RNGInitialize"; "iqr_HashCreate"; "iqr_HashMessage"].

(** [digest] is the digest buffer after [create_digest] on the contents
  [msg] of the message file. *)
Definition digest_of (fsys : gmap string bytes) (message_file : string) (msg digest : bytes)
  : Prop :=
exists hash d,
  fsys !! message_file = Some msg
  /\ HashCreate IQR_HASHALGO_SHA2_512 = Ok hash
  /\ HashMessage hash msg IQR_SHA2_512_DIGEST_SIZE = Ok d
  /\ digest = overwrite (repeat x00 IQR_SHA2_512_DIGEST_SIZE) d.

(** [init_toolkit] of a sign sample, from [w] to the result [r] and the
  world [w']: the files are as they were; an environment without faults
  is still one; nothing was written; only the bootstrap and hashing
  primitives were called; when it succeeds, the
  generator is the one seeded with [seed], the message file has bytes
  and the digest is theirs; and when the message file is missing or
  empty it fails without a call of [iqr_HashMessage]. *)
Definition sign_init_post {RNG : Type} {R : RandomSource RNG}
  (message_file : string) (seed : bytes) (w : World)
  (r : res (RNG * bytes)) (w' : World) : Prop :=
fs w' = fs w
/\ (script w = [] -> script w' = [])
/\ exists evs,
     trace w' = trace w ++ evs
     /\ writes evs = []
     /\ (forall prim, In (EvCall prim) evs -> In prim bootstrap_primitives)
     /\ (forall rng digest, r = Ok (rng, digest) ->
         exists msg rng0,
           msg <> []
           /\ RNGCreateHMACDRBG IQR_HASHALGO_SHA2_256 = Ok rng0
           /\ RNGInitialize rng0 seed = Ok rng
           /\ digest_of (fs w) message_file msg digest)
     /\ (buf (fs w !! message_file) = [] ->
         (exists e, r = Fail e) /\ ~ In (EvCall "iqr_HashMessage") evs).

(** [init_toolkit] of [xmssmt/verify/main.c]: the same without a
  generator, and an empty message file is hashed as any other. *)
Definition verify_init_post (message_file : string) (w : World)
  (r : res bytes) (w' : World) : Prop :=
fs w' = fs w
/\ exists evs,
     trace w' = trace w ++ evs
     /\ writes evs = []
     /\ (forall prim, In (EvCall prim) evs -> In prim bootstrap_primitives)
     /\ (forall digest, r = Ok digest ->
         exists msg, digest_of (fs w) message_file msg digest).
End Init_post.

(** ** The files a run leaves alone *)

(** Of a run from [w] that ended in [x]: every file but the two the
    function saves to is as it was. *)
Definition others_untouched (file1 file2 : string) (w : World)
    (x : iqr_retval * World) : Prop :=
  forall p, p <> file1 -> p <> file2 -> fs (snd x) !! p = fs w !! p.


(** ** A program logic for the monad *)

(** [wp m Q w]: running [m] from [w] ends in a result and a world that
    satisfy [Q]. *)
Definition wp {A} (m : M A) (Q : res A -> World -> Prop) (w : World) : Prop :=
  Q (fst (m w)) (snd (m w)).

(** What a short [fread] leaves in the buffer. *)
Definition partial_read (k : nat) (c : bytes) : bytes :=
  let n := Nat.min k (length c - 1) in take n c ++ repeat x00 (length c - n).

(** The ways of [load_data] (and of [hss_load_data], which assigns nothing
    for an empty file): the file cannot be opened; it is empty; the buffer
    cannot be had; the read is short; or the buffer holds the file. *)
Definition load_outcomes (empty_assigns : bool) (fname : string) (data : Var)
    (Q : res unit -> World -> Prop) (w : World) : Prop :=
  match hd Succeeds (script w) with
  | Fails _ => Q (Fail EBADVALUE) (set_script (tl (script w)) w)
  | Succeeds =>
      match fs w !! fname with
      | None => Q (Fail EBADVALUE) (set_script (tl (script w)) w)
      | Some [] =>
          Q (Ok tt)
            (mkWorld (fs w) (if empty_assigns then upd data None (mem w) else mem w)
               (tl (script w)) (trace w))
      | Some (b :: c) =>
          match hd Succeeds (tl (script w)) with
          | Fails _ => Q (Fail EBADVALUE) (set_script (tl (tl (script w))) w)
          | Succeeds =>
              match hd Succeeds (tl (tl (script w))) with
              | Fails k =>
                  Q (Fail EBADVALUE)
                    (mkWorld (fs w)
                       (upd tmp None (upd tmp (Some (partial_read k (b :: c))) (mem w)))
                       (tl (tl (tl (script w))))
                       (trace w ++ [EvFree tmp (Some (partial_read k (b :: c)))]))
              | Succeeds =>
                  Q (Ok tt)
                    (mkWorld (fs w)
                       (upd data (Some (b :: c))
                          (upd tmp None (upd tmp (Some (b :: c)) (mem w))))
                       (tl (tl (tl (script w)))) (trace w))
              end
          end
      end
  end.


(** * Proofs *)

(** ** The program logic *)

Lemma wp_bind {A B} (m : M A) (f : A -> M B) Q w :
  wp m (fun r w1 => match r with
                    | Ok a => wp (f a) Q w1
                    | Fail e => Q (Fail e) w1
                    end) w ->
  wp (m ≫= f) Q w.
Proof.
  unfold wp, mbind, M_bind. destruct (m w) as [[a|e] w1]; cbn; auto.
Qed.

Lemma wp_ret {A} (a : A) Q w : Q (Ok a) w -> wp (mret a) Q w.
Proof. auto. Qed.

Lemma wp_fail {A} e (Q : res A -> World -> Prop) w : Q (Fail e) w -> wp (fail e) Q w.
Proof. auto. Qed.

Lemma wp_call {A} prim (r : res A) Q w :
  Q r (log_event (EvCall prim) w) -> wp (call prim r) Q w.
Proof. auto. Qed.

Lemma wp_deref v Q w : Q (Ok (mem w v)) w -> wp (deref v) Q w.
Proof. auto. Qed.

Lemma wp_assign v b Q w :
  Q (Ok tt) (set_mem (upd v b (mem w)) w) -> wp (assign v b) Q w.
Proof. auto. Qed.

Lemma wp_fill v content Q w :
  match mem w v with
  | Some old => Q (Ok tt) (set_mem (upd v (Some (overwrite old content)) (mem w)) w)
  | None => Q (Ok tt) w
  end ->
  wp (fill v content) Q w.
Proof.
  unfold wp, fill, deref, gets, assign, modify, mbind, M_bind. cbn.
  destruct (mem w v); cbn; auto.
Qed.

Lemma wp_calloc n Q w :
  match hd Succeeds (script w) with
  | Succeeds => Q (Ok (Some (repeat x00 n))) (set_script (tl (script w)) w)
  | Fails _ => Q (Ok None) (set_script (tl (script w)) w)
  end ->
  wp (calloc n) Q w.
Proof.
  unfold wp, calloc, pop, mbind, M_bind. cbn.
  destruct (hd Succeeds (script w)); cbn; auto.
Qed.

Lemma wp_free v Q w :
  match mem w v with
  | Some c => Q (Ok tt) (log_event (EvFree v (Some c)) w)
  | None => Q (Ok tt) w
  end ->
  wp (free v) Q w.
Proof.
  unfold wp, free, deref, gets, log, modify, mbind, M_bind. cbn.
  destruct (mem w v); cbn; auto.
Qed.

Lemma wp_secure_memzero v Q w :
  match mem w v with
  | Some c => Q (Ok tt) (log_event (EvMemzero v)
                           (set_mem (upd v (Some (repeat x00 (length c))) (mem w)) w))
  | None => Q (Ok tt) w
  end ->
  wp (secure_memzero v) Q w.
Proof.
  unfold wp, secure_memzero, deref, gets, assign, log, modify, mbind, M_bind. cbn.
  destruct (mem w v); cbn; auto.
Qed.

(** The ways of [save_data]: [fopen] fails and nothing changes; [fwrite]
    reports an error and the file holds what got through; or [save_data]
    returns [IQR_OK] and the file holds what the flush of [fclose]
    delivered, the data or what got through of it. *)
Lemma wp_save_data fname data Q w :
  match hd Succeeds (script w) with
  | Fails _ =>
      Q (Fail EBADVALUE)
        (mkWorld (fs w) (mem w) (tl (script w)) (trace w ++ [EvOpenW fname false]))
  | Succeeds =>
      match hd Succeeds (tl (script w)) with
      | Fails k =>
          Q (Fail EBADVALUE)
            (mkWorld (<[fname := take k data]> (fs w)) (mem w) (tl (tl (script w)))
               (trace w ++ [EvOpenW fname true; EvWrite fname (take k data) false]))
      | Succeeds =>
          match hd Succeeds (tl (tl (script w))) with
          | Fails k =>
              Q (Ok tt)
                (mkWorld (<[fname := take k data]> (fs w)) (mem w)
                   (tl (tl (tl (script w))))
                   (trace w ++ [EvOpenW fname true; EvWrite fname [] true;
                                EvFlush fname (take k data) false]))
          | Succeeds =>
              Q (Ok tt)
                (mkWorld (<[fname := data]> (fs w)) (mem w) (tl (tl (tl (script w))))
                   (trace w ++ [EvOpenW fname true; EvWrite fname [] true;
                                EvFlush fname data true]))
          end
      end
  end ->
  wp (save_data fname data) Q w.
Proof.
  destruct w as [f m sc tr].
  unfold wp, save_data, fopen, fwrite, ferror, fclose, append_to, pop, fail, log, gets,
    modify, mbind, M_bind, mret, M_ret.
  cbn.
  destruct (hd Succeeds sc) eqn:E1; cbn.
  - destruct (hd Succeeds (tl sc)) eqn:E2; cbn.
    + destruct (hd Succeeds (tl (tl sc))) eqn:E3; cbn;
        rewrite lookup_insert_eq; unfold log_event, set_fs, set_script; cbn;
        rewrite insert_insert_eq, <- !app_assoc; cbn; auto.
    + rewrite lookup_insert_eq; unfold log_event, set_fs, set_script; cbn;
        rewrite insert_insert_eq, <- app_assoc; cbn; auto.
  - unfold log_event, set_script; cbn. auto.
Qed.

Lemma wp_load_data fname data Q w :
  load_outcomes true fname data Q w -> wp (load_data fname data) Q w.
Proof.
  destruct w as [f m sc tr].
  unfold load_outcomes, partial_read, wp, load_data, fopen, fread, calloc, ftell_end, fclose,
    free, deref, assign, pop, fail, log, gets, modify, mbind, M_bind, mret, M_ret,
    log_event, set_script, set_mem.
  cbn.
  destruct (hd Succeeds sc) eqn:E1; cbn; [|auto].
  destruct (f !! fname) as [c|] eqn:Ef; cbn; rewrite ?Ef; cbn; [|auto].
  destruct c as [|b c]; cbn; [auto|].
  destruct (hd Succeeds (tl sc)) eqn:E2; cbn; [|auto].
  rewrite ?Ef; cbn.
  destruct (hd Succeeds (tl (tl sc))) eqn:E3; cbn.
  - rewrite Nat.eqb_refl. cbn. rewrite firstn_all. auto.
  - replace (Nat.eqb (Nat.min k (length c - 0)) (S (length c))) with false
      by (symmetry; apply Nat.eqb_neq; lia).
    cbn. auto.
Qed.

Lemma wp_hss_load_data fname data Q w :
  load_outcomes false fname data Q w -> wp (hss_load_data fname data) Q w.
Proof.
  destruct w as [f m sc tr].
  unfold load_outcomes, partial_read, wp, hss_load_data, fopen, fread, calloc, ftell_end,
    fclose, free, deref, assign, pop, fail, log, gets, modify, mbind, M_bind, mret, M_ret,
    log_event, set_script, set_mem.
  cbn.
  destruct (hd Succeeds sc) eqn:E1; cbn; [|auto].
  destruct (f !! fname) as [c|] eqn:Ef; cbn; rewrite ?Ef; cbn; [|auto].
  destruct c as [|b c]; cbn; [auto|].
  destruct (hd Succeeds (tl sc)) eqn:E2; cbn; [|auto].
  rewrite ?Ef; cbn.
  destruct (hd Succeeds (tl (tl sc))) eqn:E3; cbn.
  - rewrite Nat.eqb_refl. cbn. rewrite firstn_all. auto.
  - replace (Nat.eqb (Nat.min k (length c - 0)) (S (length c))) with false
      by (symmetry; apply Nat.eqb_neq; lia).
    cbn. auto.
Qed.

(** A function with an [end:] label. *)
Lemma wp_with_end body end_block (P : iqr_retval * World -> Prop) w :
  wp body (fun r w1 => wp end_block (fun _ w2 => P (retval_of r, w2)) w1)
     (set_mem (fun _ => None) w) ->
  P (with_end body end_block w).
Proof.
  unfold wp, with_end. destruct (body _) as [r w1]. cbn. auto.
Qed.

(** Stepping through a program: one rule per construct, a case split where
    the program looks at the toolkit, the script or a file (unless a
    hypothesis tells the answer). *)
Ltac wp_simpl :=
  cbv beta iota;
  cbn [fs mem script trace log_event set_fs set_mem set_script upd Var_eqb
       f_path f_err fst snd buf default from_option id retval_of hd tl Z.eqb].

Ltac wp_case x :=
  first
    [ match goal with H : x = _ |- _ => rewrite H end
    | destruct x eqn:? ].

Ltac wp_step :=
  lazymatch goal with
  | |- wp (_ ≫= _) _ _ => apply wp_bind
  | |- wp (mret _) _ _ => apply wp_ret
  | |- wp (fail _) _ _ => apply wp_fail
  | |- wp (call _ _) _ _ => apply wp_call
  | |- wp (deref _) _ _ => apply wp_deref
  | |- wp (assign _ _) _ _ => apply wp_assign
  | |- wp (fill _ _) _ _ => apply wp_fill
  | |- wp (calloc _) _ _ => apply wp_calloc
  | |- wp (free _) _ _ => apply wp_free
  | |- wp (secure_memzero _) _ _ => apply wp_secure_memzero
  | |- wp (load_data _ _) _ _ => apply wp_load_data; unfold load_outcomes
  | |- wp (hss_load_data _ _) _ _ => apply wp_hss_load_data; unfold load_outcomes
  | |- wp (save_data _ _) _ _ => apply wp_save_data
  | |- wp (match ?x with _ => _ end) _ _ => wp_case x
  | |- match ?x with _ => _ end => wp_case x
  end;
  wp_simpl.

Ltac wp_run := repeat wp_step.

Ltac wp_showcase :=
  unfold showcase_xmss_sign, showcase_hss_sign, showcase_xmss_detach,
    showcase_xmssmt_detach, showcase_xmssmt_verify, showcase_rainbow_verify;
  apply wp_with_end;
  unfold xmss_sign_body, hss_sign_body, xmss_detach_body, xmssmt_detach_body,
    xmssmt_verify_body, rainbow_verify_body, sign_end, detach_end,
    xmssmt_verify_end, rainbow_verify_end;
  wp_run.

Ltac flatten_trace := repeat rewrite <- app_assoc; cbn [app].

Ltac use_lookups :=
  repeat match goal with
  | H : ?f !! ?p = _ |- context [?f !! ?p] => rewrite H
  end.

Ltac split_pairs :=
  repeat match goal with
  | p : _ * _ |- _ => destruct p
  end; cbn [fst snd] in *.


Ltac split_all := repeat match goal with |- _ /\ _ => split end.

Ltac in_list := cbn [In]; repeat (first [left; reflexivity | right]).

Ltac not_in :=
  let Hin := fresh "Hin" in
  cbn [In]; intros Hin;
  repeat (destruct Hin as [Hin|Hin]; [discriminate Hin|]); contradiction.


(** ** The ways through the stateful samples *)

(** *** The order of the writes *)

Ltac saves_shape :=
  cbn [writes List.filter is_write];
  first
    [ apply saves_none
    | eapply saves_first; econstructor
    | eapply (saves_both _ _ _ _ [_; _; _]); econstructor ].

Ltac order_leaf :=
  wp_simpl; flatten_trace;
  eexists _, _, _, _, _, _; split; [reflexivity|];
  split; [saves_shape|];
  split; [cbn [put]; reflexivity|];
  split; [intros; first [discriminate | reflexivity]|];
  intros; try discriminate;
  use_lookups; split_pairs; cbn [buf default from_option id length];
  eexists _, _, _, _, _, _, _; split_all; try eassumption; try reflexivity.


(** *** A failed state write *)

Ltac flatten_trace_in H := repeat rewrite <- app_assoc in H; cbn [app] in H.

Ltac failed_write_leaf :=
  unfold failed_state_write; wp_simpl;
  let evs := fresh "evs" in
  let Htr := fresh "Htr" in
  intros evs Htr; flatten_trace_in Htr; apply app_inv_head in Htr; subst evs;
  cbn [writes List.filter is_write];
  split;
  [ let rest := fresh "rest" in
    let Hw := fresh "Hw" in
    intros rest Hw;
    first [discriminate Hw | injection Hw; intros; subst; split_all; reflexivity]
  | let d := fresh "d" in
    let rest := fresh "rest" in
    let Hw := fresh "Hw" in
    intros d rest Hw;
    first [discriminate Hw | injection Hw; intros; subst; split_all; reflexivity] ].

(** *** Wiping *)

Lemma wiped_repeat n : wiped (repeat x00 n).
Proof. unfold wiped. now rewrite repeat_length. Qed.

Lemma Var_eqb_eq a b : Var_eqb a b = true -> a = b.
Proof. destruct a, b; simpl; congruence. Qed.

Lemma is_memzero_of_In v evs :
  existsb (is_memzero_of v) evs = true -> In (EvMemzero v) evs.
Proof.
  intros H. apply existsb_exists in H as (e & Hin & He).
  destruct e; try discriminate. apply Var_eqb_eq in He. now subst.
Qed.

Lemma not_memzero_of_In v evs :
  existsb (is_memzero_of v) evs = false -> ~ In (EvMemzero v) evs.
Proof.
  intros H Hin. assert (existsb (is_memzero_of v) evs = true); [|congruence].
  apply existsb_exists. exists (EvMemzero v). split; [assumption|].
  simpl. now destruct v.
Qed.

(** The events of a run, checked one by one. *)
Lemma key_wiped_by_events w x evs :
  trace (snd x) = trace w ++ evs ->
  Forall free_of_key_wiped evs ->
  implb (existsb is_free_of_key evs) (existsb (is_memzero_of priv_raw) evs) = true ->
  existsb (is_memzero_of state_raw) evs = false ->
  key_wiped w x.
Proof.
  intros Htr Hall Himp Hstate. exists evs. split; [assumption|]. split.
  - intros c Hin. split.
    + rewrite List.Forall_forall in Hall. apply (Hall _ Hin).
    + apply is_memzero_of_In.
      destruct (existsb is_free_of_key evs) eqn:E; [exact Himp|].
      assert (existsb is_free_of_key evs = true); [|congruence].
      apply existsb_exists. eexists. split; [exact Hin|reflexivity].
  - now apply not_memzero_of_In.
Qed.

Ltac key_wiped_leaf :=
  eapply key_wiped_by_events;
  [ wp_simpl; flatten_trace; reflexivity
  | repeat (constructor; [first [exact I | apply wiped_repeat]|]); constructor
  | reflexivity
  | reflexivity ].

(** *** Buffers on the way out *)

Ltac released_leaf :=
  unfold buffers_released; wp_simpl; flatten_trace;
  eexists; split; [reflexivity|]; split;
  [ let v := fresh "v" in
    intros v; destruct v; cbn [free_count List.filter is_free_of Var_eqb length]; lia
  | let v := fresh "v" in
    let c := fresh "c" in
    let Hm := fresh "Hm" in
    intros v c; destruct v; wp_simpl; intros Hm;
    first [discriminate Hm | injection Hm as <-; in_list] ].

(** *** One pass through each sample *)

Ltac sign_ways_leaf :=
  wp_simpl;
  split; [unfold sign_order; order_leaf|];
  split; [failed_write_leaf|];
  split; [key_wiped_leaf | released_leaf].

Ltac detach_ways_leaf :=
  wp_simpl;
  split; [unfold detach_order; order_leaf|];
  split; [key_wiped_leaf | released_leaf].

Section Ways.
Context {T : Toolkit}.

Lemma xmss_sign_ways rng variant digest priv_file state_file sig_file w :
  let x := showcase_xmss_sign rng variant digest priv_file state_file sig_file w in
  sign_order rng variant digest priv_file state_file sig_file w x
  /\ failed_state_write state_file w x
  /\ key_wiped w x
  /\ buffers_released w x.
Proof.
  destruct w as [f m sc tr]. cbv zeta. wp_showcase.
  all: sign_ways_leaf.
  Unshelve. all: exact [].
Qed.

Lemma hss_sign_ways rng variant digest priv_file state_file sig_file w :
  let x := showcase_hss_sign rng variant digest priv_file state_file sig_file w in
  sign_order rng variant digest priv_file state_file sig_file w x
  /\ failed_state_write state_file w x
  /\ key_wiped w x
  /\ buffers_released w x.
Proof.
  destruct w as [f m sc tr]. cbv zeta. wp_showcase.
  all: sign_ways_leaf.
  Unshelve. all: exact [].
Qed.

Lemma xmss_detach_ways variant priv_file state_file n detached_state_file w :
  let x := showcase_xmss_detach variant priv_file state_file n detached_state_file w in
  detach_order variant n priv_file state_file detached_state_file w x
  /\ key_wiped w x
  /\ buffers_released w x.
Proof.
  destruct w as [f m sc tr]. cbv zeta. wp_showcase.
  all: detach_ways_leaf.
  Unshelve. all: exact [].
Qed.

Lemma xmssmt_detach_ways variant priv_file state_file n detached_state_file w :
  let x := showcase_xmssmt_detach variant priv_file state_file n detached_state_file w in
  detach_order variant n priv_file state_file detached_state_file w x
  /\ key_wiped w x
  /\ buffers_released w x.
Proof.
  destruct w as [f m sc tr]. cbv zeta. wp_showcase.
  all: detach_ways_leaf.
  Unshelve. all: exact [].
Qed.

(** The order of the writes. *)
Lemma xmss_sign_order rng variant digest priv_file state_file sig_file w :
  sign_order rng variant digest priv_file state_file sig_file w
    (showcase_xmss_sign rng variant digest priv_file state_file sig_file w).
Proof. apply xmss_sign_ways. Qed.

Lemma hss_sign_order rng variant digest priv_file state_file sig_file w :
  sign_order rng variant digest priv_file state_file sig_file w
    (showcase_hss_sign rng variant digest priv_file state_file sig_file w).
Proof. apply hss_sign_ways. Qed.

Lemma xmss_detach_order variant priv_file state_file n detached_state_file w :
  detach_order variant n priv_file state_file detached_state_file w
    (showcase_xmss_detach variant priv_file state_file n detached_state_file w).
Proof. apply xmss_detach_ways. Qed.

Lemma xmssmt_detach_order variant priv_file state_file n detached_state_file w :
  detach_order variant n priv_file state_file detached_state_file w
    (showcase_xmssmt_detach variant priv_file state_file n detached_state_file w).
Proof. apply xmssmt_detach_ways. Qed.

(** A failed state write. *)
Lemma xmss_sign_failed_state_write rng variant digest priv_file state_file sig_file w :
  failed_state_write state_file w
    (showcase_xmss_sign rng variant digest priv_file state_file sig_file w).
Proof. apply xmss_sign_ways. Qed.

Lemma hss_sign_failed_state_write rng variant digest priv_file state_file sig_file w :
  failed_state_write state_file w
    (showcase_hss_sign rng variant digest priv_file state_file sig_file w).
Proof. apply hss_sign_ways. Qed.

(** Wiping. *)
Lemma xmss_sign_key_wiped rng variant digest priv_file state_file sig_file w :
  key_wiped w (showcase_xmss_sign rng variant digest priv_file state_file sig_file w).
Proof. apply xmss_sign_ways. Qed.

Lemma hss_sign_key_wiped rng variant digest priv_file state_file sig_file w :
  key_wiped w (showcase_hss_sign rng variant digest priv_file state_file sig_file w).
Proof. apply hss_sign_ways. Qed.

Lemma xmss_detach_key_wiped variant priv_file state_file n detached_state_file w :
  key_wiped w (showcase_xmss_detach variant priv_file state_file n detached_state_file w).
Proof. apply xmss_detach_ways. Qed.

Lemma xmssmt_detach_key_wiped variant priv_file state_file n detached_state_file w :
  key_wiped w (showcase_xmssmt_detach variant priv_file state_file n detached_state_file w).
Proof. apply xmssmt_detach_ways. Qed.

(** Buffers on the way out. *)
Lemma xmss_sign_buffers_released rng variant digest priv_file state_file sig_file w :
  buffers_released w
    (showcase_xmss_sign rng variant digest priv_file state_file sig_file w).
Proof. apply xmss_sign_ways. Qed.

Lemma hss_sign_buffers_released rng variant digest priv_file state_file sig_file w :
  buffers_released w
    (showcase_hss_sign rng variant digest priv_file state_file sig_file w).
Proof. apply hss_sign_ways. Qed.

Lemma xmss_detach_buffers_released variant priv_file state_file n detached_state_file w :
  buffers_released w
    (showcase_xmss_detach variant priv_file state_file n detached_state_file w).
Proof. apply xmss_detach_ways. Qed.

Lemma xmssmt_detach_buffers_released variant priv_file state_file n detached_state_file w :
  buffers_released w
    (showcase_xmssmt_detach variant priv_file state_file n detached_state_file w).
Proof. apply xmssmt_detach_ways. Qed.

(** The files a run leaves alone. *)
Lemma put_other (p fname : string) (left : option bytes) (f : gmap string bytes) :
  p <> fname -> put fname left f !! p = f !! p.
Proof.
  intros H. destruct left; cbn [put]; [|reflexivity].
  now rewrite lookup_insert_ne by congruence.
Qed.

Lemma xmss_sign_others_untouched rng variant digest priv_file state_file sig_file w :
  others_untouched state_file sig_file w
    (showcase_xmss_sign rng variant digest priv_file state_file sig_file w).
Proof.
  destruct (xmss_sign_order rng variant digest priv_file state_file sig_file w)
    as (evs & blob & sg & reported & left1 & left2 & _ & _ & Hfs & _).
  intros p H1 H2. now rewrite Hfs, !put_other.
Qed.

Lemma hss_sign_others_untouched rng variant digest priv_file state_file sig_file w :
  others_untouched state_file sig_file w
    (showcase_hss_sign rng variant digest priv_file state_file sig_file w).
Proof.
  destruct (hss_sign_order rng variant digest priv_file state_file sig_file w)
    as (evs & blob & sg & reported & left1 & left2 & _ & _ & Hfs & _).
  intros p H1 H2. now rewrite Hfs, !put_other.
Qed.

Lemma xmss_detach_others_untouched variant priv_file state_file n detached_state_file w :
  others_untouched state_file detached_state_file w
    (showcase_xmss_detach variant priv_file state_file n detached_state_file w).
Proof.
  destruct (xmss_detach_order variant priv_file state_file n detached_state_file w)
    as (evs & blob & sg & reported & left1 & left2 & _ & _ & Hfs & _).
  intros p H1 H2. now rewrite Hfs, !put_other.
Qed.

Lemma xmssmt_detach_others_untouched variant priv_file state_file n detached_state_file w :
  others_untouched state_file detached_state_file w
    (showcase_xmssmt_detach variant priv_file state_file n detached_state_file w).
Proof.
  destruct (xmssmt_detach_order variant priv_file state_file n detached_state_file w)
    as (evs & blob & sg & reported & left1 & left2 & _ & _ & Hfs & _).
  intros p H1 H2. now rewrite Hfs, !put_other.
Qed.
End Ways.


(** ** A depleted state *)

Ltac refused_leaf :=
  unfold refused, storage_untouched; wp_simpl; flatten_trace;
  split; [discriminate|]; split; [reflexivity|];
  eexists; split; [reflexivity|]; reflexivity.

Ltac never_called_leaf :=
  unfold never_called; wp_simpl; flatten_trace;
  eexists; split; [reflexivity|]; not_in.

Section Depleted.
Context {T : Toolkit}.
Variables (rng : RNG) (variant : Variant) (digest : bytes).
Variables (priv_file state_file sig_file : string).
Variables (params : Params) (blob : bytes) (state : State) (max_sigs : Z).
Hypothesis Hparams : CreateParams variant = Ok params.
Hypothesis Himport : ImportState params blob = Ok state.
Hypothesis Hcount : GetSignatureCount state = Ok (max_sigs, 0%Z).

Lemma xmss_sign_depleted_refused w :
  fs w !! state_file = Some blob ->
  refused w (showcase_xmss_sign rng variant digest priv_file state_file sig_file w)
  /\ never_called "iqr_XMSSSign" w
       (showcase_xmss_sign rng variant digest priv_file state_file sig_file w).
Proof.
  destruct w as [f m sc tr]. cbn [fs]. intros Hfile.
  split; wp_showcase.
  all: first [refused_leaf | never_called_leaf].
Qed.

Lemma hss_sign_depleted_refused w :
  (forall priv sig_size, Sign priv rng digest state sig_size = Fail ESTATEDEPLETED) ->
  fs w !! state_file = Some blob ->
  refused w (showcase_hss_sign rng variant digest priv_file state_file sig_file w).
Proof.
  destruct w as [f m sc tr]. cbn [fs]. intros Hsign Hfile.
  unfold showcase_hss_sign. apply wp_with_end. unfold hss_sign_body, sign_end.
  repeat first [rewrite Hsign; wp_simpl | wp_step].
  all: refused_leaf.
Qed.

Variables (key : bytes) (priv : PrivateKey).
Hypothesis Hpriv : ImportPrivateKey params key = Ok priv.

(** Without faults of the environment. *)
Lemma xmss_sign_depleted w :
  script w = [] ->
  fs w !! priv_file = Some key ->
  fs w !! state_file = Some blob ->
  let x := showcase_xmss_sign rng variant digest priv_file state_file sig_file w in
  fst x = IQR_ESTATEDEPLETED
  /\ fs (snd x) = fs w /\ script (snd x) = []
  /\ called "iqr_XMSSGetSignatureCount" w x.
Proof.
  destruct w as [f m sc tr]. cbn [fs script]. intros -> Hkey Hfile. cbv zeta.
  wp_showcase.
  all: unfold called; wp_simpl; flatten_trace;
    split_all; try reflexivity; eexists; split; [reflexivity|in_list].
Qed.

Lemma hss_sign_depleted w sig_size :
  (forall priv sig_size, Sign priv rng digest state sig_size = Fail ESTATEDEPLETED) ->
  GetSignatureSize params = Ok sig_size ->
  script w = [] ->
  fs w !! priv_file = Some key ->
  fs w !! state_file = Some blob ->
  let x := showcase_hss_sign rng variant digest priv_file state_file sig_file w in
  fst x = IQR_ESTATEDEPLETED
  /\ fs (snd x) = fs w /\ script (snd x) = []
  /\ called "iqr_HSSSign" w x.
Proof.
  destruct w as [f m sc tr]. cbn [fs script]. intros Hsign Hsize -> Hkey Hfile. cbv zeta.
  unfold showcase_hss_sign. apply wp_with_end. unfold hss_sign_body, sign_end.
  repeat first [rewrite Hsign; wp_simpl | wp_step].
  all: unfold called; wp_simpl; flatten_trace;
    split_all; try reflexivity; eexists; split; [reflexivity|in_list].
Qed.
End Depleted.


(** ** Detaching *)

Section Detach.
Context {T : Toolkit}.
Variables (variant : Variant) (priv_file state_file detached_state_file : string).
Variables (n : Z) (params : Params) (blob : bytes) (state : State).
Variables (max_sigs remaining : Z).
Hypothesis Hparams : CreateParams variant = Ok params.
Hypothesis Himport : ImportState params blob = Ok state.
Hypothesis Hcount : GetSignatureCount state = Ok (max_sigs, remaining).

Section Insufficient.
Hypothesis Hdetach : forall priv, DetachState priv state n = Fail EINSUFFICIENTCAPACITY.

Lemma xmss_detach_refused w :
  fs w !! state_file = Some blob ->
  refused w
    (showcase_xmss_detach variant priv_file state_file n detached_state_file w).
Proof.
  destruct w as [f m sc tr]. cbn [fs]. intros Hfile.
  unfold showcase_xmss_detach. apply wp_with_end. unfold xmss_detach_body, detach_end.
  repeat first [rewrite Hdetach; wp_simpl | wp_step].
  all: refused_leaf.
Qed.

Lemma xmssmt_detach_refused w :
  fs w !! state_file = Some blob ->
  refused w
    (showcase_xmssmt_detach variant priv_file state_file n detached_state_file w).
Proof.
  destruct w as [f m sc tr]. cbn [fs]. intros Hfile.
  unfold showcase_xmssmt_detach. apply wp_with_end. unfold xmssmt_detach_body, detach_end.
  repeat first [rewrite Hdetach; wp_simpl | wp_step].
  all: refused_leaf.
Qed.

Variables (key : bytes) (priv : PrivateKey).
Hypothesis Hpriv : ImportPrivateKey params key = Ok priv.

Lemma xmss_detach_insufficient w :
  script w = [] ->
  fs w !! priv_file = Some key ->
  fs w !! state_file = Some blob ->
  fst (showcase_xmss_detach variant priv_file state_file n detached_state_file w)
  = IQR_E EINSUFFICIENTCAPACITY.
Proof.
  destruct w as [f m sc tr]. cbn [fs script]. intros -> Hkey Hfile.
  unfold showcase_xmss_detach. apply wp_with_end. unfold xmss_detach_body, detach_end.
  repeat first [rewrite Hdetach; wp_simpl | wp_step].
  all: reflexivity.
Qed.

Lemma xmssmt_detach_insufficient w :
  script w = [] ->
  fs w !! priv_file = Some key ->
  fs w !! state_file = Some blob ->
  fst (showcase_xmssmt_detach variant priv_file state_file n detached_state_file w)
  = IQR_E EINSUFFICIENTCAPACITY.
Proof.
  destruct w as [f m sc tr]. cbn [fs script]. intros -> Hkey Hfile.
  unfold showcase_xmssmt_detach. apply wp_with_end. unfold xmssmt_detach_body, detach_end.
  repeat first [rewrite Hdetach; wp_simpl | wp_step].
  all: reflexivity.
Qed.
End Insufficient.
End Detach.


(** ** Verifying *)

Ltac use_equations :=
  repeat match goal with
  | H : ?x = _ |- context [?x] => rewrite H
  end.

Section Verifying.
Context {V : Verifier}.

Lemma xmssmt_verify_reads_only variant digest pub_file sig_file w :
  fs (snd (showcase_xmssmt_verify variant digest pub_file sig_file w)) = fs w.
Proof.
  destruct w as [f m sc tr]. wp_showcase.
  all: reflexivity.
Qed.

Lemma rainbow_verify_reads_only variant pub_file message_file sig_file w :
  fs (snd (showcase_rainbow_verify variant pub_file message_file sig_file w)) = fs w.
Proof.
  destruct w as [f m sc tr]. wp_showcase.
  all: reflexivity.
Qed.

Lemma xmssmt_verify_function variant digest pub_file sig_file w :
  script w = [] ->
  let x := showcase_xmssmt_verify variant digest pub_file sig_file w in
  fst x = verify_result variant (Some digest) (fs w !! pub_file) (fs w !! sig_file)
  /\ script (snd x) = [].
Proof.
  destruct w as [f m sc tr]. cbn [script]. intros ->. cbv zeta.
  wp_showcase.
  all: unfold verify_result; wp_simpl; use_equations; split; reflexivity.
Qed.

Lemma rainbow_verify_function variant pub_file message_file sig_file w :
  script w = [] ->
  let x := showcase_rainbow_verify variant pub_file message_file sig_file w in
  fst x = verify_result variant (fs w !! message_file) (fs w !! pub_file) (fs w !! sig_file)
  /\ script (snd x) = [].
Proof.
  destruct w as [f m sc tr]. cbn [script]. intros ->. cbv zeta.
  wp_showcase.
  all: unfold verify_result; wp_simpl; use_equations; split; reflexivity.
Qed.
End Verifying.


(** ** The command line *)

Lemma isdigit_not_space c : isdigit c = true -> isspace c = false.
Proof.
  unfold isdigit, isspace.
  destruct (Nat.eqb_spec (nat_of_ascii c) 32) as [->|]; [discriminate|].
  rewrite !andb_true_iff, !Nat.leb_le. intros [? ?]. simpl.
  apply andb_false_iff. right. apply Nat.leb_gt. lia.
Qed.

Lemma isdigit_not_sign c s :
  isdigit c = true ->
  match String c s with
  | String "-" s' => (true, s')
  | String "+" s' => (false, s')
  | _ => (false, String c s)
  end = (false, String c s).
Proof.
  destruct c as [[] [] [] [] [] [] [] []]; try reflexivity; discriminate.
Qed.

Lemma scan_digits_all s : forall count acc,
  all_digits s = true ->
  scan_digits s count acc = (count + String.length s, decimal_value s acc, EmptyString).
Proof.
  induction s as [|c s IH]; intros count acc H; simpl in *.
  - f_equal. f_equal. lia.
  - apply andb_true_iff in H as [Hc Hs]. rewrite Hc, IH by assumption.
    f_equal. f_equal. lia.
Qed.

Lemma strtoull_digits s errno :
  all_digits s = true -> s <> EmptyString -> (decimal_value s 0 <= ULLONG_MAX)%Z ->
  strtoull s errno = mkStrtoull (decimal_value s 0) EmptyString false errno.
Proof.
  intros Hd Hne Hle. destruct s as [|c s]; [congruence|].
  pose proof Hd as Hd'. simpl in Hd'. apply andb_true_iff in Hd' as [Hc _].
  unfold strtoull.
  replace (skip_spaces (String c s)) with (String c s)
    by (simpl; now rewrite isdigit_not_space).
  rewrite isdigit_not_sign by assumption.
  rewrite scan_digits_all by assumption.
  simpl Nat.eqb. cbv iota beta.
  destruct (Z.ltb_spec ULLONG_MAX (decimal_value (String c s) 0)); [lia|reflexivity].
Qed.

Lemma num_sigs_option_digits s errno :
  all_digits s = true -> s <> EmptyString -> (decimal_value s 0 <= ULLONG_MAX)%Z ->
  errno <> ERANGE ->
  num_sigs_option s errno = (Ok (uint32 (decimal_value s 0)), errno).
Proof.
  intros Hd Hne Hle He. unfold num_sigs_option.
  rewrite strtoull_digits by assumption. simpl.
  destruct (Z.eqb_spec errno ERANGE); [contradiction|].
  now rewrite andb_false_r.
Qed.

Lemma uint32_truncates v : (2 ^ 32 <= v)%Z -> uint32 v <> v.
Proof.
  unfold uint32. intros H E.
  pose proof (Z.mod_pos_bound v (2 ^ 32) ltac:(lia)). lia.
Qed.


Lemma num_sigs_option_accepts s errno n errno' :
  num_sigs_option s errno = (Ok n, errno') ->
  n = (val (strtoull s errno) mod 2 ^ 32)%Z.
Proof.
  unfold num_sigs_option, uint32.
  destruct (end_is_nptr (strtoull s errno) || negb (String.eqb (at_end (strtoull s errno)) "")
            || ((val (strtoull s errno) =? ULLONG_MAX)%Z
                && (errno_after (strtoull s errno) =? ERANGE)%Z));
    [discriminate|].
  intros H. now injection H as <- _.
Qed.


(** ** The reference toolkit keeps the contract *)

Lemma reference_contract : Contract Reference.toolkit.
Proof.
  constructor; cbn.
  - intros priv rng digest state sig_size max_sigs H.
    injection H as _ Hr. unfold Reference.sign. now rewrite Hr.
  - intros priv state n max_sigs remaining H Hlt.
    injection H as _ Hr. unfold Reference.detach_state. rewrite Hr.
    destruct (Z.leb_spec n remaining); [lia|]. now rewrite andb_false_r.
  - intros priv state n max_sigs remaining H [H1 Hn].
    injection H as _ Hr. unfold Reference.detach_state. rewrite Hr.
    destruct (Z.leb_spec 1 n); [|lia]. destruct (Z.leb_spec n remaining); [|lia].
    cbn. eexists _, _, _, _. split; [reflexivity|].
    unfold Reference.remaining in *. cbn.
    split; [do 2 f_equal; lia|]. split; [do 2 f_equal; lia|]. split; reflexivity.
Qed.


(** ** Runs in an environment without faults *)

Ltac runs_leaf :=
  wp_simpl; split_all; reflexivity.

Section Sign_runs.
Context {T : Toolkit}.
Variables (rng : RNG) (variant : Variant) (digest : bytes).
Variables (priv_file state_file sig_file : string).
Variables (params : Params) (key blob : bytes) (priv : PrivateKey) (state state' : State).
Variables (max_sigs remaining max_sigs' remaining' : Z) (sig_size : nat) (sgn e : bytes).
Hypothesis Hparams : CreateParams variant = Ok params.
Hypothesis Hpriv : ImportPrivateKey params key = Ok priv.
Hypothesis Himport : ImportState params blob = Ok state.
Hypothesis Hcount : GetSignatureCount state = Ok (max_sigs, remaining).
Hypothesis Hleft : (remaining =? 0)%Z = false.
Hypothesis Hsize : GetSignatureSize params = Ok sig_size.
Hypothesis Hsign : Sign priv rng digest state sig_size = Ok (state', sgn).
Hypothesis Hexport : ExportState state' (length blob) = Ok e.
Hypothesis Hcount' : GetSignatureCount state' = Ok (max_sigs', remaining').

(** When every call of the toolkit goes well, the sample saves both. *)
Lemma xmss_sign_runs w :
  script w = [] ->
  fs w !! priv_file = Some key ->
  fs w !! state_file = Some blob ->
  let x := showcase_xmss_sign rng variant digest priv_file state_file sig_file w in
  fst x = IQR_OK
  /\ fs (snd x)
     = <[sig_file := overwrite (repeat x00 sig_size) sgn]>
         (<[state_file := overwrite blob e]> (fs w))
  /\ script (snd x) = [].
Proof.
  destruct w as [f m sc tr]. cbn [fs script]. intros -> Hkey Hfile. cbv zeta.
  unfold showcase_xmss_sign. apply wp_with_end. unfold xmss_sign_body, sign_end.
  repeat first [rewrite Hleft; wp_simpl | wp_step].
  all: runs_leaf.
Qed.
End Sign_runs.

Section Detach_runs.
Context {T : Toolkit}.
Variables (variant : Variant) (n : Z).
Variables (priv_file state_file detached_state_file : string).
Variables (params : Params) (key blob : bytes) (priv : PrivateKey).
Variables (state parent detached : State) (c1 c2 : Z * Z) (size : nat) (e1 e2 : bytes).
Hypothesis Hparams : CreateParams variant = Ok params.
Hypothesis Hpriv : ImportPrivateKey params key = Ok priv.
Hypothesis Himport : ImportState params blob = Ok state.
Hypothesis Hdetach : DetachState priv state n = Ok (parent, detached).
Hypothesis Hcount1 : GetSignatureCount parent = Ok c1.
Hypothesis Hcount2 : GetSignatureCount detached = Ok c2.
Hypothesis Hexport1 : ExportState parent (length blob) = Ok e1.
Hypothesis Hsize : GetStateSize params = Ok size.
Hypothesis Hexport2 : ExportState detached (length blob) = Ok e2.

Lemma xmss_detach_runs w :
  script w = [] ->
  fs w !! priv_file = Some key ->
  fs w !! state_file = Some blob ->
  let x := showcase_xmss_detach variant priv_file state_file n detached_state_file w in
  fst x = IQR_OK
  /\ fs (snd x)
     = <[detached_state_file := overwrite (overwrite blob e1) e2]>
         (<[state_file := overwrite blob e1]> (fs w))
  /\ script (snd x) = [].
Proof.
  destruct w as [f m sc tr]. cbn [fs script]. intros -> Hkey Hfile. cbv zeta.
  unfold showcase_xmss_detach. apply wp_with_end. unfold xmss_detach_body, detach_end.
  repeat wp_step.
  all: runs_leaf.
Qed.

Lemma xmssmt_detach_runs w :
  script w = [] ->
  fs w !! priv_file = Some key ->
  fs w !! state_file = Some blob ->
  let x := showcase_xmssmt_detach variant priv_file state_file n detached_state_file w in
  fst x = IQR_OK
  /\ fs (snd x)
     = <[detached_state_file := overwrite (overwrite blob e1) e2]>
         (<[state_file := overwrite blob e1]> (fs w))
  /\ script (snd x) = [].
Proof.
  destruct w as [f m sc tr]. cbn [fs script]. intros -> Hkey Hfile. cbv zeta.
  unfold showcase_xmssmt_detach. apply wp_with_end.
  unfold xmssmt_detach_body, detach_end, XMSSMTGetSignatureCount.
  repeat first [rewrite Hcount1; wp_simpl | rewrite Hcount2; wp_simpl | wp_step].
  all: runs_leaf.
Qed.
End Detach_runs.

(** What a run that returned [IQR_OK] in such an environment has done. *)

Ltac success_leaf :=
  wp_simpl;
  let H := fresh "H" in
  intros H; try discriminate H;
  use_lookups; split_pairs; cbn [buf default from_option id length];
  eexists _, _, _, _, _, _, _; split_all; try eassumption; try reflexivity.

Section Success.
Context {T : Toolkit}.

Lemma xmss_sign_success rng variant digest priv_file state_file sig_file w :
  script w = [] ->
  let x := showcase_xmss_sign rng variant digest priv_file state_file sig_file w in
  fst x = IQR_OK ->
  exists params priv state sig_size state' sgn e,
    CreateParams variant = Ok params
    /\ ImportPrivateKey params (buf (fs w !! priv_file)) = Ok priv
    /\ ImportState params (buf (fs w !! state_file)) = Ok state
    /\ GetSignatureSize params = Ok sig_size
    /\ Sign priv rng digest state sig_size = Ok (state', sgn)
    /\ ExportState state' (length (buf (fs w !! state_file))) = Ok e
    /\ fs (snd x)
       = <[sig_file := overwrite (repeat x00 sig_size) sgn]>
           (<[state_file := overwrite (buf (fs w !! state_file)) e]> (fs w)).
Proof.
  destruct w as [f m sc tr]. cbn [fs script]. intros ->. cbv zeta.
  wp_showcase.
  all: success_leaf.
Qed.

Lemma hss_sign_success rng variant digest priv_file state_file sig_file w :
  script w = [] ->
  let x := showcase_hss_sign rng variant digest priv_file state_file sig_file w in
  fst x = IQR_OK ->
  exists params priv state sig_size state' sgn e,
    CreateParams variant = Ok params
    /\ ImportPrivateKey params (buf (fs w !! priv_file)) = Ok priv
    /\ ImportState params (buf (fs w !! state_file)) = Ok state
    /\ GetSignatureSize params = Ok sig_size
    /\ Sign priv rng digest state sig_size = Ok (state', sgn)
    /\ ExportState state' (length (buf (fs w !! state_file))) = Ok e
    /\ fs (snd x)
       = <[sig_file := overwrite (repeat x00 sig_size) sgn]>
           (<[state_file := overwrite (buf (fs w !! state_file)) e]> (fs w)).
Proof.
  destruct w as [f m sc tr]. cbn [fs script]. intros ->. cbv zeta.
  wp_showcase.
  all: success_leaf.
Qed.

Lemma xmss_detach_success variant priv_file state_file n detached_state_file w :
  script w = [] ->
  let x := showcase_xmss_detach variant priv_file state_file n detached_state_file w in
  fst x = IQR_OK ->
  exists params priv state parent detached e1 e2,
    CreateParams variant = Ok params
    /\ ImportPrivateKey params (buf (fs w !! priv_file)) = Ok priv
    /\ ImportState params (buf (fs w !! state_file)) = Ok state
    /\ DetachState priv state n = Ok (parent, detached)
    /\ ExportState parent (length (buf (fs w !! state_file))) = Ok e1
    /\ ExportState detached (length (buf (fs w !! state_file))) = Ok e2
    /\ fs (snd x)
       = <[detached_state_file :=
             overwrite (overwrite (buf (fs w !! state_file)) e1) e2]>
           (<[state_file := overwrite (buf (fs w !! state_file)) e1]> (fs w)).
Proof.
  destruct w as [f m sc tr]. cbn [fs script]. intros ->. cbv zeta.
  wp_showcase.
  all: success_leaf.
Qed.

Lemma xmssmt_detach_success variant priv_file state_file n detached_state_file w :
  script w = [] ->
  let x := showcase_xmssmt_detach variant priv_file state_file n detached_state_file w in
  fst x = IQR_OK ->
  exists params priv state parent detached e1 e2,
    CreateParams variant = Ok params
    /\ ImportPrivateKey params (buf (fs w !! priv_file)) = Ok priv
    /\ ImportState params (buf (fs w !! state_file)) = Ok state
    /\ DetachState priv state n = Ok (parent, detached)
    /\ ExportState parent (length (buf (fs w !! state_file))) = Ok e1
    /\ ExportState detached (length (buf (fs w !! state_file))) = Ok e2
    /\ fs (snd x)
       = <[detached_state_file :=
             overwrite (overwrite (buf (fs w !! state_file)) e1) e2]>
           (<[state_file := overwrite (buf (fs w !! state_file)) e1]> (fs w)).
Proof.
  destruct w as [f m sc tr]. cbn [fs script]. intros ->. cbv zeta.
  wp_showcase.
  all: success_leaf.
Qed.
End Success.

(** ** The reference toolkit *)

Lemma overwrite_same_length (old new : bytes) :
  length old = length new -> overwrite old new = new.
Proof.
  intros H. unfold overwrite.
  rewrite (drop_ge old (length new)) by lia.
  rewrite app_nil_r, H. apply firstn_all.
Qed.

Module ReferenceFacts.
Import Reference.

Lemma byte_of_Z_value z : Z.of_N (Byte.to_N (byte_of_Z z)) = (z mod 256)%Z.
Proof.
  unfold byte_of_Z.
  pose proof (Z.mod_pos_bound z 256 ltac:(lia)) as Hb.
  destruct (Byte.of_N (Z.to_N (z mod 256))) as [b|] eqn:E; cbn [default from_option id].
  - apply Byte.to_of_N in E. rewrite E. lia.
  - apply Byte.of_N_None_iff in E. lia.
Qed.

Lemma Z_of_be_be64 z : (0 <= z < 2 ^ 64)%Z -> Z_of_be (be64 z) = z.
Proof.
  intros Hz. unfold Z_of_be, be64. cbn [map fold_left].
  rewrite !byte_of_Z_value.
  change (256 ^ Z.of_nat 0)%Z with 1%Z.
  change (256 ^ Z.of_nat 1)%Z with 256%Z.
  change (256 ^ Z.of_nat 2)%Z with (256 * 256)%Z.
  change (256 ^ Z.of_nat 3)%Z with (256 * 256 * 256)%Z.
  change (256 ^ Z.of_nat 4)%Z with (256 * 256 * 256 * 256)%Z.
  change (256 ^ Z.of_nat 5)%Z with (256 * 256 * 256 * 256 * 256)%Z.
  change (256 ^ Z.of_nat 6)%Z with (256 * 256 * 256 * 256 * 256 * 256)%Z.
  change (256 ^ Z.of_nat 7)%Z with (256 * 256 * 256 * 256 * 256 * 256 * 256)%Z.
  rewrite <- !Z.div_div by lia. rewrite Z.div_1_r.
  assert (Htop : (z / 256 / 256 / 256 / 256 / 256 / 256 / 256 / 256 = 0)%Z).
  { rewrite !Z.div_div by lia. apply Z.div_small. lia. }
  pose proof (Z.div_mod z 256 ltac:(lia)).
  pose proof (Z.div_mod (z / 256) 256 ltac:(lia)).
  pose proof (Z.div_mod (z / 256 / 256) 256 ltac:(lia)).
  pose proof (Z.div_mod (z / 256 / 256 / 256) 256 ltac:(lia)).
  pose proof (Z.div_mod (z / 256 / 256 / 256 / 256) 256 ltac:(lia)).
  pose proof (Z.div_mod (z / 256 / 256 / 256 / 256 / 256) 256 ltac:(lia)).
  pose proof (Z.div_mod (z / 256 / 256 / 256 / 256 / 256 / 256) 256 ltac:(lia)).
  pose proof (Z.div_mod (z / 256 / 256 / 256 / 256 / 256 / 256 / 256) 256 ltac:(lia)).
  lia.
Qed.

Lemma length_export s : length (export s) = state_size.
Proof. reflexivity. Qed.

(** The round trip of section 8 of the specification. *)
Lemma import_export s : valid s -> import (export s) = Ok s.
Proof.
  intros [[H1 H2] [H3 H4]]. unfold import.
  change (negb (Nat.eqb (length (export s)) state_size)) with false. cbv iota.
  change (take 8 (export s)) with (be64 (first_leaf s)).
  change (take 8 (drop 8 (export s))) with (be64 (next_leaf s)).
  change (drop 16 (export s)) with (be64 (total_leaves s)).
  rewrite !Z_of_be_be64 by lia.
  unfold remaining. cbn [first_leaf next_leaf total_leaves].
  destruct (Z.leb_spec (first_leaf s) (next_leaf s)); [|lia].
  destruct (Z.leb_spec 0 (first_leaf s + total_leaves s - next_leaf s)); [|lia].
  cbn. now destruct s.
Qed.

Lemma detach_state_splits key s n :
  (1 <= n <= remaining s)%Z ->
  detach_state key s n
  = Ok (mkLeafState (first_leaf s) (next_leaf s + n) (total_leaves s),
        mkLeafState (next_leaf s) (next_leaf s) n).
Proof.
  intros [H1 H2]. unfold detach_state.
  destruct (Z.leb_spec 1 n); [|lia]. destruct (Z.leb_spec n (remaining s)); [|lia].
  reflexivity.
Qed.

Lemma sign_consumes_next_leaf key digest s :
  (0 < remaining s)%Z ->
  sign key tt digest s signature_size
  = Ok (mkLeafState (first_leaf s) (next_leaf s + 1) (total_leaves s), be64 (next_leaf s)).
Proof.
  intros H. unfold sign. destruct (Z.leb_spec (remaining s) 0); [lia|]. reflexivity.
Qed.

Lemma import_private_key_accepts params key :
  length key = private_key_size -> import_private_key params key = Ok key.
Proof. intros H. unfold import_private_key. now rewrite H. Qed.

Lemma create_params_accepts height :
  In height [10; 16; 20] -> create_params height = Ok height.
Proof. intros [<-|[<-|[<-|[]]]]; reflexivity. Qed.

(** A signing run on the reference toolkit, without faults, with a
    state that has signatures left. *)
Lemma sign_run height key digest s priv_file state_file sig_file w :
  In height [10; 16; 20] ->
  length key = private_key_size ->
  valid s -> (0 < remaining s)%Z ->
  script w = [] ->
  fs w !! priv_file = Some key ->
  fs w !! state_file = Some (export s) ->
  let x := showcase_xmss_sign (XMSS := toolkit) tt height digest
             priv_file state_file sig_file w in
  fst x = IQR_OK /\ fs (snd x) !! sig_file = Some (be64 (next_leaf s)).
Proof.
  intros Hh Hk Hv Hr Hsc Hkey Hfile.
  destruct (xmss_sign_runs (T := toolkit) tt height digest priv_file state_file sig_file
              height key (export s) key s
              (mkLeafState (first_leaf s) (next_leaf s + 1) (total_leaves s))
              (total_leaves s) (remaining s) (total_leaves s) (remaining s - 1)
              signature_size (be64 (next_leaf s))
              (export (mkLeafState (first_leaf s) (next_leaf s + 1) (total_leaves s)))
              (create_params_accepts height Hh)
              (import_private_key_accepts height key Hk)
              (import_export s Hv)
              eq_refl
              ltac:(apply Z.eqb_neq; lia)
              eq_refl
              (sign_consumes_next_leaf key digest s Hr)
              eq_refl
              ltac:(cbn; unfold remaining; cbn; do 2 f_equal; lia)
              w Hsc Hkey Hfile) as (H1 & H2 & _).
  split; [exact H1|]. cbv zeta in H2. rewrite H2, lookup_insert_eq. reflexivity.
Qed.

Section Detach_run.
Variables (height : nat) (key digest : bytes) (s : leaf_state) (n : Z).
Variables (priv_file state_file detached_state_file sig_file : string) (w : World).
Hypothesis Hheight : In height [10; 16; 20].
Hypothesis Hkeysize : length key = private_key_size.
Hypothesis Hvalid : valid s.
Hypothesis Hn : (1 <= n <= remaining s)%Z.
Hypothesis Hps : priv_file <> state_file.
Hypothesis Hpd : priv_file <> detached_state_file.
Hypothesis Hsd : state_file <> detached_state_file.
Hypothesis Hscript : script w = [].
Hypothesis Hkey : fs w !! priv_file = Some key.
Hypothesis Hfile : fs w !! state_file = Some (export s).

Lemma detach_run x :
  fst x = IQR_OK
  /\ fs (snd x)
     = <[detached_state_file :=
           overwrite (overwrite (export s)
                        (export (mkLeafState (first_leaf s) (next_leaf s + n)
                                   (total_leaves s))))
                     (export (mkLeafState (next_leaf s) (next_leaf s) n))]>
         (<[state_file :=
              overwrite (export s)
                (export (mkLeafState (first_leaf s) (next_leaf s + n)
                           (total_leaves s)))]> (fs w))
  /\ script (snd x) = [] ->
  detach_result height digest priv_file state_file detached_state_file sig_file s n x.
Proof.
  intros (Hok & Hfs & Hsc).
  rewrite !overwrite_same_length in Hfs by reflexivity.
  destruct Hvalid as [[V1 V2] [V3 V4]]. unfold remaining in Hn.
  assert (Hkey' : fs (snd x) !! priv_file = Some key).
  { rewrite Hfs, !lookup_insert_ne by congruence. exact Hkey. }
  unfold detach_result. cbv zeta. split; [exact Hok|].
  split; [rewrite Hfs, lookup_insert_ne, lookup_insert_eq by congruence; reflexivity|].
  split; [rewrite Hfs, lookup_insert_eq; reflexivity|].
  split.
  - apply (sign_run height key digest
             (mkLeafState (next_leaf s) (next_leaf s) n)); try assumption.
    + unfold valid; cbn; lia.
    + unfold remaining; cbn; lia.
    + rewrite Hfs, lookup_insert_eq. reflexivity.
  - intros Hlt.
    apply (sign_run height key digest
             (mkLeafState (first_leaf s) (next_leaf s + n) (total_leaves s)));
      try assumption.
    + unfold valid; cbn; lia.
    + unfold remaining in *; cbn; lia.
    + rewrite Hfs, lookup_insert_ne, lookup_insert_eq by congruence. reflexivity.
Qed.

Lemma xmss_detach_result :
  detach_result height digest priv_file state_file detached_state_file sig_file s n
    (showcase_xmss_detach (XMSS := toolkit) height priv_file state_file n
       detached_state_file w).
Proof.
  apply detach_run.
  apply (xmss_detach_runs (T := toolkit) height n priv_file state_file
           detached_state_file height key (export s) key s
           (mkLeafState (first_leaf s) (next_leaf s + n) (total_leaves s))
           (mkLeafState (next_leaf s) (next_leaf s) n)
           (total_leaves s, remaining (mkLeafState (first_leaf s) (next_leaf s + n)
                                         (total_leaves s)))
           (n, remaining (mkLeafState (next_leaf s) (next_leaf s) n))
           state_size
           (export (mkLeafState (first_leaf s) (next_leaf s + n) (total_leaves s)))
           (export (mkLeafState (next_leaf s) (next_leaf s) n))
           (create_params_accepts height Hheight)
           (import_private_key_accepts height key Hkeysize)
           (import_export s Hvalid)
           (detach_state_splits key s n Hn)
           eq_refl eq_refl eq_refl eq_refl eq_refl
           w Hscript Hkey Hfile).
Qed.

Lemma xmssmt_detach_result :
  detach_result height digest priv_file state_file detached_state_file sig_file s n
    (showcase_xmssmt_detach (XMSSMT := toolkit) height priv_file state_file n
       detached_state_file w).
Proof.
  apply detach_run.
  apply (xmssmt_detach_runs (T := toolkit) height n priv_file state_file
           detached_state_file height key (export s) key s
           (mkLeafState (first_leaf s) (next_leaf s + n) (total_leaves s))
           (mkLeafState (next_leaf s) (next_leaf s) n)
           (total_leaves s, remaining (mkLeafState (first_leaf s) (next_leaf s + n)
                                         (total_leaves s)))
           (n, remaining (mkLeafState (next_leaf s) (next_leaf s) n))
           state_size
           (export (mkLeafState (first_leaf s) (next_leaf s + n) (total_leaves s)))
           (export (mkLeafState (next_leaf s) (next_leaf s) n))
           (create_params_accepts height Hheight)
           (import_private_key_accepts height key Hkeysize)
           (import_export s Hvalid)
           (detach_state_splits key s n Hn)
           eq_refl eq_refl eq_refl eq_refl eq_refl
           w Hscript Hkey Hfile).
Qed.
End Detach_run.
End ReferenceFacts.

(** * The claims *)







(** C3, as the code has it.  In every run of [showcase_xmss_sign] and of
    [showcase_hss_sign] whose write of the state file fails at [fopen] or
    at [fwrite], the failures [save_data] looks for, the run returns
    [IQR_EBADVALUE] and writes nothing else: the signature file is not
    opened.  The state file is as it was when its [fopen] failed; when the
    [fwrite] failed, it was truncated on opening and holds the bytes that
    got through. *)
Theorem failed_state_write_releases_nothing {T : Toolkit} rng variant digest
    priv_file state_file sig_file w :
  failed_state_write state_file w
    (showcase_xmss_sign rng variant digest priv_file state_file sig_file w)
  /\ failed_state_write state_file w
       (showcase_hss_sign rng variant digest priv_file state_file sig_file w).
Proof.
  split; [apply xmss_sign_failed_state_write | apply hss_sign_failed_state_write].
Qed.

Lemma failed_state_write_releases_nothing_witness :
  let w := Reference.world Reference.fresh_state Reference.state_open_fails in
  let x := showcase_xmss_sign (XMSS := Reference.toolkit) tt 10 [x01]
             "priv.key" "priv.state" "sig.dat" w in
  fst x = IQR_EBADVALUE /\ fs (snd x) = fs w.
Proof.
  intros w x.
  pose proof (failed_state_write_releases_nothing (T := Reference.toolkit) tt 10 [x01]
                "priv.key" "priv.state" "sig.dat" w) as [H _].
  destruct (H (trace (snd x)) eq_refl) as [H1 _].
  exact (proj2 (H1 [] eq_refl)).
Defined.

(** C3, as the claim has it, fails: the [fwrite] of the state file fails
    after three bytes, and the state file no longer holds the blob it held
    before the call. *)
Lemma failed_state_write_changes_state_file :
  let w := Reference.world Reference.fresh_state Reference.state_write_fails in
  let x := showcase_xmss_sign (XMSS := Reference.toolkit) tt 10 [x01]
             "priv.key" "priv.state" "sig.dat" w in
  fst x = IQR_EBADVALUE
  /\ In (EvWrite "priv.state" [x00; x00; x00] false) (trace (snd x))
  /\ ~ state_blob_unchanged "priv.state" w x.
Proof.
  intros w x. split; [reflexivity|]. split.
  - vm_compute. do 8 right. left. reflexivity.
  - unfold state_blob_unchanged. vm_compute. discriminate.
Qed.

(** C4.  The state file holds a state with fewer signatures left than
    asked for, and the toolkit keeps its contract.  Then
    [showcase_xmss_detach] and [showcase_xmssmt_detach] fail and write no
    file, whatever else fails: the parent's state file is as it was and no
    detached-state file appears.  When nothing else fails they return the
    toolkit's [InsufficientCapacityError]. *)
Theorem detach_beyond_capacity_refused {T : Toolkit} (C : Contract T) variant
    priv_file state_file detached_state_file n params blob state max_sigs remaining w :
  CreateParams variant = Ok params ->
  fs w !! state_file = Some blob ->
  ImportState params blob = Ok state ->
  GetSignatureCount state = Ok (max_sigs, remaining) ->
  (remaining < n)%Z ->
  let x := showcase_xmss_detach variant priv_file state_file n detached_state_file w in
  let y := showcase_xmssmt_detach variant priv_file state_file n detached_state_file w in
  (refused w x /\ refused w y)
  /\ (forall key priv,
        script w = [] ->
        fs w !! priv_file = Some key ->
        ImportPrivateKey params key = Ok priv ->
        fst x = IQR_E EINSUFFICIENTCAPACITY /\ fst y = IQR_E EINSUFFICIENTCAPACITY).
Proof.
  intros Hparams Hfile Himport Hcount Hlt x y. subst x y.
  assert (Hdetach : forall priv, DetachState priv state n = Fail EINSUFFICIENTCAPACITY)
    by (intros; eapply detach_insufficient; eassumption).
  split; [split|].
  - eapply xmss_detach_refused; eassumption.
  - eapply xmssmt_detach_refused; eassumption.
  - intros key priv Hscript Hkey Hpriv. split.
    + eapply xmss_detach_insufficient; eassumption.
    + eapply xmssmt_detach_insufficient; eassumption.
Qed.

Lemma detach_beyond_capacity_refused_witness :
  let w := Reference.world Reference.fresh_state [] in
  let x := showcase_xmss_detach (XMSS := Reference.toolkit) 10
             "priv.key" "priv.state" 6 "detached.state" w in
  fst x = IQR_E EINSUFFICIENTCAPACITY /\ fs (snd x) = fs w.
Proof.
  intros w x.
  pose proof (detach_beyond_capacity_refused (T := Reference.toolkit) reference_contract 10
                "priv.key" "priv.state" "detached.state" 6%Z 10
                (Reference.export Reference.fresh_state) Reference.fresh_state 8%Z 5%Z w
                eq_refl eq_refl eq_refl eq_refl eq_refl) as [[[_ [Hfs _]] _] H].
  split; [|exact Hfs].
  exact (proj1 (H Reference.key Reference.key eq_refl eq_refl eq_refl)).
Defined.



(** Scenario B of the specification, run on the reference toolkit: after
    the detachment of 100 signatures the detached state has 100 left and the
    parent 400, and the signature the parent's file gives next consumes leaf
    100. *)
Example scenario_b :
  let w := Reference.world Reference.scenario_b_state [] in
  let x := showcase_xmss_detach (XMSS := Reference.toolkit) 10
             "priv.key" "priv.state" 100 "detached.state" w in
  let y := showcase_xmss_sign (XMSS := Reference.toolkit) tt 10 [x01]
             "priv.key" "priv.state" "sig.dat" (snd x) in
  fst x = IQR_OK
  /\ fs (snd x) !! "detached.state"
     = Some (Reference.export (Reference.mkLeafState 0 0 100))
  /\ fs (snd x) !! "priv.state"
     = Some (Reference.export (Reference.mkLeafState 0 100 500))
  /\ fst y = IQR_OK
  /\ fs (snd y) !! "sig.dat" = Some (Reference.be64 100).
Proof.
  vm_compute. repeat split.
Qed.






(** C8.  [showcase_xmssmt_verify] and [showcase_rainbow_verify] leave
    every file as it is, the public key file among them, whatever fails; and
    when the environment does not fail, what they return is a function of
    the variant, the digest or message, the public key file and the
    signature file ([verify_result]), so a second call returns what the
    first returned. *)
Theorem verify_is_pure {V : Verifier} variant digest pub_file message_file sig_file w :
  let x := showcase_xmssmt_verify variant digest pub_file sig_file w in
  let y := showcase_rainbow_verify variant pub_file message_file sig_file w in
  (fs (snd x) = fs w /\ fs (snd y) = fs w)
  /\ (script w = [] ->
      (fst x = verify_result variant (Some digest) (fs w !! pub_file) (fs w !! sig_file)
       /\ fst (showcase_xmssmt_verify variant digest pub_file sig_file (snd x)) = fst x)
      /\ (fst y = verify_result variant (fs w !! message_file)
                    (fs w !! pub_file) (fs w !! sig_file)
          /\ fst (showcase_rainbow_verify variant pub_file message_file sig_file (snd y))
             = fst y)).
Proof.
  intros x y. subst x y.
  pose proof (xmssmt_verify_reads_only variant digest pub_file sig_file w) as Hx.
  pose proof (rainbow_verify_reads_only variant pub_file message_file sig_file w) as Hy.
  split; [split; assumption|].
  intros Hscript.
  destruct (xmssmt_verify_function variant digest pub_file sig_file w Hscript) as [Hrx Hsx].
  destruct (rainbow_verify_function variant pub_file message_file sig_file w Hscript)
    as [Hry Hsy].
  split; (split; [assumption|]).
  - rewrite (proj1 (xmssmt_verify_function variant digest pub_file sig_file _ Hsx)).
    now rewrite Hx, Hrx.
  - rewrite (proj1 (rainbow_verify_function variant pub_file message_file sig_file _ Hsy)).
    now rewrite Hy, Hry.
Qed.

Lemma verify_is_pure_witness :
  let w := Reference.verify_world in
  let x := showcase_xmssmt_verify (XMSSMT := Reference.verifier) tt [x03]
             "pub.key" "sig.dat" w in
  fst x = IQR_OK
  /\ fst (showcase_xmssmt_verify (XMSSMT := Reference.verifier) tt [x03]
            "pub.key" "sig.dat" (snd x)) = fst x.
Proof.
  intros w x. split; [reflexivity|].
  exact (proj2 (proj1 (proj2 (verify_is_pure (V := Reference.verifier) tt [x03]
                                 "pub.key" "message.dat" "sig.dat" w) eq_refl))).
Defined.



(** C10.  Whatever argument of [--num-sigs] the two detach parsers accept,
    the count they hand on is the 64-bit value [strtoull] gave, modulo 2^32.
    A string of decimal digits that denotes a value up to [ULLONG_MAX] is
    accepted, the value [strtoull] gives is the one it denotes, and the count
    is that value modulo 2^32: for a value of 2^32 or more this is not the
    value written, the parsers report no error, and [main] calls the
    showcase function with the reduced count. *)
Theorem num_sigs_reduced_modulo_2_32 {T : Toolkit} (prog s : string) (errno : Z) :
  (forall a, xmss_detach_parse_commandline [prog; "--num-sigs"; s] errno xmss_detach_defaults
             = Ok a ->
             xd_num_signatures a = (val (strtoull s errno) mod 2 ^ 32)%Z)
  /\ (forall a, xmssmt_detach_parse_commandline [prog; "--num-sigs"; s] errno
                  xmssmt_detach_defaults = Ok a ->
                xmd_num_signatures a = (val (strtoull s errno) mod 2 ^ 32)%Z)
  /\ (all_digits s = true -> s <> EmptyString ->
      (decimal_value s 0 <= ULLONG_MAX)%Z -> errno <> ERANGE ->
      let v := decimal_value s 0 in
      xmss_detach_parse_commandline [prog; "--num-sigs"; s] errno xmss_detach_defaults
      = Ok (mkXmssDetachArgs "priv.key" "priv.state" IQR_XMSS_HEIGHT_10
              IQR_XMSS_FULL_TREE_STRATEGY (v mod 2 ^ 32) "detached.state")
      /\ xmssmt_detach_parse_commandline [prog; "--num-sigs"; s] errno xmssmt_detach_defaults
         = Ok (mkXmssmtDetachArgs "priv.key" "priv.state" IQR_XMSSMT_20_4
                 IQR_XMSSMT_FULL_TREE_STRATEGY (v mod 2 ^ 32) "detached.state")
      /\ ((2 ^ 32 <= v)%Z -> (v mod 2 ^ 32)%Z <> v)
      /\ (forall variant_of w,
            xmss_detach_main (Ok tt) variant_of [prog; "--num-sigs"; s] errno w
            = exit_status
                (showcase_xmss_detach
                   (variant_of IQR_XMSS_FULL_TREE_STRATEGY IQR_XMSS_HEIGHT_10)
                   "priv.key" "priv.state" (v mod 2 ^ 32) "detached.state" w))
      /\ (forall variant_of w,
            xmssmt_detach_main (Ok tt) variant_of [prog; "--num-sigs"; s] errno w
            = exit_status
                (showcase_xmssmt_detach
                   (variant_of IQR_XMSSMT_FULL_TREE_STRATEGY IQR_XMSSMT_20_4)
                   "priv.key" "priv.state" (v mod 2 ^ 32) "detached.state" w))).
Proof.
  assert (Hx : xmss_detach_parse_commandline [prog; "--num-sigs"; s] errno xmss_detach_defaults
               = match num_sigs_option s errno with
                 | (Ok n, _) =>
                     Ok (mkXmssDetachArgs "priv.key" "priv.state" IQR_XMSS_HEIGHT_10
                           IQR_XMSS_FULL_TREE_STRATEGY n "detached.state")
                 | (Fail e, _) => Fail e
                 end).
  { unfold xmss_detach_parse_commandline. cbn [tail xmss_detach_parse_loop].
    change (paramcmp "--num-sigs" "--priv" =? 0)%Z with false.
    change (paramcmp "--num-sigs" "--state" =? 0)%Z with false.
    change (paramcmp "--num-sigs" "--detached-state" =? 0)%Z with false.
    change (paramcmp "--num-sigs" "--height" =? 0)%Z with false.
    change (paramcmp "--num-sigs" "--strategy" =? 0)%Z with false.
    change (paramcmp "--num-sigs" "--num-sigs" =? 0)%Z with true.
    cbv iota. destruct (num_sigs_option s errno) as [[n|e] errno']; reflexivity. }
  assert (Hm : xmssmt_detach_parse_commandline [prog; "--num-sigs"; s] errno
                 xmssmt_detach_defaults
               = match num_sigs_option s errno with
                 | (Ok n, _) =>
                     Ok (mkXmssmtDetachArgs "priv.key" "priv.state" IQR_XMSSMT_20_4
                           IQR_XMSSMT_FULL_TREE_STRATEGY n "detached.state")
                 | (Fail e, _) => Fail e
                 end).
  { unfold xmssmt_detach_parse_commandline. cbn [tail xmssmt_detach_parse_loop].
    change (paramcmp "--num-sigs" "--priv" =? 0)%Z with false.
    change (paramcmp "--num-sigs" "--state" =? 0)%Z with false.
    change (paramcmp "--num-sigs" "--detached-state" =? 0)%Z with false.
    change (paramcmp "--num-sigs" "--variant" =? 0)%Z with false.
    change (paramcmp "--num-sigs" "--strategy" =? 0)%Z with false.
    change (paramcmp "--num-sigs" "--num-sigs" =? 0)%Z with true.
    cbv iota. destruct (num_sigs_option s errno) as [[n|e] errno']; reflexivity. }
  split; [|split].
  - intros a Ha. rewrite Hx in Ha.
    destruct (num_sigs_option s errno) as [[n|e] errno'] eqn:E; [|discriminate].
    injection Ha as <-. cbn. now apply num_sigs_option_accepts in E.
  - intros a Ha. rewrite Hm in Ha.
    destruct (num_sigs_option s errno) as [[n|e] errno'] eqn:E; [|discriminate].
    injection Ha as <-. cbn. now apply num_sigs_option_accepts in E.
  - intros Hd Hne Hle He v.
    unfold xmss_detach_main, xmssmt_detach_main.
    rewrite Hx, Hm, (num_sigs_option_digits s errno Hd Hne Hle He).
    split; [reflexivity|]. split; [reflexivity|].
    split; [apply uint32_truncates|]. split; reflexivity.
Qed.

Lemma num_sigs_reduced_modulo_2_32_witness :
  xmss_detach_parse_commandline ["xmss_detach"; "--num-sigs"; "4294967296"] 0
    xmss_detach_defaults
  = Ok (mkXmssDetachArgs "priv.key" "priv.state" IQR_XMSS_HEIGHT_10
          IQR_XMSS_FULL_TREE_STRATEGY 0 "detached.state").
Proof.
  exact (proj1 (proj2 (proj2 (num_sigs_reduced_modulo_2_32 (T := Reference.toolkit)
                                "xmss_detach" "4294967296" 0%Z))
                  eq_refl ltac:(discriminate) ltac:(vm_compute; discriminate)
                  ltac:(discriminate))).
Defined.

(** The user asks for 2^32 + 1 signatures where 5 remain: the sample
    detaches one and reports success. *)
Example num_sigs_wraps_to_one :
  let w := Reference.world Reference.fresh_state [] in
  let x := xmss_detach_main (T := Reference.toolkit) (Ok tt) (fun _ _ => 10)
             ["xmss_detach"; "--num-sigs"; "4294967297"] 0 w in
  fst x = EXIT_SUCCESS
  /\ fs (snd x) !! "detached.state"
     = Some (Reference.export (Reference.mkLeafState 3 3 1)).
Proof.
  vm_compute. split; reflexivity.
Qed.

(** * Further properties of the samples *)

(** ** [save_data] and [load_data] *)

Lemma fault_free_hd sc : fault_free sc -> hd Succeeds sc = Succeeds.
Proof. intros H. destruct H; [reflexivity|assumption]. Qed.

Lemma fault_free_tl sc : fault_free sc -> fault_free (tl sc).
Proof. intros H. destruct H; [constructor|assumption]. Qed.

Lemma Var_eqb_refl v : Var_eqb v v = true.
Proof. destruct v; reflexivity. Qed.

Lemma Var_eqb_neq a b : a <> b -> Var_eqb a b = false.
Proof. destruct a, b; intros H; try reflexivity; contradiction. Qed.

Lemma save_then_load fname data v w :
  fault_free (script w) ->
  wp (save_data fname data;; load_data fname v)
     (fun r w' =>
        r = Ok tt
        /\ fs w' = <[fname := data]> (fs w)
        /\ mem w' v = match data with [] => None | _ :: _ => Some data end) w.
Proof.
  destruct w as [f m sc tr]. cbn [script fs]. intros H1.
  pose proof (fault_free_tl _ H1) as H2. pose proof (fault_free_tl _ H2) as H3.
  pose proof (fault_free_tl _ H3) as H4. pose proof (fault_free_tl _ H4) as H5.
  pose proof (fault_free_tl _ H5) as H6.
  apply fault_free_hd in H1, H2, H3, H4, H5, H6.
  apply wp_bind, wp_save_data. wp_simpl. rewrite H1, H2, H3.
  apply wp_load_data. unfold load_outcomes. wp_simpl. rewrite H4, lookup_insert_eq.
  destruct data as [|b c]; wp_simpl.
  - split_all; try reflexivity. destruct v; reflexivity.
  - rewrite H5, H6. wp_simpl. split_all; try reflexivity. destruct v; reflexivity.
Qed.

Lemma save_then_hss_load fname data v w :
  fault_free (script w) ->
  wp (save_data fname data;; hss_load_data fname v)
     (fun r w' =>
        r = Ok tt
        /\ fs w' = <[fname := data]> (fs w)
        /\ mem w' v = match data with [] => mem w v | _ :: _ => Some data end) w.
Proof.
  destruct w as [f m sc tr]. cbn [script fs mem]. intros H1.
  pose proof (fault_free_tl _ H1) as H2. pose proof (fault_free_tl _ H2) as H3.
  pose proof (fault_free_tl _ H3) as H4. pose proof (fault_free_tl _ H4) as H5.
  pose proof (fault_free_tl _ H5) as H6.
  apply fault_free_hd in H1, H2, H3, H4, H5, H6.
  apply wp_bind, wp_save_data. wp_simpl. rewrite H1, H2, H3.
  apply wp_hss_load_data. unfold load_outcomes. wp_simpl. rewrite H4, lookup_insert_eq.
  destruct data as [|b c]; wp_simpl.
  - auto.
  - rewrite H5, H6. wp_simpl. split_all; try reflexivity. destruct v; reflexivity.
Qed.

(** X1.  What [save_data] has written, [load_data] reads back: in an
    environment without faults, saving [data] to a file and loading the
    file into the buffer of [v] succeeds, leaves [data] in the file, and
    leaves in the buffer [data], or NULL when [data] is empty ([load_data]
    of [hss/sign/main.c] then leaves the buffer as it was). *)
Theorem saved_data_loads_back (fname : string) (data : bytes) (v : Var) (w : World) :
  fault_free (script w) ->
  (let x := (save_data fname data;; load_data fname v) w in
   fst x = Ok tt
   /\ fs (snd x) = <[fname := data]> (fs w)
   /\ mem (snd x) v = match data with [] => None | _ :: _ => Some data end)
  /\ (let y := (save_data fname data;; hss_load_data fname v) w in
      fst y = Ok tt
      /\ fs (snd y) = <[fname := data]> (fs w)
      /\ mem (snd y) v = match data with [] => mem w v | _ :: _ => Some data end).
Proof.
  intros H. split.
  - exact (save_then_load fname data v w H).
  - exact (save_then_hss_load fname data v w H).
Qed.

Lemma saved_data_loads_back_witness :
  let x := (save_data "priv.state" [x01; x02; x03];; load_data "priv.state" state_raw)
             (mkWorld ∅ (fun _ => None) [] []) in
  fst x = Ok tt /\ mem (snd x) state_raw = Some [x01; x02; x03].
Proof.
  pose proof (saved_data_loads_back "priv.state" [x01; x02; x03] state_raw
                (mkWorld ∅ (fun _ => None) [] []) (List.Forall_nil _)) as [(H1 & _ & H3) _].
  split; [exact H1 | exact H3].
Defined.

(** What [load_data] leaves, in all its ways. *)
Lemma load_data_ways fname v w :
  wp (load_data fname v)
     (fun r w' =>
        fs w' = fs w
        /\ (r = Ok tt ->
            exists c, fs w !! fname = Some c
                      /\ mem w' v = match c with [] => None | _ :: _ => Some c end)
        /\ (r <> Ok tt -> r = Fail EBADVALUE /\ (v <> tmp -> mem w' v = mem w v))
        /\ (fs w !! fname = None -> r = Fail EBADVALUE)) w.
Proof.
  destruct w as [f m sc tr].
  apply wp_load_data. unfold load_outcomes.
  repeat (wp_simpl; lazymatch goal with
          | |- match ?x with _ => _ end => destruct x eqn:?
          end).
  all: wp_simpl; split_all; try reflexivity; intros; try congruence.
  all: try (eexists; split; [reflexivity|];
            first [reflexivity | unfold upd; rewrite Var_eqb_refl; reflexivity]).
  all: split; [reflexivity|]; intros Hv; unfold upd;
    rewrite ?(Var_eqb_neq tmp v) by congruence; reflexivity.
Qed.

Lemma hss_load_data_ways fname v w :
  wp (hss_load_data fname v)
     (fun r w' =>
        fs w' = fs w
        /\ (r = Ok tt ->
            exists c, fs w !! fname = Some c
                      /\ mem w' v = match c with [] => mem w v | _ :: _ => Some c end)
        /\ (r <> Ok tt -> r = Fail EBADVALUE /\ (v <> tmp -> mem w' v = mem w v))
        /\ (fs w !! fname = None -> r = Fail EBADVALUE)) w.
Proof.
  destruct w as [f m sc tr].
  apply wp_hss_load_data. unfold load_outcomes.
  repeat (wp_simpl; lazymatch goal with
          | |- match ?x with _ => _ end => destruct x eqn:?
          end).
  all: wp_simpl; split_all; try reflexivity; intros; try congruence.
  all: try (eexists; split; [reflexivity|];
            first [reflexivity | unfold upd; rewrite Var_eqb_refl; reflexivity]).
  all: split; [reflexivity|]; intros Hv; unfold upd;
    rewrite ?(Var_eqb_neq tmp v) by congruence; reflexivity.
Qed.

(** X2.  [load_data] hands out the whole file or nothing, whatever fails
    in the environment: it never changes a file; when it returns [IQR_OK]
    the file exists and the caller's buffer holds all of it (NULL for an
    empty file); every failure is [IQR_EBADVALUE] and leaves the caller's
    pointer as it was; a missing file is a failure. *)
Theorem load_data_all_or_nothing (fname : string) (v : Var) (w : World) :
  let x := load_data fname v w in
  fs (snd x) = fs w
  /\ (fst x = Ok tt ->
      exists c, fs w !! fname = Some c
                /\ mem (snd x) v = match c with [] => None | _ :: _ => Some c end)
  /\ (fst x <> Ok tt ->
      fst x = Fail EBADVALUE /\ (v <> tmp -> mem (snd x) v = mem w v))
  /\ (fs w !! fname = None -> fst x = Fail EBADVALUE).
Proof. exact (load_data_ways fname v w). Qed.

Lemma load_data_all_or_nothing_witness :
  fst (load_data "priv.key" priv_raw (mkWorld ∅ (fun _ => None) [] [])) = Fail EBADVALUE.
Proof.
  exact (proj2 (proj2 (proj2 (load_data_all_or_nothing "priv.key" priv_raw
                                (mkWorld ∅ (fun _ => None) [] [])))) eq_refl).
Defined.



(** ** [paramcmp] *)

Lemma ascii_eqb_nat a b : Nat.eqb (nat_of_ascii a) (nat_of_ascii b) = true <-> a = b.
Proof.
  rewrite Nat.eqb_eq. split; [|congruence].
  intros E. rewrite <- (ascii_nat_embedding a), <- (ascii_nat_embedding b). congruence.
Qed.

Lemma strncmp_first_chars n : forall s1 s2,
  strncmp s1 s2 n = 0%Z <-> first_chars n s1 = first_chars n s2.
Proof.
  induction n as [|n IH]; intros s1 s2; cbn [strncmp first_chars].
  - destruct s1; split; reflexivity.
  - destruct s1 as [|a s1], s2 as [|b s2]; cbn [strncmp first_chars];
      try (split; [reflexivity|reflexivity]); try (split; discriminate).
    destruct (Nat.eqb (nat_of_ascii a) (nat_of_ascii b)) eqn:E.
    + apply ascii_eqb_nat in E as ->. rewrite IH.
      split; [intros ->; reflexivity | intros [=]; assumption].
    + split.
      * destruct (Nat.ltb _ _); discriminate.
      * intros [= Hab _]. apply ascii_eqb_nat in Hab. congruence.
Qed.

Lemma strnlen_first_chars n : forall s, strnlen s n = String.length (first_chars n s).
Proof.
  unfold strnlen. induction n as [|n IH]; intros [|c s]; cbn; auto.
Qed.

Lemma paramcmp_first_chars p1 p2 :
  paramcmp p1 p2 = 0%Z <-> first_chars 32 p1 = first_chars 32 p2.
Proof.
  unfold paramcmp. cbv zeta.
  destruct (Nat.eqb (strnlen p1 32) (strnlen p2 32)) eqn:E; cbn [negb].
  - apply strncmp_first_chars.
  - split; [discriminate|]. intros Heq. apply Nat.eqb_neq in E.
    rewrite !strnlen_first_chars, Heq in E. contradiction.
Qed.

Lemma first_chars_app n : forall s t, String.length s = n -> first_chars n (s ++ t) = s.
Proof.
  induction n as [|n IH]; intros [|c s] t Hl; cbn in *; try discriminate; auto.
  f_equal. apply IH. lia.
Qed.

Lemma first_chars_eq_short n : forall s1 s2,
  String.length s2 < n -> first_chars n s1 = s2 -> s1 = s2.
Proof.
  induction n as [|n IH]; intros s1 s2 Hl E; [lia|].
  destruct s1 as [|a s1]; cbn in E; [congruence|].
  destruct s2 as [|b s2]; [discriminate|].
  injection E as -> E. f_equal. apply IH; [cbn in Hl; lia | assumption].
Qed.

(** ** The [--num-sigs] option *)

Lemma scan_digits_prefix d c r : forall count acc,
  all_digits d = true -> isdigit c = false ->
  scan_digits (d ++ String c r) count acc
  = (count + String.length d, decimal_value d acc, String c r).
Proof.
  induction d as [|x d IH]; intros count acc Hd Hc.
  - change ("" ++ String c r)%string with (String c r). cbn [scan_digits decimal_value String.length].
    rewrite Hc. f_equal. f_equal. lia.
  - change (String x d ++ String c r)%string with (String x (d ++ String c r)%string).
    cbn [scan_digits all_digits decimal_value String.length] in *.
    apply andb_true_iff in Hd as [Hx Hd]. rewrite Hx, IH by assumption.
    f_equal. f_equal. lia.
Qed.

Lemma strtoull_minus s errno :
  all_digits s = true -> s <> EmptyString -> (decimal_value s 0 <= ULLONG_MAX)%Z ->
  strtoull (String "-" s) errno
  = mkStrtoull ((- decimal_value s 0) mod 2 ^ 64)%Z EmptyString false errno.
Proof.
  intros Hd Hne Hle. unfold strtoull.
  change (skip_spaces (String "-" s)) with (String "-" s). cbv iota beta.
  rewrite scan_digits_all by assumption.
  destruct s as [|c s]; [congruence|]. cbn [String.length Nat.add Nat.eqb].
  destruct (Z.ltb_spec ULLONG_MAX (decimal_value (String c s) 0)); [lia|reflexivity].
Qed.

Lemma num_sigs_option_minus s errno :
  all_digits s = true -> s <> EmptyString -> (decimal_value s 0 <= ULLONG_MAX)%Z ->
  errno <> ERANGE ->
  num_sigs_option (String "-" s) errno = (Ok ((- decimal_value s 0) mod 2 ^ 32)%Z, errno).
Proof.
  intros Hd Hne Hle He. unfold num_sigs_option.
  rewrite strtoull_minus by assumption. cbn [end_is_nptr at_end val errno_after].
  destruct (Z.eqb_spec errno ERANGE); [contradiction|].
  rewrite andb_false_r. cbn. unfold uint32.
  rewrite Z.mod_mod_divide; [reflexivity|].
  exists (2 ^ 32)%Z. reflexivity.
Qed.

Lemma num_sigs_option_empty errno :
  num_sigs_option "" errno = (Fail EBADVALUE, errno).
Proof. reflexivity. Qed.

Lemma num_sigs_option_trailing d c r errno :
  all_digits d = true -> d <> EmptyString -> isdigit c = false ->
  fst (num_sigs_option (d ++ String c r) errno) = Fail EBADVALUE.
Proof.
  intros Hd Hne Hc. unfold num_sigs_option, strtoull.
  destruct d as [|x d]; [congruence|].
  pose proof Hd as Hd'. cbn [all_digits] in Hd'. apply andb_true_iff in Hd' as [Hx _].
  change (String x d ++ String c r)%string with (String x (d ++ String c r)%string).
  remember (d ++ String c r)%string as t eqn:Et.
  replace (skip_spaces (String x t)) with (String x t)
    by (cbn [skip_spaces]; now rewrite isdigit_not_space).
  rewrite isdigit_not_sign by assumption.
  subst t. change (String x (d ++ String c r)%string) with (String x d ++ String c r)%string.
  rewrite scan_digits_prefix by assumption.
  cbn [String.length Nat.add Nat.eqb].
  destruct (ULLONG_MAX <? _)%Z; cbn; reflexivity.
Qed.

Lemma num_sigs_option_overflow s errno :
  all_digits s = true -> (ULLONG_MAX < decimal_value s 0)%Z ->
  fst (num_sigs_option s errno) = Fail EBADVALUE.
Proof.
  intros Hd Hlt. unfold num_sigs_option, strtoull.
  destruct s as [|c s]; [reflexivity|].
  pose proof Hd as Hd'. cbn in Hd'. apply andb_true_iff in Hd' as [Hc _].
  replace (skip_spaces (String c s)) with (String c s)
    by (cbn; now rewrite isdigit_not_space).
  rewrite isdigit_not_sign by assumption.
  rewrite scan_digits_all by assumption.
  cbn [String.length Nat.add Nat.eqb].
  destruct (Z.ltb_spec ULLONG_MAX (decimal_value (String c s) 0)); [|lia].
  reflexivity.
Qed.

(** The command line [prog --num-sigs s], for the two parsers. *)
Lemma xmss_detach_parse_num_sigs prog s errno :
  xmss_detach_parse_commandline [prog; "--num-sigs"; s] errno xmss_detach_defaults
  = match fst (num_sigs_option s errno) with
    | Ok n =>
        Ok (mkXmssDetachArgs "priv.key" "priv.state" IQR_XMSS_HEIGHT_10
              IQR_XMSS_FULL_TREE_STRATEGY n "detached.state")
    | Fail e => Fail e
    end.
Proof.
  unfold xmss_detach_parse_commandline. cbn [tail xmss_detach_parse_loop].
  change (paramcmp "--num-sigs" "--priv" =? 0)%Z with false.
  change (paramcmp "--num-sigs" "--state" =? 0)%Z with false.
  change (paramcmp "--num-sigs" "--detached-state" =? 0)%Z with false.
  change (paramcmp "--num-sigs" "--height" =? 0)%Z with false.
  change (paramcmp "--num-sigs" "--strategy" =? 0)%Z with false.
  change (paramcmp "--num-sigs" "--num-sigs" =? 0)%Z with true.
  cbv iota. destruct (num_sigs_option s errno) as [[n|e] errno']; reflexivity.
Qed.

Lemma xmssmt_detach_parse_num_sigs prog s errno :
  xmssmt_detach_parse_commandline [prog; "--num-sigs"; s] errno xmssmt_detach_defaults
  = match fst (num_sigs_option s errno) with
    | Ok n =>
        Ok (mkXmssmtDetachArgs "priv.key" "priv.state" IQR_XMSSMT_20_4
              IQR_XMSSMT_FULL_TREE_STRATEGY n "detached.state")
    | Fail e => Fail e
    end.
Proof.
  unfold xmssmt_detach_parse_commandline. cbn [tail xmssmt_detach_parse_loop].
  change (paramcmp "--num-sigs" "--priv" =? 0)%Z with false.
  change (paramcmp "--num-sigs" "--state" =? 0)%Z with false.
  change (paramcmp "--num-sigs" "--detached-state" =? 0)%Z with false.
  change (paramcmp "--num-sigs" "--variant" =? 0)%Z with false.
  change (paramcmp "--num-sigs" "--strategy" =? 0)%Z with false.
  change (paramcmp "--num-sigs" "--num-sigs" =? 0)%Z with true.
  cbv iota. destruct (num_sigs_option s errno) as [[n|e] errno']; reflexivity.
Qed.

(** ** An option without its value *)

(** One step of a parsing loop on a list whose tail is not looked into,
    the same case analysis on both sides, and the induction hypothesis for
    the shorter list the loop goes on with. *)
Ltac lone_argument loop :=
  let l := fresh "l" in
  let n := fresh "n" in
  let Hn := fresh "Hn" in
  let IH := fresh "IH" in
  intros l; remember (length l) as n eqn:Hn; revert l Hn;
  induction n as [n IH] using lt_wf_ind; intros l Hn; intros; subst n;
  lazymatch goal with
  | H : _ = Ok _ |- _ =>
      destruct l as [|opt l1]; [reflexivity|];
      cbn [app]; cbn [loop] in H |- *;
      destruct l1 as [|arg rest]; [discriminate H|];
      cbn [app] in *;
      repeat match type of H with
      | context [if ?c then _ else _] => destruct c
      | context [match ?p with (_, _) => _ end] => destruct p as [[?|?] ?]
      end;
      try discriminate;
      first [ eapply (IH (length rest)); [cbn [length]; lia | reflexivity | exact H]
            | eapply (IH (length (arg :: rest)) ltac:(cbn [length]; lia) (arg :: rest));
              [reflexivity | exact H] ]
  end.

Lemma xmss_detach_lone_argument x : forall l errno a a',
  xmss_detach_parse_loop l errno a = Ok a' ->
  xmss_detach_parse_loop (l ++ [x]) errno a = Fail EBADVALUE.
Proof. lone_argument xmss_detach_parse_loop. Qed.

Lemma xmssmt_detach_lone_argument x : forall l errno a a',
  xmssmt_detach_parse_loop l errno a = Ok a' ->
  xmssmt_detach_parse_loop (l ++ [x]) errno a = Fail EBADVALUE.
Proof. lone_argument xmssmt_detach_parse_loop. Qed.

Lemma xmss_sign_lone_argument x : forall l a a',
  xmss_sign_parse_loop l a = Ok a' ->
  xmss_sign_parse_loop (l ++ [x]) a = Fail EBADVALUE.
Proof. lone_argument xmss_sign_parse_loop. Qed.

Lemma hss_sign_lone_argument x : forall l a a',
  hss_sign_parse_loop l a = Ok a' ->
  hss_sign_parse_loop (l ++ [x]) a = Fail EBADVALUE.
Proof. lone_argument hss_sign_parse_loop. Qed.

Lemma xmssmt_verify_lone_argument x : forall l a a',
  xmssmt_verify_parse_loop l a = Ok a' ->
  xmssmt_verify_parse_loop (l ++ [x]) a = Fail EBADVALUE.
Proof. lone_argument xmssmt_verify_parse_loop. Qed.

Lemma rainbow_verify_lone_argument x : forall l a a',
  rainbow_verify_parse_loop l a = Ok a' ->
  rainbow_verify_parse_loop (l ++ [x]) a = Fail EBADVALUE.
Proof. lone_argument rainbow_verify_parse_loop. Qed.

Lemma tail_app_nonempty {A} (l : list A) x : l <> [] -> tail (l ++ [x]) = tail l ++ [x].
Proof. destruct l; [congruence|reflexivity]. Qed.

(** X4.  [paramcmp] returns 0 exactly when its two parameters agree on
    their first 32 characters.  What lies behind the 32nd character is not
    compared: two parameters that share their first 32 characters match,
    whatever follows. *)
Theorem paramcmp_compares_32_characters (p1 p2 : string) :
  (paramcmp p1 p2 = 0%Z <-> first_chars 32 p1 = first_chars 32 p2)
  /\ (forall s t u : string,
        String.length s = 32 -> paramcmp (s ++ t) (s ++ u) = 0%Z).
Proof.
  split; [apply paramcmp_first_chars|].
  intros s t u Hs. apply paramcmp_first_chars.
  now rewrite !first_chars_app.
Qed.

Lemma paramcmp_compares_32_characters_witness :
  paramcmp "--an-option-of-thirty-two-chars-and-more"
           "--an-option-of-thirty-two-chars-or-less" = 0%Z.
Proof.
  exact (proj2 (paramcmp_compares_32_characters "" "")
               "--an-option-of-thirty-two-chars-" "and-more" "or-less" eq_refl).
Defined.

(** X5.  Against a parameter of fewer than 32 characters, as every option
    name and option value of the samples is, [paramcmp] returns 0 for the
    equal string and for no other. *)
Theorem paramcmp_exact_below_32 (p1 p2 : string) :
  String.length p2 < 32 -> (paramcmp p1 p2 = 0%Z <-> p1 = p2).
Proof.
  intros Hl. rewrite paramcmp_first_chars. split.
  - intros E. apply (first_chars_eq_short 32); [assumption|].
    rewrite E. clear E. revert Hl. generalize 32. intros n. revert p2.
    induction n as [|n IH]; intros [|c s] Hl; cbn in *; try lia; try reflexivity.
    f_equal. apply IH. lia.
  - now intros ->.
Qed.

Lemma paramcmp_exact_below_32_witness :
  paramcmp "--state" "--state" = 0%Z <-> "--state" = "--state".
Proof.
  apply (paramcmp_exact_below_32 "--state" "--state"). cbn. lia.
Defined.

(** X6.  The two detach parsers take a negative number for
    [--num-sigs]: for a minus sign followed by decimal digits that denote
    [v], up to [ULLONG_MAX], the parser reports no error and the count is
    [-v] modulo 2^32 ([strtoull] negates in the unsigned type, and the
    value is cut to [uint32_t]); [-1] asks for 4294967295 signatures. *)
Theorem num_sigs_accepts_negative (prog s : string) (errno : Z) :
  all_digits s = true -> s <> EmptyString ->
  (decimal_value s 0 <= ULLONG_MAX)%Z -> errno <> ERANGE ->
  xmss_detach_parse_commandline [prog; "--num-sigs"; String "-" s] errno
    xmss_detach_defaults
  = Ok (mkXmssDetachArgs "priv.key" "priv.state" IQR_XMSS_HEIGHT_10
          IQR_XMSS_FULL_TREE_STRATEGY ((- decimal_value s 0) mod 2 ^ 32) "detached.state")
  /\ xmssmt_detach_parse_commandline [prog; "--num-sigs"; String "-" s] errno
       xmssmt_detach_defaults
     = Ok (mkXmssmtDetachArgs "priv.key" "priv.state" IQR_XMSSMT_20_4
             IQR_XMSSMT_FULL_TREE_STRATEGY ((- decimal_value s 0) mod 2 ^ 32)
             "detached.state").
Proof.
  intros Hd Hne Hle He.
  rewrite xmss_detach_parse_num_sigs, xmssmt_detach_parse_num_sigs.
  rewrite (num_sigs_option_minus s errno Hd Hne Hle He). split; reflexivity.
Qed.

Lemma num_sigs_accepts_negative_witness :
  xmss_detach_parse_commandline ["xmss_detach"; "--num-sigs"; "-1"] 0 xmss_detach_defaults
  = Ok (mkXmssDetachArgs "priv.key" "priv.state" IQR_XMSS_HEIGHT_10
          IQR_XMSS_FULL_TREE_STRATEGY 4294967295 "detached.state").
Proof.
  exact (proj1 (num_sigs_accepts_negative "xmss_detach" "1" 0%Z eq_refl
                  ltac:(discriminate) ltac:(vm_compute; discriminate)
                  ltac:(discriminate))).
Defined.

(** X7.  The two detach parsers fail with [IQR_EBADVALUE] on a
    [--num-sigs] argument that is empty, that has a character that is no
    digit behind its digits, or whose digits denote more than
    [ULLONG_MAX]. *)
Theorem num_sigs_rejects (prog s : string) (errno : Z) :
  s = EmptyString
  \/ (exists d c r, s = (d ++ String c r)%string
                    /\ all_digits d = true /\ d <> EmptyString /\ isdigit c = false)
  \/ (all_digits s = true /\ (ULLONG_MAX < decimal_value s 0)%Z) ->
  xmss_detach_parse_commandline [prog; "--num-sigs"; s] errno xmss_detach_defaults
  = Fail EBADVALUE
  /\ xmssmt_detach_parse_commandline [prog; "--num-sigs"; s] errno xmssmt_detach_defaults
     = Fail EBADVALUE.
Proof.
  intros H.
  assert (Hf : fst (num_sigs_option s errno) = Fail EBADVALUE).
  { destruct H as [->|[(d & c & r & -> & Hd & Hne & Hc)|[Hd Hlt]]].
    - reflexivity.
    - now apply num_sigs_option_trailing.
    - now apply num_sigs_option_overflow. }
  rewrite xmss_detach_parse_num_sigs, xmssmt_detach_parse_num_sigs, Hf.
  split; reflexivity.
Qed.

Lemma num_sigs_rejects_witness :
  xmss_detach_parse_commandline ["xmss_detach"; "--num-sigs"; "12abc"] 0
    xmss_detach_defaults
  = Fail EBADVALUE.
Proof.
  refine (proj1 (num_sigs_rejects "xmss_detach" "12abc" 0%Z _)).
  right. left. exists "12", "a"%char, "bc". repeat split. discriminate.
Defined.

(** X8.  In each of the six parsers an option that comes last without its
    value is an error: one more argument behind a command line the parser
    accepts makes it fail with [IQR_EBADVALUE]. *)
Theorem lone_last_argument_rejected (argv : list string) (x : string) (errno : Z) :
  argv <> [] ->
  (forall a, xmss_detach_parse_commandline argv errno xmss_detach_defaults = Ok a ->
             xmss_detach_parse_commandline (argv ++ [x]) errno xmss_detach_defaults
             = Fail EBADVALUE)
  /\ (forall a, xmssmt_detach_parse_commandline argv errno xmssmt_detach_defaults = Ok a ->
                xmssmt_detach_parse_commandline (argv ++ [x]) errno xmssmt_detach_defaults
                = Fail EBADVALUE)
  /\ (forall a, xmss_sign_parse_commandline argv xmss_sign_defaults = Ok a ->
                xmss_sign_parse_commandline (argv ++ [x]) xmss_sign_defaults
                = Fail EBADVALUE)
  /\ (forall a, hss_sign_parse_commandline argv hss_sign_defaults = Ok a ->
                hss_sign_parse_commandline (argv ++ [x]) hss_sign_defaults
                = Fail EBADVALUE)
  /\ (forall a, xmssmt_verify_parse_commandline argv xmssmt_verify_defaults = Ok a ->
                xmssmt_verify_parse_commandline (argv ++ [x]) xmssmt_verify_defaults
                = Fail EBADVALUE)
  /\ (forall a, rainbow_verify_parse_commandline argv rainbow_verify_defaults = Ok a ->
                rainbow_verify_parse_commandline (argv ++ [x]) rainbow_verify_defaults
                = Fail EBADVALUE).
Proof.
  intros Hne.
  unfold xmss_detach_parse_commandline, xmssmt_detach_parse_commandline,
    xmss_sign_parse_commandline, hss_sign_parse_commandline,
    xmssmt_verify_parse_commandline, rainbow_verify_parse_commandline.
  rewrite (tail_app_nonempty argv x Hne).
  split_all; intros a Ha.
  - exact (xmss_detach_lone_argument x _ _ _ _ Ha).
  - exact (xmssmt_detach_lone_argument x _ _ _ _ Ha).
  - exact (xmss_sign_lone_argument x _ _ _ Ha).
  - exact (hss_sign_lone_argument x _ _ _ Ha).
  - exact (xmssmt_verify_lone_argument x _ _ _ Ha).
  - exact (rainbow_verify_lone_argument x _ _ _ Ha).
Qed.

Lemma lone_last_argument_rejected_witness :
  xmss_sign_parse_commandline ["xmss_sign"; "--priv"; "my.key"; "--state"]
    xmss_sign_defaults
  = Fail EBADVALUE.
Proof.
  refine (proj1 (proj2 (proj2 (lone_last_argument_rejected ["xmss_sign"; "--priv"; "my.key"]
                                 "--state" 0%Z _))) _ _).
  - discriminate.
  - reflexivity.
Defined.

(** ** A missing key or state file *)

Ltac missing_leaf :=
  unfold storage_untouched, never_called; wp_simpl; flatten_trace; split_all;
  [ reflexivity
  | reflexivity
  | eexists; split; reflexivity
  | eexists; split; [reflexivity|]; not_in ].

Section Missing_files.
Context {T : Toolkit}.
Variables (rng : RNG) (variant : Variant) (digest : bytes) (n : Z).
Variables (priv_file state_file out_file : string).
Variable params : Params.
Hypothesis Hparams : CreateParams variant = Ok params.

Lemma xmss_sign_missing_file w :
  fs w !! priv_file = None \/ fs w !! state_file = None ->
  let x := showcase_xmss_sign rng variant digest priv_file state_file out_file w in
  fst x = IQR_EBADVALUE /\ storage_untouched w x
  /\ never_called "iqr_XMSSImportPrivateKey" w x.
Proof.
  destruct w as [f m sc tr]. cbn [fs]. intros [Hk|Hs]; cbv zeta.
  all: wp_showcase.
  all: missing_leaf.
Qed.

Lemma hss_sign_missing_file w :
  fs w !! priv_file = None \/ fs w !! state_file = None ->
  let x := showcase_hss_sign rng variant digest priv_file state_file out_file w in
  fst x = IQR_EBADVALUE /\ storage_untouched w x
  /\ never_called "iqr_HSSImportPrivateKey" w x.
Proof.
  destruct w as [f m sc tr]. cbn [fs]. intros [Hk|Hs]; cbv zeta.
  all: wp_showcase.
  all: missing_leaf.
Qed.

Lemma xmss_detach_missing_file w :
  fs w !! priv_file = None \/ fs w !! state_file = None ->
  let x := showcase_xmss_detach variant priv_file state_file n out_file w in
  fst x = IQR_EBADVALUE /\ storage_untouched w x
  /\ never_called "iqr_XMSSImportPrivateKey" w x.
Proof.
  destruct w as [f m sc tr]. cbn [fs]. intros [Hk|Hs]; cbv zeta.
  all: wp_showcase.
  all: missing_leaf.
Qed.

Lemma xmssmt_detach_missing_file w :
  fs w !! priv_file = None \/ fs w !! state_file = None ->
  let x := showcase_xmssmt_detach variant priv_file state_file n out_file w in
  fst x = IQR_EBADVALUE /\ storage_untouched w x
  /\ never_called "iqr_XMSSMTImportPrivateKey" w x.
Proof.
  destruct w as [f m sc tr]. cbn [fs]. intros [Hk|Hs]; cbv zeta.
  all: wp_showcase.
  all: missing_leaf.
Qed.
End Missing_files.

(** ** The size of the state file *)

Lemma overwrite_length (old new : bytes) : length (overwrite old new) = length old.
Proof.
  unfold overwrite. rewrite length_take, length_app, length_drop. lia.
Qed.

Lemma overwrite_filled (old new : bytes) :
  length old <= length new -> overwrite old new = take (length old) new.
Proof.
  intros H. unfold overwrite. now rewrite take_app_le.
Qed.

(** ** Buffers on the way out of the verify samples *)

Section Released_verify.
Context {V : Verifier}.

Lemma xmssmt_verify_buffers_released variant digest pub_file sig_file w :
  buffers_released w (showcase_xmssmt_verify variant digest pub_file sig_file w).
Proof.
  destruct w as [f m sc tr]. wp_showcase.
  all: released_leaf.
Qed.

Lemma rainbow_verify_buffers_released variant pub_file message_file sig_file w :
  buffers_released w (showcase_rainbow_verify variant pub_file message_file sig_file w).
Proof.
  destruct w as [f m sc tr]. wp_showcase.
  all: released_leaf.
Qed.
End Released_verify.

(** ** What a verify sample accepts *)

Ltac sound_leaf :=
  wp_simpl;
  let H := fresh "H" in
  intros H; try discriminate H;
  lazymatch type of H with
  | retval_of ?r = IQR_OK => destruct r as [[]|?] eqn:?; [|discriminate H]
  end;
  use_lookups;
  repeat eexists; try eassumption; try reflexivity.

Section Verify_sound.
Context {V : Verifier}.

Lemma xmssmt_verify_sound variant digest pub_file sig_file w :
  fst (showcase_xmssmt_verify variant digest pub_file sig_file w) = IQR_OK ->
  exists params p s key,
    VCreateParams variant = Ok params
    /\ fs w !! pub_file = Some p /\ fs w !! sig_file = Some s
    /\ ImportPublicKey params p = Ok key
    /\ Verify key digest s = Ok tt.
Proof.
  destruct w as [f m sc tr]. cbn [fs]. wp_showcase.
  all: sound_leaf.
Qed.

Lemma rainbow_verify_sound variant pub_file message_file sig_file w :
  fst (showcase_rainbow_verify variant pub_file message_file sig_file w) = IQR_OK ->
  exists params p s msg key,
    VCreateParams variant = Ok params
    /\ fs w !! pub_file = Some p /\ fs w !! sig_file = Some s
    /\ fs w !! message_file = Some msg
    /\ ImportPublicKey params p = Ok key
    /\ Verify key msg s = Ok tt.
Proof.
  destruct w as [f m sc tr]. cbn [fs]. wp_showcase.
  all: sound_leaf.
Qed.
End Verify_sound.

(** ** A primitive that fails *)

Section Primitive_fails.
Context {T : Toolkit}.
Variables (rng : RNG) (variant : Variant) (digest : bytes) (n : Z).
Variables (priv_file state_file out_file : string).
Variables (params : Params) (blob : bytes) (state : State) (e : iqr_error).
Hypothesis Hparams : CreateParams variant = Ok params.
Hypothesis Himport : ImportState params blob = Ok state.

Section Sign_fails.
Hypothesis Hsign : forall priv sig_size, Sign priv rng digest state sig_size = Fail e.

Lemma xmss_sign_fails_refused w :
  fs w !! state_file = Some blob ->
  refused w (showcase_xmss_sign rng variant digest priv_file state_file out_file w).
Proof.
  destruct w as [f m sc tr]. cbn [fs]. intros Hfile.
  unfold showcase_xmss_sign. apply wp_with_end. unfold xmss_sign_body, sign_end.
  repeat first [rewrite Hsign; wp_simpl | wp_step].
  all: refused_leaf.
Qed.

Lemma hss_sign_fails_refused w :
  fs w !! state_file = Some blob ->
  refused w (showcase_hss_sign rng variant digest priv_file state_file out_file w).
Proof.
  destruct w as [f m sc tr]. cbn [fs]. intros Hfile.
  unfold showcase_hss_sign. apply wp_with_end. unfold hss_sign_body, sign_end.
  repeat first [rewrite Hsign; wp_simpl | wp_step].
  all: refused_leaf.
Qed.

Variables (key : bytes) (priv : PrivateKey) (sig_size : nat) (max_sigs remaining : Z).
Hypothesis Hpriv : ImportPrivateKey params key = Ok priv.
Hypothesis Hsize : GetSignatureSize params = Ok sig_size.
Hypothesis Hcount : GetSignatureCount state = Ok (max_sigs, remaining).
Hypothesis Hleft : (remaining =? 0)%Z = false.

Lemma xmss_sign_fails_with w :
  script w = [] ->
  fs w !! priv_file = Some key ->
  fs w !! state_file = Some blob ->
  fst (showcase_xmss_sign rng variant digest priv_file state_file out_file w) = IQR_E e.
Proof.
  destruct w as [f m sc tr]. cbn [fs script]. intros -> Hkey Hfile.
  unfold showcase_xmss_sign. apply wp_with_end. unfold xmss_sign_body, sign_end.
  repeat first [rewrite Hsign; wp_simpl | rewrite Hleft; wp_simpl | wp_step].
  all: reflexivity.
Qed.

Lemma hss_sign_fails_with w :
  script w = [] ->
  fs w !! priv_file = Some key ->
  fs w !! state_file = Some blob ->
  fst (showcase_hss_sign rng variant digest priv_file state_file out_file w) = IQR_E e.
Proof.
  destruct w as [f m sc tr]. cbn [fs script]. intros -> Hkey Hfile.
  unfold showcase_hss_sign. apply wp_with_end. unfold hss_sign_body, sign_end.
  repeat first [rewrite Hsign; wp_simpl | wp_step].
  all: reflexivity.
Qed.
End Sign_fails.

Section Detach_fails.
Hypothesis Hdetach : forall priv, DetachState priv state n = Fail e.

Lemma xmss_detach_fails_refused w :
  fs w !! state_file = Some blob ->
  refused w (showcase_xmss_detach variant priv_file state_file n out_file w).
Proof.
  destruct w as [f m sc tr]. cbn [fs]. intros Hfile.
  unfold showcase_xmss_detach. apply wp_with_end. unfold xmss_detach_body, detach_end.
  repeat first [rewrite Hdetach; wp_simpl | wp_step].
  all: refused_leaf.
Qed.

Lemma xmssmt_detach_fails_refused w :
  fs w !! state_file = Some blob ->
  refused w (showcase_xmssmt_detach variant priv_file state_file n out_file w).
Proof.
  destruct w as [f m sc tr]. cbn [fs]. intros Hfile.
  unfold showcase_xmssmt_detach. apply wp_with_end. unfold xmssmt_detach_body, detach_end.
  repeat first [rewrite Hdetach; wp_simpl | wp_step].
  all: refused_leaf.
Qed.

Variables (key : bytes) (priv : PrivateKey).
Hypothesis Hpriv : ImportPrivateKey params key = Ok priv.

Lemma xmss_detach_fails_with w :
  script w = [] ->
  fs w !! priv_file = Some key ->
  fs w !! state_file = Some blob ->
  fst (showcase_xmss_detach variant priv_file state_file n out_file w) = IQR_E e.
Proof.
  destruct w as [f m sc tr]. cbn [fs script]. intros -> Hkey Hfile.
  unfold showcase_xmss_detach. apply wp_with_end. unfold xmss_detach_body, detach_end.
  repeat first [rewrite Hdetach; wp_simpl | wp_step].
  all: reflexivity.
Qed.

Lemma xmssmt_detach_fails_with w :
  script w = [] ->
  fs w !! priv_file = Some key ->
  fs w !! state_file = Some blob ->
  fst (showcase_xmssmt_detach variant priv_file state_file n out_file w) = IQR_E e.
Proof.
  destruct w as [f m sc tr]. cbn [fs script]. intros -> Hkey Hfile.
  unfold showcase_xmssmt_detach. apply wp_with_end. unfold xmssmt_detach_body, detach_end.
  repeat first [rewrite Hdetach; wp_simpl | wp_step].
  all: reflexivity.
Qed.
End Detach_fails.
End Primitive_fails.

(** ** [init_toolkit] and [main] *)

Lemma wp_attempt {A} (m : M A) (Q : res (res A) -> World -> Prop) w :
  wp m (fun r w' => Q (Ok r) w') w -> wp (attempt m) Q w.
Proof. unfold wp, attempt. auto. Qed.

Lemma wp_mono {A} (m : M A) (Q Q' : res A -> World -> Prop) w :
  wp m Q w -> (forall r w', Q r w' -> Q' r w') -> wp m Q' w.
Proof. unfold wp. auto. Qed.

Lemma main_from_ways {A} (init : M A) showcase (P : Z * World -> Prop) w :
  wp init (fun r w1 => match r with
                       | Ok a => P (exit_status (showcase a w1))
                       | Fail _ => P (EXIT_FAILURE, w1)
                       end) w ->
  P (main_from init showcase w).
Proof.
  unfold wp, main_from. destruct (init w) as [[a|e] w1]; auto.
Qed.

Lemma exit_status_success x : fst (exit_status x) = EXIT_SUCCESS -> fst x = IQR_OK.
Proof. destruct x as [[|e] w]; [reflexivity|discriminate]. Qed.

Ltac wp_init_step :=
  lazymatch goal with
  | |- wp (attempt _) _ _ => apply wp_attempt
  | _ => wp_step
  end.

Ltac wp_init :=
  unfold xmss_sign_init_toolkit, hss_sign_init_toolkit, xmssmt_verify_init_toolkit,
    rainbow_verify_init_toolkit, digest_of_message, create_digest;
  repeat wp_init_step.

Ltac only_these :=
  let prim := fresh "prim" in
  let Hin := fresh "Hin" in
  unfold bootstrap_primitives;
  intros prim Hin; cbn [In] in Hin;
  repeat (destruct Hin as [Hin|Hin];
          [first [discriminate Hin | injection Hin as <-; in_list]|]);
  contradiction.

Ltac digest_leaf :=
  unfold digest_of; use_lookups; cbn [buf default from_option id] in *;
  repeat eexists; try eassumption; try reflexivity; try discriminate.

(** The test [message_raw_size < 1] on a file whose contents are known. *)
Ltac size_test :=
  match goal with
  | Hb : Nat.ltb _ 1 = _ |- _ => cbn in Hb; discriminate Hb
  end.

Ltac sign_init_leaf :=
  first
    [ size_test
    | unfold sign_init_post; wp_simpl; flatten_trace;
      split; [reflexivity|];
      split; [intros ->; reflexivity|];
      eexists; split; [reflexivity|];
      split; [reflexivity|];
      split; [only_these|];
      split;
      [ let Hr := fresh "Hr" in
        intros ? ? Hr; first [discriminate Hr | injection Hr as <- <-; digest_leaf]
      | let Hb := fresh "Hb" in
        use_lookups; cbn [buf default from_option id];
        intros Hb; first [discriminate Hb | split; [eexists; reflexivity | not_in]] ] ].

Ltac verify_init_leaf :=
  unfold verify_init_post; wp_simpl; flatten_trace;
  split; [reflexivity|];
  eexists; split; [reflexivity|];
  split; [reflexivity|];
  split; [only_these|];
  let Hr := fresh "Hr" in
  intros ? Hr; first [discriminate Hr | injection Hr as <-; digest_leaf].

Section Init_ways.
Context {H : Hashing} {RNG : Type} {R : RandomSource RNG}.

Lemma xmss_sign_init_toolkit_ways message_file seed w :
  wp (xmss_sign_init_toolkit message_file seed) (sign_init_post message_file seed w) w.
Proof.
  destruct w as [f m sc tr]. wp_init.
  all: sign_init_leaf.
Qed.

Lemma hss_sign_init_toolkit_ways message_file seed w :
  wp (hss_sign_init_toolkit message_file seed) (sign_init_post message_file seed w) w.
Proof.
  destruct w as [f m sc tr]. wp_init.
  all: sign_init_leaf.
Qed.

Lemma xmssmt_verify_init_toolkit_ways message_file w :
  wp (xmssmt_verify_init_toolkit message_file) (verify_init_post message_file w) w.
Proof.
  destruct w as [f m sc tr]. wp_init.
  all: verify_init_leaf.
Qed.

Lemma rainbow_verify_init_toolkit_ways w :
  wp rainbow_verify_init_toolkit
     (fun _ w' => fs w' = fs w /\ script w' = script w) w.
Proof.
  destruct w as [f m sc tr]. wp_init.
  all: wp_simpl; split; reflexivity.
Qed.
End Init_ways.

Lemma not_bootstrap prim evs :
  (forall p, In (EvCall p) evs -> In p bootstrap_primitives) ->
  ~ In prim bootstrap_primitives ->
  ~ In (EvCall prim) evs.
Proof. intros Hall Hn Hin. apply Hn, Hall, Hin. Qed.

Ltac not_a_bootstrap_primitive :=
  let Hin := fresh "Hin" in
  unfold bootstrap_primitives; cbn [In]; intros Hin;
  repeat (destruct Hin as [Hin|Hin]; [discriminate Hin|]); contradiction.

Section Sign_main_facts.
Context {T : Toolkit} {H : Hashing} {R : RandomSource RNG}.

(** A message file without bytes, at [init_toolkit] and at a [main]
    that goes on from it. *)
Lemma sign_init_empty_message (init : M (RNG * bytes)) message_file seed
    (showcase : RNG * bytes -> World -> iqr_retval * World) sign_prim w :
  wp init (sign_init_post message_file seed w) w ->
  ~ In sign_prim bootstrap_primitives ->
  buf (fs w !! message_file) = [] ->
  let x := main_from init showcase w in
  fst x = EXIT_FAILURE /\ fs (snd x) = fs w
  /\ exists evs,
       trace (snd x) = trace w ++ evs /\ writes evs = []
       /\ ~ In (EvCall "iqr_HashMessage") evs /\ ~ In (EvCall sign_prim) evs.
Proof.
  intros Hinit Hprim Hb. cbv zeta. apply main_from_ways.
  eapply wp_mono; [exact Hinit|].
  intros r w1 (Hfs & _ & evs & Htr & Hw & Hprims & _ & Hempty).
  destruct (Hempty Hb) as [[e ->] Hnh]. cbn [fst snd].
  split_all; [reflexivity | exact Hfs |].
  exists evs. split_all; try assumption.
  now apply not_bootstrap.
Qed.

Lemma xmss_sign_init_invbufsize message_file seed rng0 rng w :
  CreateContext = Ok tt ->
  (forall alg, HashRegisterCallbacks alg = Ok tt) ->
  RNGCreateHMACDRBG IQR_HASHALGO_SHA2_256 = Ok rng0 ->
  RNGInitialize rng0 seed = Ok rng ->
  hd Succeeds (script w) = Succeeds ->
  fs w !! message_file = Some [] ->
  fst (xmss_sign_init_toolkit message_file seed w) = Fail EINVBUFSIZE.
Proof.
  destruct w as [f m sc tr]. cbn [script fs]. intros Hc Hh Hr Hi Hs Hf.
  change (wp (xmss_sign_init_toolkit message_file seed)
            (fun r _ => r = Fail EINVBUFSIZE) (mkWorld f m sc tr)).
  unfold xmss_sign_init_toolkit.
  repeat first [rewrite Hh; wp_simpl | wp_init_step].
  all: first [size_test | reflexivity].
Qed.

Lemma hss_sign_init_invbufsize message_file seed rng0 rng w :
  CreateContext = Ok tt ->
  (forall alg, HashRegisterCallbacks alg = Ok tt) ->
  RNGCreateHMACDRBG IQR_HASHALGO_SHA2_256 = Ok rng0 ->
  RNGInitialize rng0 seed = Ok rng ->
  hd Succeeds (script w) = Succeeds ->
  fs w !! message_file = Some [] ->
  fst (hss_sign_init_toolkit message_file seed w) = Fail EINVBUFSIZE.
Proof.
  destruct w as [f m sc tr]. cbn [script fs]. intros Hc Hh Hr Hi Hs Hf.
  change (wp (hss_sign_init_toolkit message_file seed)
            (fun r _ => r = Fail EINVBUFSIZE) (mkWorld f m sc tr)).
  unfold hss_sign_init_toolkit.
  repeat first [rewrite Hh; wp_simpl | wp_init_step].
  all: first [size_test | reflexivity].
Qed.

(** A [main] that exits with success, in an environment without
    faults, has signed the digest of the message file and saved state and
    signature. *)
Lemma sign_main_success (init : M (RNG * bytes)) message_file seed variant
    priv_file state_file sig_file
    (showcase : RNG -> Variant -> bytes -> string -> string -> string ->
                World -> iqr_retval * World) w :
  wp init (sign_init_post message_file seed w) w ->
  (forall rng digest w1,
     script w1 = [] ->
     fst (showcase rng variant digest priv_file state_file sig_file w1) = IQR_OK ->
     exists params priv state sig_size state' sgn e,
       CreateParams variant = Ok params
       /\ ImportPrivateKey params (buf (fs w1 !! priv_file)) = Ok priv
       /\ ImportState params (buf (fs w1 !! state_file)) = Ok state
       /\ GetSignatureSize params = Ok sig_size
       /\ Sign priv rng digest state sig_size = Ok (state', sgn)
       /\ ExportState state' (length (buf (fs w1 !! state_file))) = Ok e
       /\ fs (snd (showcase rng variant digest priv_file state_file sig_file w1))
          = <[sig_file := overwrite (repeat x00 sig_size) sgn]>
              (<[state_file := overwrite (buf (fs w1 !! state_file)) e]> (fs w1))) ->
  script w = [] ->
  let x := main_from init
             (fun '(rng, digest) =>
                showcase rng variant digest priv_file state_file sig_file) w in
  fst x = EXIT_SUCCESS ->
  exists msg digest rng0 rng params priv state sig_size state' sgn e,
    msg <> [] /\ digest_of (fs w) message_file msg digest
    /\ RNGCreateHMACDRBG IQR_HASHALGO_SHA2_256 = Ok rng0
    /\ RNGInitialize rng0 seed = Ok rng
    /\ CreateParams variant = Ok params
    /\ ImportPrivateKey params (buf (fs w !! priv_file)) = Ok priv
    /\ ImportState params (buf (fs w !! state_file)) = Ok state
    /\ Sign priv rng digest state sig_size = Ok (state', sgn)
    /\ ExportState state' (length (buf (fs w !! state_file))) = Ok e
    /\ fs (snd x)
       = <[sig_file := overwrite (repeat x00 sig_size) sgn]>
           (<[state_file := overwrite (buf (fs w !! state_file)) e]> (fs w)).
Proof.
  intros Hinit Hsuccess Hscript. cbv zeta. apply main_from_ways.
  eapply wp_mono; [exact Hinit|].
  intros r w1 (Hfs & Hsc & evs & Htr & Hw & Hprims & Hok & _).
  destruct r as [[rng digest]|e]; [|discriminate].
  intros Hs. apply exit_status_success in Hs.
  destruct (Hok rng digest eq_refl) as (msg & rng0 & Hne & Hr0 & Hr & Hd).
  destruct (Hsuccess rng digest w1 (Hsc Hscript) Hs)
    as (params & priv & state & sig_size & state' & sgn & e
        & H1 & H2 & H3 & H4 & H5 & H6 & H7).
  rewrite Hfs in H2, H3, H6, H7.
  exists msg, digest, rng0, rng, params, priv, state, sig_size, state', sgn, e.
  split_all; assumption.
Qed.
End Sign_main_facts.

Section Verify_main_facts.
Context {V : Verifier} {H : Hashing}.

Lemma xmssmt_verify_main_sound variant_of argv w :
  let x := xmssmt_verify_main variant_of argv w in
  fs (snd x) = fs w
  /\ (fst x = EXIT_SUCCESS ->
      exists a msg digest params p s key,
        xmssmt_verify_parse_commandline argv xmssmt_verify_defaults = Ok a
        /\ digest_of (fs w) (xv_message a) msg digest
        /\ VCreateParams (variant_of (xv_variant a)) = Ok params
        /\ fs w !! xv_pub a = Some p /\ fs w !! xv_sig a = Some s
        /\ ImportPublicKey params p = Ok key
        /\ Verify key digest s = Ok tt).
Proof.
  cbv zeta. unfold xmssmt_verify_main.
  destruct (xmssmt_verify_parse_commandline argv xmssmt_verify_defaults) as [a|e] eqn:Hp;
    [|split; [reflexivity|discriminate]].
  apply main_from_ways.
  eapply wp_mono; [apply xmssmt_verify_init_toolkit_ways|].
  intros r w1 (Hfs & evs & Htr & Hw & Hprims & Hok).
  destruct r as [digest|e]; [|split; [exact Hfs|discriminate]].
  split.
  - cbn [exit_status snd]. now rewrite xmssmt_verify_reads_only.
  - intros Hs. apply exit_status_success in Hs.
    apply xmssmt_verify_sound in Hs as (params & p & s & key & H1 & H2 & H3 & H4 & H5).
    rewrite Hfs in H2, H3.
    destruct (Hok digest eq_refl) as (msg & Hd).
    exists a, msg, digest, params, p, s, key. split_all; auto.
Qed.

Lemma rainbow_verify_main_sound variant_of argv w :
  let x := rainbow_verify_main variant_of argv w in
  fs (snd x) = fs w
  /\ (fst x = EXIT_SUCCESS ->
      exists a msg params p s key,
        rainbow_verify_parse_commandline argv rainbow_verify_defaults = Ok a
        /\ VCreateParams (variant_of (rv_variant a)) = Ok params
        /\ fs w !! rv_pub a = Some p /\ fs w !! rv_sig a = Some s
        /\ fs w !! rv_message a = Some msg
        /\ ImportPublicKey params p = Ok key
        /\ Verify key msg s = Ok tt).
Proof.
  cbv zeta. unfold rainbow_verify_main.
  destruct (rainbow_verify_parse_commandline argv rainbow_verify_defaults) as [a|e] eqn:Hp;
    [|split; [reflexivity|discriminate]].
  apply main_from_ways.
  eapply wp_mono; [apply rainbow_verify_init_toolkit_ways|].
  intros r w1 (Hfs & _).
  destruct r as [[]|e]; [|split; [exact Hfs|discriminate]].
  split.
  - cbn [exit_status snd]. now rewrite rainbow_verify_reads_only.
  - intros Hs. apply exit_status_success in Hs.
    apply rainbow_verify_sound in Hs
      as (params & p & s & msg & key & H1 & H2 & H3 & H4 & H5 & H6).
    rewrite Hfs in H2, H3, H4.
    exists a, msg, params, p, s, key. split_all; auto.
Qed.
End Verify_main_facts.

(** ** The samples on their files *)

(** X9.  Without the private key file or without the state file each of
    the four stateful samples fails with [IQR_EBADVALUE] (once the
    parameters are made), whatever else fails in the environment: no file
    is written or changed, and the toolkit is not given a key to import. *)
Theorem missing_key_or_state_file_refused {T : Toolkit} (rng : RNG) (variant : Variant)
    (digest : bytes) (n : Z) (priv_file state_file out_file : string) (params : Params)
    (w : World) :
  CreateParams variant = Ok params ->
  fs w !! priv_file = None \/ fs w !! state_file = None ->
  (let x := showcase_xmss_sign rng variant digest priv_file state_file out_file w in
   fst x = IQR_EBADVALUE /\ storage_untouched w x
   /\ never_called "iqr_XMSSImportPrivateKey" w x)
  /\ (let x := showcase_hss_sign rng variant digest priv_file state_file out_file w in
      fst x = IQR_EBADVALUE /\ storage_untouched w x
      /\ never_called "iqr_HSSImportPrivateKey" w x)
  /\ (let x := showcase_xmss_detach variant priv_file state_file n out_file w in
      fst x = IQR_EBADVALUE /\ storage_untouched w x
      /\ never_called "iqr_XMSSImportPrivateKey" w x)
  /\ (let x := showcase_xmssmt_detach variant priv_file state_file n out_file w in
      fst x = IQR_EBADVALUE /\ storage_untouched w x
      /\ never_called "iqr_XMSSMTImportPrivateKey" w x).
Proof.
  intros Hp Hf. split_all.
  - exact (xmss_sign_missing_file rng variant digest priv_file state_file out_file params
             Hp w Hf).
  - exact (hss_sign_missing_file rng variant digest priv_file state_file out_file params
             Hp w Hf).
  - exact (xmss_detach_missing_file variant n priv_file state_file out_file params Hp w Hf).
  - exact (xmssmt_detach_missing_file variant n priv_file state_file out_file params
             Hp w Hf).
Qed.

Lemma missing_key_or_state_file_refused_witness :
  fst (showcase_xmss_sign (XMSS := Reference.toolkit) tt 10 [x01]
         "priv.key" "priv.state" "sig.dat"
         (mkWorld (<["priv.key" := Reference.key]> ∅) (fun _ => None) [] []))
  = IQR_EBADVALUE.
Proof.
  refine (proj1 (proj1 (missing_key_or_state_file_refused (T := Reference.toolkit) tt 10
                          [x01] 1%Z "priv.key" "priv.state" "sig.dat" 10
                          (mkWorld (<["priv.key" := Reference.key]> ∅) (fun _ => None) [] [])
                          eq_refl _))).
  right. reflexivity.
Defined.

(** X10.  In an environment without faults, a run that returns [IQR_OK]
    and whose output path is not the state file leaves the state file with
    the size it had: the sign samples export the advanced state into the
    buffer the file was loaded into and save that buffer, and the detach
    samples save it twice, so that the detached-state file has the size of
    the parent's (the buffer of [iqr_*GetStateSize] bytes they allocate is
    not used). *)
Theorem state_file_keeps_its_size {T : Toolkit} (rng : RNG) (variant : Variant)
    (digest : bytes) (n : Z) (priv_file state_file out_file : string) (w : World) :
  script w = [] ->
  state_file <> out_file ->
  let size := length (buf (fs w !! state_file)) in
  (let x := showcase_xmss_sign rng variant digest priv_file state_file out_file w in
   fst x = IQR_OK ->
   exists blob, fs (snd x) !! state_file = Some blob /\ length blob = size)
  /\ (let x := showcase_hss_sign rng variant digest priv_file state_file out_file w in
      fst x = IQR_OK ->
      exists blob, fs (snd x) !! state_file = Some blob /\ length blob = size)
  /\ (let x := showcase_xmss_detach variant priv_file state_file n out_file w in
      fst x = IQR_OK ->
      exists blob dblob,
        fs (snd x) !! state_file = Some blob /\ fs (snd x) !! out_file = Some dblob
        /\ length blob = size /\ length dblob = size)
  /\ (let x := showcase_xmssmt_detach variant priv_file state_file n out_file w in
      fst x = IQR_OK ->
      exists blob dblob,
        fs (snd x) !! state_file = Some blob /\ fs (snd x) !! out_file = Some dblob
        /\ length blob = size /\ length dblob = size).
Proof.
  intros Hsc Hne size. split_all; cbv zeta; intros Hok.
  - destruct (xmss_sign_success rng variant digest priv_file state_file out_file w Hsc Hok)
      as (? & ? & ? & ? & ? & ? & e & _ & _ & _ & _ & _ & _ & ->).
    eexists. rewrite lookup_insert_ne, lookup_insert_eq by congruence.
    split; [reflexivity|apply overwrite_length].
  - destruct (hss_sign_success rng variant digest priv_file state_file out_file w Hsc Hok)
      as (? & ? & ? & ? & ? & ? & e & _ & _ & _ & _ & _ & _ & ->).
    eexists. rewrite lookup_insert_ne, lookup_insert_eq by congruence.
    split; [reflexivity|apply overwrite_length].
  - destruct (xmss_detach_success variant priv_file state_file n out_file w Hsc Hok)
      as (? & ? & ? & ? & ? & e1 & e2 & _ & _ & _ & _ & _ & _ & ->).
    eexists _, _. rewrite lookup_insert_ne, !lookup_insert_eq by congruence.
    split_all; try reflexivity; now rewrite !overwrite_length.
  - destruct (xmssmt_detach_success variant priv_file state_file n out_file w Hsc Hok)
      as (? & ? & ? & ? & ? & e1 & e2 & _ & _ & _ & _ & _ & _ & ->).
    eexists _, _. rewrite lookup_insert_ne, !lookup_insert_eq by congruence.
    split_all; try reflexivity; now rewrite !overwrite_length.
Qed.

Lemma state_file_keeps_its_size_witness :
  let w := Reference.world Reference.fresh_state [] in
  let x := showcase_xmss_detach (XMSS := Reference.toolkit) 10 "priv.key" "priv.state" 2
             "detached.state" w in
  exists blob dblob,
    fs (snd x) !! "priv.state" = Some blob /\ fs (snd x) !! "detached.state" = Some dblob
    /\ length blob = 24 /\ length dblob = 24.
Proof.
  refine (proj1 (proj2 (proj2 (state_file_keeps_its_size (T := Reference.toolkit) tt 10 []
                                  2%Z "priv.key" "priv.state" "detached.state"
                                  (Reference.world Reference.fresh_state []) _ _))) _).
  - reflexivity.
  - discriminate.
  - reflexivity.
Defined.

(** X11.  On every way out of the six showcase functions, whatever fails,
    no buffer is freed twice, and every local buffer that is not NULL at the
    return has been freed. *)
Theorem buffers_freed_once {T : Toolkit} {V : Verifier} (rng : RNG) (variant : Variant)
    (vvariant : VVariant) (digest : bytes) (n : Z)
    (priv_file state_file out_file pub_file message_file sig_file : string) (w : World) :
  buffers_released w
    (showcase_xmss_sign rng variant digest priv_file state_file out_file w)
  /\ buffers_released w
       (showcase_hss_sign rng variant digest priv_file state_file out_file w)
  /\ buffers_released w
       (showcase_xmss_detach variant priv_file state_file n out_file w)
  /\ buffers_released w
       (showcase_xmssmt_detach variant priv_file state_file n out_file w)
  /\ buffers_released w
       (showcase_xmssmt_verify vvariant digest pub_file sig_file w)
  /\ buffers_released w
       (showcase_rainbow_verify vvariant pub_file message_file sig_file w).
Proof.
  split_all.
  - apply xmss_sign_buffers_released.
  - apply hss_sign_buffers_released.
  - apply xmss_detach_buffers_released.
  - apply xmssmt_detach_buffers_released.
  - apply xmssmt_verify_buffers_released.
  - apply rainbow_verify_buffers_released.
Qed.

(** X12.  No sample looks whether its two output paths differ.  In an
    environment without faults: when the signature is to go to the state
    file, a sign sample that returns [IQR_OK] has left there the signature
    it made from the state the file held, and not the advanced state; when
    the detached state is to go to the parent's state file, a detach
    sample that returns [IQR_OK] has left there the export of the state it
    detached from the one the file held, on top of the parent's, which an
    export that fills the buffer replaces altogether. *)
Theorem same_output_path_overwrites {T : Toolkit} (rng : RNG) (variant : Variant)
    (digest : bytes) (n : Z) (priv_file state_file : string) (w : World) :
  script w = [] ->
  let old := buf (fs w !! state_file) in
  let signed x :=
    fst x = IQR_OK ->
    exists params priv state sig_size state' sgn,
      CreateParams variant = Ok params
      /\ ImportPrivateKey params (buf (fs w !! priv_file)) = Ok priv
      /\ ImportState params old = Ok state
      /\ GetSignatureSize params = Ok sig_size
      /\ Sign priv rng digest state sig_size = Ok (state', sgn)
      /\ fs (snd x) !! state_file = Some (overwrite (repeat x00 sig_size) sgn) in
  let detached x :=
    fst x = IQR_OK ->
    exists params priv state parent detached e1 e2,
      CreateParams variant = Ok params
      /\ ImportPrivateKey params (buf (fs w !! priv_file)) = Ok priv
      /\ ImportState params old = Ok state
      /\ DetachState priv state n = Ok (parent, detached)
      /\ ExportState parent (length old) = Ok e1
      /\ ExportState detached (length old) = Ok e2
      /\ fs (snd x) !! state_file = Some (overwrite (overwrite old e1) e2)
      /\ (length old <= length e2 ->
          fs (snd x) !! state_file = Some (take (length old) e2)) in
  signed (showcase_xmss_sign rng variant digest priv_file state_file state_file w)
  /\ signed (showcase_hss_sign rng variant digest priv_file state_file state_file w)
  /\ detached (showcase_xmss_detach variant priv_file state_file n state_file w)
  /\ detached (showcase_xmssmt_detach variant priv_file state_file n state_file w).
Proof.
  intros Hsc old. cbv zeta. split_all; intros Hok.
  - destruct (xmss_sign_success rng variant digest priv_file state_file state_file w Hsc Hok)
      as (params & priv & state & sig_size & state' & sgn & e
          & H1 & H2 & H3 & H4 & H5 & _ & ->).
    exists params, priv, state, sig_size, state', sgn. split_all; try assumption.
    now rewrite lookup_insert_eq.
  - destruct (hss_sign_success rng variant digest priv_file state_file state_file w Hsc Hok)
      as (params & priv & state & sig_size & state' & sgn & e
          & H1 & H2 & H3 & H4 & H5 & _ & ->).
    exists params, priv, state, sig_size, state', sgn. split_all; try assumption.
    now rewrite lookup_insert_eq.
  - destruct (xmss_detach_success variant priv_file state_file n state_file w Hsc Hok)
      as (params & priv & state & parent & detached & e1 & e2
          & H1 & H2 & H3 & H4 & H5 & H6 & ->).
    exists params, priv, state, parent, detached, e1, e2.
    rewrite lookup_insert_eq. split_all; try assumption; try reflexivity.
    intros Hl. f_equal. rewrite overwrite_filled by (now rewrite overwrite_length).
    now rewrite overwrite_length.
  - destruct (xmssmt_detach_success variant priv_file state_file n state_file w Hsc Hok)
      as (params & priv & state & parent & detached & e1 & e2
          & H1 & H2 & H3 & H4 & H5 & H6 & ->).
    exists params, priv, state, parent, detached, e1, e2.
    rewrite lookup_insert_eq. split_all; try assumption; try reflexivity.
    intros Hl. f_equal. rewrite overwrite_filled by (now rewrite overwrite_length).
    now rewrite overwrite_length.
Qed.

Lemma same_output_path_overwrites_witness :
  let w := Reference.world Reference.fresh_state [] in
  let x := showcase_xmss_detach (XMSS := Reference.toolkit) 10 "priv.key" "priv.state" 2
             "priv.state" w in
  let old := Reference.export Reference.fresh_state in
  fst x = IQR_OK
  /\ exists params priv state parent detached e1 e2,
       Reference.create_params 10 = Ok params
       /\ Reference.import_private_key params Reference.key = Ok priv
       /\ Reference.import old = Ok state
       /\ Reference.detach_state priv state 2 = Ok (parent, detached)
       /\ Reference.export_state parent 24 = Ok e1
       /\ Reference.export_state detached 24 = Ok e2
       /\ fs (snd x) !! "priv.state" = Some (overwrite (overwrite old e1) e2)
       /\ (24 <= length e2 -> fs (snd x) !! "priv.state" = Some (take 24 e2)).
Proof.
  split; [reflexivity|].
  exact (proj1 (proj2 (proj2 (same_output_path_overwrites (T := Reference.toolkit) tt 10 []
                                 2%Z "priv.key" "priv.state"
                                 (Reference.world Reference.fresh_state []) eq_refl)))
               eq_refl).
Defined.

(** X13.  A verify sample returns [IQR_OK] only for a signature the
    toolkit verified, whatever fails in the environment: the public key
    file and the signature file exist, the key imported from the one
    verifies the contents of the other over the digest (XMSS^MT) or over
    the contents of the message file (Rainbow). *)
Theorem verify_accepts_only_verified {V : Verifier} (variant : VVariant) (digest : bytes)
    (pub_file message_file sig_file : string) (w : World) :
  (fst (showcase_xmssmt_verify variant digest pub_file sig_file w) = IQR_OK ->
   exists params p s key,
     VCreateParams variant = Ok params
     /\ fs w !! pub_file = Some p /\ fs w !! sig_file = Some s
     /\ ImportPublicKey params p = Ok key
     /\ Verify key digest s = Ok tt)
  /\ (fst (showcase_rainbow_verify variant pub_file message_file sig_file w) = IQR_OK ->
      exists params p s msg key,
        VCreateParams variant = Ok params
        /\ fs w !! pub_file = Some p /\ fs w !! sig_file = Some s
        /\ fs w !! message_file = Some msg
        /\ ImportPublicKey params p = Ok key
        /\ Verify key msg s = Ok tt).
Proof.
  split.
  - apply xmssmt_verify_sound.
  - apply rainbow_verify_sound.
Qed.

Lemma verify_accepts_only_verified_witness :
  exists params p s key,
    Reference.verifier.(VCreateParams) tt = Ok params
    /\ fs Reference.verify_world !! "pub.key" = Some p
    /\ fs Reference.verify_world !! "sig.dat" = Some s
    /\ Reference.verifier.(ImportPublicKey) params p = Ok key
    /\ Reference.verify key [x03] s = Ok tt.
Proof.
  exact (proj1 (verify_accepts_only_verified (V := Reference.verifier) tt [x03]
                  "pub.key" "message.dat" "sig.dat" Reference.verify_world)
               eq_refl).
Defined.

(** ** The programs *)

(** X14.  The sign samples do not sign a message without bytes.  When the
    message file is missing or empty, [main] of [xmss/sign/main.c] and of
    [hss/sign/main.c] exits with [EXIT_FAILURE], whatever else fails: no
    file is written or changed, nothing is hashed and nothing is signed.
    For an empty file that opens, after a bootstrap that succeeds,
    [init_toolkit] returns [IQR_EINVBUFSIZE]. *)
Theorem sign_refuses_empty_message {T : Toolkit} {H : Hashing} {R : RandomSource RNG}
    (xmss_variant : xmss_sign_strategy -> iqr_XMSSHeight -> Variant)
    (hss_variant : iqr_HSSTreeStrategy -> iqr_HSSWinternitz -> iqr_HSSHeight -> Variant)
    (argv : list string) (seed : bytes) (w : World) :
  (forall a, xmss_sign_parse_commandline argv xmss_sign_defaults = Ok a ->
     buf (fs w !! xs_message a) = [] ->
     let x := xmss_sign_main xmss_variant argv seed w in
     fst x = EXIT_FAILURE /\ fs (snd x) = fs w
     /\ exists evs,
          trace (snd x) = trace w ++ evs /\ writes evs = []
          /\ ~ In (EvCall "iqr_HashMessage") evs /\ ~ In (EvCall "iqr_XMSSSign") evs)
  /\ (forall a, hss_sign_parse_commandline argv hss_sign_defaults = Ok a ->
        buf (fs w !! hs_message a) = [] ->
        let x := hss_sign_main hss_variant argv seed w in
        fst x = EXIT_FAILURE /\ fs (snd x) = fs w
        /\ exists evs,
             trace (snd x) = trace w ++ evs /\ writes evs = []
             /\ ~ In (EvCall "iqr_HashMessage") evs /\ ~ In (EvCall "iqr_HSSSign") evs)
  /\ (forall message_file rng0 rng,
        CreateContext = Ok tt ->
        (forall alg, HashRegisterCallbacks alg = Ok tt) ->
        RNGCreateHMACDRBG IQR_HASHALGO_SHA2_256 = Ok rng0 ->
        RNGInitialize rng0 seed = Ok rng ->
        hd Succeeds (script w) = Succeeds ->
        fs w !! message_file = Some [] ->
        fst (xmss_sign_init_toolkit message_file seed w) = Fail EINVBUFSIZE
        /\ fst (hss_sign_init_toolkit message_file seed w) = Fail EINVBUFSIZE).
Proof.
  split_all.
  - intros a Hp Hb. unfold xmss_sign_main. rewrite Hp.
    apply (sign_init_empty_message _ (xs_message a) seed);
      [apply xmss_sign_init_toolkit_ways | not_a_bootstrap_primitive | exact Hb].
  - intros a Hp Hb. unfold hss_sign_main. rewrite Hp.
    apply (sign_init_empty_message _ (hs_message a) seed);
      [apply hss_sign_init_toolkit_ways | not_a_bootstrap_primitive | exact Hb].
  - intros message_file rng0 rng Hc Hh Hr Hi Hs Hf. split.
    + exact (xmss_sign_init_invbufsize message_file seed rng0 rng w Hc Hh Hr Hi Hs Hf).
    + exact (hss_sign_init_invbufsize message_file seed rng0 rng w Hc Hh Hr Hi Hs Hf).
Qed.

Lemma sign_refuses_empty_message_witness :
  let w := ReferenceEngine.sign_world Reference.fresh_state [] in
  fst (xmss_sign_main (T := Reference.toolkit) (H := ReferenceEngine.hashing)
         (R := ReferenceEngine.random) (fun _ _ => 10) ["xmss_sign"] [] w)
  = EXIT_FAILURE
  /\ fst (xmss_sign_init_toolkit (H := ReferenceEngine.hashing)
            (R := ReferenceEngine.random) "message.dat" [] w)
     = Fail EINVBUFSIZE.
Proof.
  intros w.
  pose proof (sign_refuses_empty_message (T := Reference.toolkit)
                (H := ReferenceEngine.hashing) (R := ReferenceEngine.random)
                (fun _ _ => 10) (fun _ _ _ => 10) ["xmss_sign"] [] w) as (H1 & _ & H3).
  split.
  - exact (proj1 (H1 xmss_sign_defaults eq_refl eq_refl)).
  - exact (proj1 (H3 "message.dat" tt tt eq_refl (fun _ => eq_refl) eq_refl eq_refl
                     eq_refl eq_refl)).
Defined.

(** X15.  The verify programs exit with [EXIT_SUCCESS] only for a
    signature the toolkit verified, and change no file, whatever fails in
    the environment: the command line parsed; for XMSS^MT the digest is
    the one [create_digest] made of the contents of the message file; the
    key imported from the public key file verifies the contents of the
    signature file over that digest, or, for Rainbow, over the contents
    of the message file. *)
Theorem verify_main_success_means_verified {V : Verifier} {H : Hashing}
    (xmssmt_variant : iqr_XMSSMTVariant -> VVariant)
    (rainbow_variant : iqr_RainbowVariant -> VVariant)
    (argv : list string) (w : World) :
  (let x := xmssmt_verify_main xmssmt_variant argv w in
   fs (snd x) = fs w
   /\ (fst x = EXIT_SUCCESS ->
       exists a msg digest params p s key,
         xmssmt_verify_parse_commandline argv xmssmt_verify_defaults = Ok a
         /\ digest_of (fs w) (xv_message a) msg digest
         /\ VCreateParams (xmssmt_variant (xv_variant a)) = Ok params
         /\ fs w !! xv_pub a = Some p /\ fs w !! xv_sig a = Some s
         /\ ImportPublicKey params p = Ok key
         /\ Verify key digest s = Ok tt))
  /\ (let x := rainbow_verify_main rainbow_variant argv w in
      fs (snd x) = fs w
      /\ (fst x = EXIT_SUCCESS ->
          exists a msg params p s key,
            rainbow_verify_parse_commandline argv rainbow_verify_defaults = Ok a
            /\ VCreateParams (rainbow_variant (rv_variant a)) = Ok params
            /\ fs w !! rv_pub a = Some p /\ fs w !! rv_sig a = Some s
            /\ fs w !! rv_message a = Some msg
            /\ ImportPublicKey params p = Ok key
            /\ Verify key msg s = Ok tt)).
Proof.
  split.
  - apply xmssmt_verify_main_sound.
  - apply rainbow_verify_main_sound.
Qed.

Lemma verify_main_success_means_verified_witness :
  let x := xmssmt_verify_main (V := Reference.verifier) (H := ReferenceEngine.hashing)
             (fun _ => tt) ["xmssmt_verify"] ReferenceEngine.verify_world in
  fst x = EXIT_SUCCESS
  /\ exists a msg digest params p s key,
       xmssmt_verify_parse_commandline ["xmssmt_verify"] xmssmt_verify_defaults = Ok a
       /\ digest_of (H := ReferenceEngine.hashing) (fs ReferenceEngine.verify_world)
            (xv_message a) msg digest
       /\ Reference.verifier.(VCreateParams) tt = Ok params
       /\ fs ReferenceEngine.verify_world !! xv_pub a = Some p
       /\ fs ReferenceEngine.verify_world !! xv_sig a = Some s
       /\ Reference.verifier.(ImportPublicKey) params p = Ok key
       /\ Reference.verify key digest s = Ok tt.
Proof.
  split; [vm_compute; reflexivity|].
  apply (proj2 (proj1 (verify_main_success_means_verified (V := Reference.verifier)
                         (H := ReferenceEngine.hashing) (fun _ => tt) (fun _ => tt)
                         ["xmssmt_verify"] ReferenceEngine.verify_world))).
  vm_compute. reflexivity.
Defined.

(** X16.  In an environment without faults, a sign program that exits
    with [EXIT_SUCCESS] has signed the digest of the message file and saved
    state and signature: the command line parsed, the message file has
    bytes, the digest is the one [create_digest] made of them, the toolkit
    signed that digest with the generator [init_toolkit] seeded, with the
    key the key file held and from the state the state file held, and the
    files are as they were but for the state file, which holds the export
    of the advanced state, and the signature file, which holds the
    signature. *)
Theorem sign_main_success_means_signed {T : Toolkit} {H : Hashing} {R : RandomSource RNG}
    (xmss_variant : xmss_sign_strategy -> iqr_XMSSHeight -> Variant)
    (hss_variant : iqr_HSSTreeStrategy -> iqr_HSSWinternitz -> iqr_HSSHeight -> Variant)
    (argv : list string) (seed : bytes) (w : World) :
  script w = [] ->
  let signed message_file variant priv_file state_file sig_file (x : Z * World) :=
    exists msg digest rng0 rng params priv state sig_size state' sgn e,
      msg <> [] /\ digest_of (fs w) message_file msg digest
      /\ RNGCreateHMACDRBG IQR_HASHALGO_SHA2_256 = Ok rng0
      /\ RNGInitialize rng0 seed = Ok rng
      /\ CreateParams variant = Ok params
      /\ ImportPrivateKey params (buf (fs w !! priv_file)) = Ok priv
      /\ ImportState params (buf (fs w !! state_file)) = Ok state
      /\ Sign priv rng digest state sig_size = Ok (state', sgn)
      /\ ExportState state' (length (buf (fs w !! state_file))) = Ok e
      /\ fs (snd x)
         = <[sig_file := overwrite (repeat x00 sig_size) sgn]>
             (<[state_file := overwrite (buf (fs w !! state_file)) e]> (fs w)) in
  (let x := xmss_sign_main xmss_variant argv seed w in
   fst x = EXIT_SUCCESS ->
   exists a,
     xmss_sign_parse_commandline argv xmss_sign_defaults = Ok a
     /\ signed (xs_message a) (xmss_variant (xs_strategy a) (xs_height a))
          (xs_priv a) (xs_state a) (xs_sig a) x)
  /\ (let x := hss_sign_main hss_variant argv seed w in
      fst x = EXIT_SUCCESS ->
      exists a,
        hss_sign_parse_commandline argv hss_sign_defaults = Ok a
        /\ signed (hs_message a) (hss_variant (hs_strategy a) (hs_w a) (hs_height a))
             (hs_priv a) (hs_state a) (hs_sig a) x).
Proof.
  intros Hsc. cbv zeta. split.
  - unfold xmss_sign_main.
    destruct (xmss_sign_parse_commandline argv xmss_sign_defaults) as [a|e] eqn:Hp;
      [|discriminate].
    intros Hs. exists a. split; [reflexivity|].
    exact (sign_main_success (xmss_sign_init_toolkit (xs_message a) seed)
             (xs_message a) seed (xmss_variant (xs_strategy a) (xs_height a))
             (xs_priv a) (xs_state a) (xs_sig a)
             (fun rng variant digest => showcase_xmss_sign rng variant digest) w
             (xmss_sign_init_toolkit_ways _ _ _)
             (fun rng digest w1 => xmss_sign_success rng _ digest _ _ _ w1) Hsc Hs).
  - unfold hss_sign_main.
    destruct (hss_sign_parse_commandline argv hss_sign_defaults) as [a|e] eqn:Hp;
      [|discriminate].
    intros Hs. exists a. split; [reflexivity|].
    exact (sign_main_success (hss_sign_init_toolkit (hs_message a) seed)
             (hs_message a) seed
             (hss_variant (hs_strategy a) (hs_w a) (hs_height a))
             (hs_priv a) (hs_state a) (hs_sig a)
             (fun rng variant digest => showcase_hss_sign rng variant digest) w
             (hss_sign_init_toolkit_ways _ _ _)
             (fun rng digest w1 => hss_sign_success rng _ digest _ _ _ w1) Hsc Hs).
Qed.

Lemma sign_main_success_means_signed_witness :
  let w := ReferenceEngine.sign_world Reference.fresh_state [x07] in
  let x := xmss_sign_main (T := Reference.toolkit) (H := ReferenceEngine.hashing)
             (R := ReferenceEngine.random) (fun _ _ => 10) ["xmss_sign"] [] w in
  fst x = EXIT_SUCCESS
  /\ exists a,
       xmss_sign_parse_commandline ["xmss_sign"] xmss_sign_defaults = Ok a
       /\ exists msg digest rng0 rng params priv state sig_size state' sgn e,
            msg <> []
            /\ digest_of (H := ReferenceEngine.hashing) (fs w) (xs_message a) msg digest
            /\ ReferenceEngine.random.(RNGCreateHMACDRBG) IQR_HASHALGO_SHA2_256 = Ok rng0
            /\ ReferenceEngine.random.(RNGInitialize) rng0 [] = Ok rng
            /\ Reference.create_params 10 = Ok params
            /\ Reference.import_private_key params (buf (fs w !! xs_priv a)) = Ok priv
            /\ Reference.import (buf (fs w !! xs_state a)) = Ok state
            /\ Reference.sign priv rng digest state sig_size = Ok (state', sgn)
            /\ Reference.export_state state' (length (buf (fs w !! xs_state a))) = Ok e
            /\ fs (snd x)
               = <[xs_sig a := overwrite (repeat x00 sig_size) sgn]>
                   (<[xs_state a := overwrite (buf (fs w !! xs_state a)) e]> (fs w)).
Proof.
  intros w x. split; [vm_compute; reflexivity|].
  apply (proj1 (sign_main_success_means_signed (T := Reference.toolkit)
                  (H := ReferenceEngine.hashing) (R := ReferenceEngine.random)
                  (fun _ _ => 10) (fun _ _ _ => 10) ["xmss_sign"] [] w eq_refl)).
  vm_compute. reflexivity.
Defined.

(** X17.  In an environment without faults, a detach program that exits
    with [EXIT_SUCCESS] has detached the count the command line gave and
    saved both states: the command line parsed, the toolkit detached
    [num_signatures] signatures from the state the state file held, with
    the key the key file held, and the files are as they were but for the
    state file, which holds the export of the parent, and the
    detached-state file, which holds the export of the detached state. *)
Theorem detach_main_success_means_detached {T : Toolkit} (init_toolkit : res unit)
    (xmss_variant : iqr_XMSSTreeStrategy -> iqr_XMSSHeight -> Variant)
    (xmssmt_variant : iqr_XMSSMTTreeStrategy -> iqr_XMSSMTVariant -> Variant)
    (argv : list string) (errno : Z) (w : World) :
  script w = [] ->
  let detached variant priv_file state_file n detached_state_file (x : Z * World) :=
    exists params priv state parent detached e1 e2,
      CreateParams variant = Ok params
      /\ ImportPrivateKey params (buf (fs w !! priv_file)) = Ok priv
      /\ ImportState params (buf (fs w !! state_file)) = Ok state
      /\ DetachState priv state n = Ok (parent, detached)
      /\ ExportState parent (length (buf (fs w !! state_file))) = Ok e1
      /\ ExportState detached (length (buf (fs w !! state_file))) = Ok e2
      /\ fs (snd x)
         = <[detached_state_file :=
               overwrite (overwrite (buf (fs w !! state_file)) e1) e2]>
             (<[state_file := overwrite (buf (fs w !! state_file)) e1]> (fs w)) in
  (let x := xmss_detach_main init_toolkit xmss_variant argv errno w in
   fst x = EXIT_SUCCESS ->
   exists a,
     xmss_detach_parse_commandline argv errno xmss_detach_defaults = Ok a
     /\ detached (xmss_variant (xd_strategy a) (xd_height a)) (xd_priv a) (xd_state a)
          (xd_num_signatures a) (xd_detached_state a) x)
  /\ (let x := xmssmt_detach_main init_toolkit xmssmt_variant argv errno w in
      fst x = EXIT_SUCCESS ->
      exists a,
        xmssmt_detach_parse_commandline argv errno xmssmt_detach_defaults = Ok a
        /\ detached (xmssmt_variant (xmd_strategy a) (xmd_variant a)) (xmd_priv a)
             (xmd_state a) (xmd_num_signatures a) (xmd_detached_state a) x).
Proof.
  intros Hsc. cbv zeta. split.
  - unfold xmss_detach_main.
    destruct (xmss_detach_parse_commandline argv errno xmss_detach_defaults) as [a|e] eqn:Hp;
      [|discriminate].
    destruct init_toolkit as [[]|e]; [|discriminate].
    intros Hs. apply exit_status_success in Hs. cbn [exit_status snd].
    exists a. split; [reflexivity|].
    exact (xmss_detach_success _ _ _ _ _ w Hsc Hs).
  - unfold xmssmt_detach_main.
    destruct (xmssmt_detach_parse_commandline argv errno xmssmt_detach_defaults)
      as [a|e] eqn:Hp; [|discriminate].
    destruct init_toolkit as [[]|e]; [|discriminate].
    intros Hs. apply exit_status_success in Hs. cbn [exit_status snd].
    exists a. split; [reflexivity|].
    exact (xmssmt_detach_success _ _ _ _ _ w Hsc Hs).
Qed.

Lemma detach_main_success_means_detached_witness :
  let w := Reference.world Reference.fresh_state [] in
  let x := xmss_detach_main (T := Reference.toolkit) (Ok tt) (fun _ _ => 10)
             ["xmss_detach"; "--num-sigs"; "2"] 0 w in
  fst x = EXIT_SUCCESS
  /\ exists a,
       xmss_detach_parse_commandline ["xmss_detach"; "--num-sigs"; "2"] 0
         xmss_detach_defaults = Ok a
       /\ exists params priv state parent detached e1 e2,
            Reference.create_params 10 = Ok params
            /\ Reference.import_private_key params (buf (fs w !! xd_priv a)) = Ok priv
            /\ Reference.import (buf (fs w !! xd_state a)) = Ok state
            /\ Reference.detach_state priv state (xd_num_signatures a)
               = Ok (parent, detached)
            /\ Reference.export_state parent (length (buf (fs w !! xd_state a))) = Ok e1
            /\ Reference.export_state detached (length (buf (fs w !! xd_state a))) = Ok e2
            /\ fs (snd x)
               = <[xd_detached_state a :=
                     overwrite (overwrite (buf (fs w !! xd_state a)) e1) e2]>
                   (<[xd_state a := overwrite (buf (fs w !! xd_state a)) e1]> (fs w)).
Proof.
  intros w x. split; [vm_compute; reflexivity|].
  apply (proj1 (detach_main_success_means_detached (T := Reference.toolkit) (Ok tt)
                  (fun _ _ => 10) (fun _ _ => 10)
                  ["xmss_detach"; "--num-sigs"; "2"] 0%Z w eq_refl)).
  vm_compute. reflexivity.
Defined.

(** ** Failures of the toolkit, and the other files *)

(** X18.  A failure of the signing or detaching primitive is the
    failure of the sample, and nothing is written.  When the primitive
    fails with [e] on the state the state file holds, each of the four
    samples fails and leaves the files as they were, whatever else fails;
    and when the environment does not fail and the calls before succeed,
    what the sample returns is [e] itself. *)
Theorem primitive_failure_propagated {T : Toolkit} (rng : RNG) (variant : Variant)
    (digest : bytes) (n : Z) (priv_file state_file out_file : string)
    (params : Params) (blob : bytes) (state : State) (e : iqr_error)
    (key : bytes) (priv : PrivateKey) (w : World) :
  CreateParams variant = Ok params ->
  ImportState params blob = Ok state ->
  fs w !! state_file = Some blob ->
  ((forall priv sig_size, Sign priv rng digest state sig_size = Fail e) ->
   refused w (showcase_xmss_sign rng variant digest priv_file state_file out_file w)
   /\ refused w (showcase_hss_sign rng variant digest priv_file state_file out_file w)
   /\ (forall sig_size max_sigs remaining,
         script w = [] -> fs w !! priv_file = Some key ->
         ImportPrivateKey params key = Ok priv ->
         GetSignatureSize params = Ok sig_size ->
         GetSignatureCount state = Ok (max_sigs, remaining) -> remaining <> 0%Z ->
         fst (showcase_xmss_sign rng variant digest priv_file state_file out_file w)
         = IQR_E e
         /\ fst (showcase_hss_sign rng variant digest priv_file state_file out_file w)
            = IQR_E e))
  /\ ((forall priv, DetachState priv state n = Fail e) ->
      refused w (showcase_xmss_detach variant priv_file state_file n out_file w)
      /\ refused w (showcase_xmssmt_detach variant priv_file state_file n out_file w)
      /\ (script w = [] -> fs w !! priv_file = Some key ->
          ImportPrivateKey params key = Ok priv ->
          fst (showcase_xmss_detach variant priv_file state_file n out_file w) = IQR_E e
          /\ fst (showcase_xmssmt_detach variant priv_file state_file n out_file w)
             = IQR_E e)).
Proof.
  intros Hp Hi Hf. split.
  - intros Hs. split_all.
    + exact (xmss_sign_fails_refused rng variant digest priv_file state_file out_file
               params blob state e Hp Hi Hs w Hf).
    + exact (hss_sign_fails_refused rng variant digest priv_file state_file out_file
               params blob state e Hp Hi Hs w Hf).
    + intros sig_size max_sigs remaining Hsc Hk Hpriv Hsize Hcount Hleft.
      apply Z.eqb_neq in Hleft. split.
      * exact (xmss_sign_fails_with rng variant digest priv_file state_file out_file
                 params blob state e Hp Hi Hs key priv sig_size max_sigs remaining
                 Hpriv Hsize Hcount Hleft w Hsc Hk Hf).
      * exact (hss_sign_fails_with rng variant digest priv_file state_file out_file
                 params blob state e Hp Hi Hs key priv sig_size
                 Hpriv Hsize w Hsc Hk Hf).
  - intros Hd. split_all.
    + exact (xmss_detach_fails_refused variant n priv_file state_file out_file
               params blob state e Hp Hi Hd w Hf).
    + exact (xmssmt_detach_fails_refused variant n priv_file state_file out_file
               params blob state e Hp Hi Hd w Hf).
    + intros Hsc Hk Hpriv. split.
      * exact (xmss_detach_fails_with variant n priv_file state_file out_file
                 params blob state e Hp Hi Hd key priv Hpriv w Hsc Hk Hf).
      * exact (xmssmt_detach_fails_with variant n priv_file state_file out_file
                 params blob state e Hp Hi Hd key priv Hpriv w Hsc Hk Hf).
Qed.

Lemma primitive_failure_propagated_witness :
  let w := Reference.world Reference.fresh_state [] in
  fst (showcase_xmss_detach (XMSS := Reference.toolkit) 10 "priv.key" "priv.state" 0
         "detached.state" w)
  = IQR_E EINSUFFICIENTCAPACITY.
Proof.
  intros w.
  pose proof (primitive_failure_propagated (T := Reference.toolkit) tt 10 [] 0%Z
                "priv.key" "priv.state" "detached.state" 10
                (Reference.export Reference.fresh_state) Reference.fresh_state
                EINSUFFICIENTCAPACITY Reference.key Reference.key w
                eq_refl eq_refl eq_refl) as [_ H].
  exact (proj1 (proj2 (proj2 (H (fun _ => eq_refl))) eq_refl eq_refl eq_refl)).
Defined.

(** X19.  The four stateful samples write to their two output files
    only: whatever fails, every other file (the private key file among
    them, when it is none of the two) is after the run what it was
    before. *)
Theorem only_output_files_written {T : Toolkit} (rng : RNG) (variant : Variant)
    (digest : bytes) (n : Z) (priv_file state_file out_file : string) (w : World) :
  others_untouched state_file out_file w
    (showcase_xmss_sign rng variant digest priv_file state_file out_file w)
  /\ others_untouched state_file out_file w
       (showcase_hss_sign rng variant digest priv_file state_file out_file w)
  /\ others_untouched state_file out_file w
       (showcase_xmss_detach variant priv_file state_file n out_file w)
  /\ others_untouched state_file out_file w
       (showcase_xmssmt_detach variant priv_file state_file n out_file w).
Proof.
  split_all.
  - apply xmss_sign_others_untouched.
  - apply hss_sign_others_untouched.
  - apply xmss_detach_others_untouched.
  - apply xmssmt_detach_others_untouched.
Qed.

